(** * WebSocketPriceService: a shallow embedding of
    [ui/src/lib/WebSocketPriceService.ts] and the properties of its
    aggregator, scorer, decoders, reconnection policy, subscription
    registry and shutdown.

    Conventions of the embedding:
    - JavaScript numbers are IEEE-754 binary64 values and are embedded as
      Rocq's primitive floats, whose operations round to nearest, ties to
      even, as ECMAScript's do.  Counters that the source only ever
      sets to small integer constants or increments by one (confidence
      scores, reconnect attempts, delays in ms, close codes) are
      embedded as [Z].
    - A [Map] with string keys is an association list in insertion order.
    - The methods of the class run in a state monad over a record that
      holds the six tables of the class and, next to them, the host: the
      sockets and timers the service created, the clock ([Date.now()]),
      and the record of the callback invocations made so far.  One method
      call or one host event reads the clock once.
    - A callback is the identity of a function.  While it runs, a price
      callback may call unsubscribe functions that [onPriceUpdate]
      returned and a status callback unsubscribe functions that
      [onStatusUpdate] returned; a callback does not throw and calls no
      other method of the service. *)

From Stdlib Require Import ZArith List String Ascii Bool Lia Floats Permutation.
Import ListNotations.

Set Warnings "-register-all,-inexact-float".

Local Open Scope string_scope.
Local Open Scope Z_scope.
Local Open Scope list_scope.

(** ** ECMAScript numbers *)

Module Js.

Definition number := float.

(** [Math.min] and [Math.max] on two arguments: NaN is contagious and
    [-0] is smaller than [+0]. *)
Definition Math_min (a b : number) : number :=
  if (is_nan a || is_nan b)%bool then nan
  else if (a <? b)%float then a
  else if (b <? a)%float then b
  else match classify a with NZero => a | _ => b end.

Definition Math_max (a b : number) : number :=
  if (is_nan a || is_nan b)%bool then nan
  else if (b <? a)%float then a
  else if (a <? b)%float then b
  else match classify a with PZero => a | _ => b end.

Definition Math_abs (a : number) : number := abs a.

(** A value is falsy as a number when it is NaN, [+0] or [-0]. *)
Definition number_truthy (a : number) : bool :=
  negb (is_nan a || is_zero a).

(** The number of elements of an array, as a number. *)
Definition of_nat (n : nat) : number :=
  SF2Prim (binary_normalize prec emax (Z.of_nat n) 0 false).

(** *** Decimal literals

    [StrDecimalLiteral] of ECMA-262 (7.1.4.1): an optional sign, then
    [Infinity] or decimal digits with an optional fraction and an
    optional exponent.  Strings are sequences of code units below 256. *)

Definition is_digit (c : ascii) : bool :=
  let n := nat_of_ascii c in (Nat.leb 48 n && Nat.leb n 57)%bool.

Definition digit_val (c : ascii) : Z := Z.of_nat (nat_of_ascii c) - 48.

(** TAB, LF, VT, FF, CR, SP and NBSP. *)
Definition is_white (c : ascii) : bool :=
  let n := nat_of_ascii c in
  (Nat.leb 9 n && Nat.leb n 13 || Nat.eqb n 32 || Nat.eqb n 160)%bool.

Fixpoint skip_white (s : string) : string :=
  match s with
  | String c r => if is_white c then skip_white r else s
  | EmptyString => s
  end.

(** Reads the longest run of digits: accumulated value, number of digits
    read, and the rest of the string. *)
Fixpoint digits (s : string) (acc : Z) (cnt : nat) : Z * nat * string :=
  match s with
  | String c r =>
      if is_digit c then digits r (acc * 10 + digit_val c) (S cnt)
      else (acc, cnt, s)
  | EmptyString => (acc, cnt, s)
  end.

Inductive literal :=
| LInfinity (neg : bool)
| LDecimal (neg : bool) (mant : Z) (exp10 : Z).

Definition read_sign (s : string) : bool * string :=
  match s with
  | String "-" r => (true, r)
  | String "+" r => (false, r)
  | _ => (false, s)
  end.

(** [ExponentPart]: present only when at least one digit follows. *)
Definition read_exponent (s : string) : Z * string :=
  match s with
  | String c r =>
      if (Ascii.eqb c "e" || Ascii.eqb c "E")%bool then
        let '(neg, r1) := read_sign r in
        let '(v, n, r2) := digits r1 0 0 in
        match n with
        | O => (0, s)
        | _ => ((if neg then - v else v), r2)
        end
      else (0, s)
  | EmptyString => (0, s)
  end.

Definition starts_with (p s : string) : bool :=
  String.prefix p s.

Definition drop (n : nat) (s : string) : string :=
  String.substring n (String.length s - n) s.

(** The longest prefix of [s] that is a [StrDecimalLiteral], with the
    rest of the string. *)
Definition read_literal (s : string) : option (literal * string) :=
  let '(neg, s1) := read_sign s in
  if starts_with "Infinity" s1 then Some (LInfinity neg, drop 8 s1)
  else
    let '(i, ni, s2) := digits s1 0 0 in
    let '(m, nf, s3) :=
      match s2 with
      | String "." r =>
          let '(m, nf, r') := digits r i 0 in
          match ni, nf with
          | O, O => (i, O, s2)
          | _, _ => (m, nf, r')
          end
      | _ => (i, O, s2)
      end in
    match ni, nf, s3 with
    | O, O, _ => None
    | _, _, _ =>
        let '(e, s4) := read_exponent s3 in
        Some (LDecimal neg m (e - Z.of_nat nf), s4)
    end.

(** The binary64 value nearest to [m * 10^e] (ties to even).  For a
    negative exponent the quotient is taken with 64 bits to spare and
    a sticky bit, so that the final rounding is the rounding of the
    exact quotient. *)
Definition round_decimal (neg : bool) (m e : Z) : number :=
  let signed (x : Z) := if neg then - x else x in
  if m =? 0 then (if neg then neg_zero else zero)
  else if 0 <=? e then
    SF2Prim (binary_normalize prec emax (signed (m * 10 ^ e)) 0 neg)
  else
    let d := 10 ^ (- e) in
    let s := Z.max 0 (64 + Z.log2 d - Z.log2 m) in
    let n := m * 2 ^ s in
    let q := n / d in
    let sticky := if n mod d =? 0 then 0 else 1 in
    SF2Prim (binary_normalize prec emax (signed (2 * q + sticky)) (- (s + 1)) neg).

Definition literal_value (l : literal) : number :=
  match l with
  | LInfinity neg => if neg then neg_infinity else infinity
  | LDecimal neg m e => round_decimal neg m e
  end.

(** [parseFloat] applied to a string: leading white space is skipped
    and the longest literal prefix is converted; NaN when there is none. *)
Definition parseFloat_string (s : string) : number :=
  match read_literal (skip_white s) with
  | Some (l, _) => literal_value l
  | None => nan
  end.

(** *** Numeric strings ([StringToNumber], ECMA-262 7.1.4.1.1)

    The whole string, white space trimmed at both ends, has to be a
    literal; the empty string is [+0]; [0x], [0o] and [0b] integers are
    accepted without a sign. *)

Definition digit_in_base (base : Z) (c : ascii) : option Z :=
  let n := Z.of_nat (nat_of_ascii c) in
  let v :=
    if ((48 <=? n) && (n <=? 57))%bool then n - 48
    else if ((97 <=? n) && (n <=? 102))%bool then n - 87
    else if ((65 <=? n) && (n <=? 70))%bool then n - 55
    else 16 in
  if v <? base then Some v else None.

(** All of [s] read as digits of [base]; [None] on any other character. *)
Fixpoint all_digits (base : Z) (s : string) (acc : Z) : option Z :=
  match s with
  | EmptyString => Some acc
  | String c r =>
      match digit_in_base base c with
      | Some v => all_digits base r (acc * base + v)
      | None => None
      end
  end.

Definition radix_prefix (s : string) : option (Z * string) :=
  match s with
  | String "0" (String c r) =>
      if (Ascii.eqb c "x" || Ascii.eqb c "X")%bool then Some (16, r)
      else if (Ascii.eqb c "o" || Ascii.eqb c "O")%bool then Some (8, r)
      else if (Ascii.eqb c "b" || Ascii.eqb c "B")%bool then Some (2, r)
      else None
  | _ => None
  end.

Fixpoint all_white (s : string) : bool :=
  match s with
  | EmptyString => true
  | String c r => (is_white c && all_white r)%bool
  end.

Definition stringToNumber (s : string) : number :=
  let t := skip_white s in
  if all_white t then zero
  else
    match radix_prefix t with
    | Some (base, r) =>
        (* digits up to the trailing white space *)
        let fix body (u : string) : string * string :=
          match u with
          | String c u' =>
              if is_white c then (EmptyString, u)
              else let '(b, w) := body u' in (String c b, w)
          | EmptyString => (EmptyString, EmptyString)
          end in
        let '(b, w) := body r in
        match b, all_digits base b 0 with
        | String _ _, Some v =>
            if all_white w
            then SF2Prim (binary_normalize prec emax v 0 false)
            else nan
        | _, _ => nan
        end
    | None =>
        match read_literal t with
        | Some (l, rest) => if all_white rest then literal_value l else nan
        | None => nan
        end
    end.

(** *** Values

    What [JSON.parse] produces, together with [undefined] (the value of
    a missing property).  The fields of an object have distinct keys. *)

Inductive value :=
| VUndefined
| VNull
| VBool (b : bool)
| VNumber (n : number)
| VString (s : string)
| VArray (l : list value)
| VObject (fields : list (string * value)).
Arguments VNumber n%_float.

(** The outcome of an expression that may throw. *)
Inductive completion (A : Type) :=
| Normal (a : A)
| Throws.
Arguments Normal {A} a.
Arguments Throws {A}.

Definition bind {A B} (c : completion A) (k : A -> completion B) : completion B :=
  match c with
  | Normal a => k a
  | Throws => Throws
  end.

Definition truthy (v : value) : bool :=
  match v with
  | VUndefined | VNull => false
  | VBool b => b
  | VNumber n => number_truthy n
  | VString s => negb (String.eqb s "")
  | VArray _ | VObject _ => true
  end.

Fixpoint lookup (k : string) (fields : list (string * value)) : value :=
  match fields with
  | [] => VUndefined
  | (k', v) :: r => if String.eqb k k' then v else lookup k r
  end.

(** [v.name] for a name that no prototype defines (every property the
    decoders read is of that kind): a [TypeError] on [undefined] and
    [null], [undefined] on the other primitives and on arrays. *)
Definition prop (v : value) (name : string) : completion value :=
  match v with
  | VUndefined | VNull => Throws
  | VObject fields => Normal (lookup name fields)
  | _ => Normal VUndefined
  end.

(** The decimal spelling of an array index, for [obj[i]] on an object. *)
Definition index_key (i : nat) : string :=
  match i with
  | 0%nat => "0" | 1%nat => "1" | 2%nat => "2" | 3%nat => "3"
  | _ => "4"
  end.

(** [v[i]] for [i] at most 3, on a value that is neither [undefined]
    nor [null]. *)
Definition item (v : value) (i : nat) : value :=
  match v with
  | VArray l => nth i l VUndefined
  | VString s =>
      match String.get i s with
      | Some c => VString (String c EmptyString)
      | None => VUndefined
      end
  | VObject fields => lookup (index_key i) fields
  | _ => VUndefined
  end.

(** [v?.[i]] *)
Definition optional_item (v : value) (i : nat) : value :=
  match v with
  | VUndefined | VNull => VUndefined
  | _ => item v i
  end.

Definition strict_equals_string (v : value) (s : string) : bool :=
  match v with
  | VString s' => String.eqb s' s
  | _ => false
  end.

Definition positive_zero (n : number) : number :=
  match classify n with NZero => zero | _ => n end.

(** *** Conversion to a primitive

    [ToPrimitive(v)], which [ToString] and [ToNumber] start with, calls
    the methods [toString] and [valueOf] of an object.  A value of
    [JSON.parse] inherits both from [Object.prototype] (or
    [Array.prototype]) unless a field of that name hides them, and a
    field is never callable.  The inherited [valueOf] returns the object
    itself, so the conversion rests on [toString]: with a field named
    [toString] no method returns a primitive and a [TypeError] is
    thrown.  An array joins the conversions of its elements, [null] and
    [undefined] printing as the empty string. *)

Definition has_field (name : string) (fields : list (string * value)) : bool :=
  existsb (fun field => String.eqb (fst field) name) fields.

(** [ToPrimitive(v)] returns. *)
Fixpoint coercible (v : value) : bool :=
  match v with
  | VArray l => forallb coercible l
  | VObject fields => negb (has_field "toString" fields)
  | _ => true
  end.

(** [parseFloat] of [ToString(v)], for a value that converts.  A number
    prints as a literal that reads back as itself ([-0] prints as
    ["0"]); the names of the other primitives and ["[object Object]"]
    start with no literal; an array prints its elements separated by
    commas, so only its first element can contribute a prefix. *)
Fixpoint parseFloat_value (v : value) : number :=
  match v with
  | VNumber n => positive_zero n
  | VString s => parseFloat_string s
  | VArray (x :: _) => parseFloat_value x
  | _ => nan
  end.

(** [parseFloat(v)] *)
Definition parseFloat (v : value) : completion number :=
  if coercible v then Normal (parseFloat_value v) else Throws.

(** [ToNumber(v)], for a value that converts: an array of two or more
    elements prints with a comma and is no numeric string; [null] and
    [undefined] print as the empty string inside an array. *)
Fixpoint toNumber_value (v : value) : number :=
  match v with
  | VUndefined => nan
  | VNull => zero
  | VBool b => if b then one else zero
  | VNumber n => n
  | VString s => stringToNumber s
  | VArray [] => zero
  | VArray [x] =>
      match x with
      | VUndefined | VNull => zero
      | VBool _ => nan
      | VNumber n => positive_zero n
      | _ => toNumber_value x
      end
  | VArray _ => nan
  | VObject _ => nan
  end.

(** [ToNumber(v)] *)
Definition toNumber (v : value) : completion number :=
  if coercible v then Normal (toNumber_value v) else Throws.

End Js.

Import Js.

(** ** Data model *)

Inductive ConnectionState :=
| DISCONNECTED
| CONNECTING
| CONNECTED
| RECONNECTING
| ERROR.

(** The decoder and the subscription encoder an exchange is configured
    with ([messageParser] and [subscriptionMessage], bound methods in the
    source) are named by the adapter. *)
Inductive Adapter := Binance | Coinbase | Kraken.

Record ExchangeConfig := {
  name : string;
  url : string;
  symbolMapping : list (string * string);
  adapter : Adapter;
  priority : Z
}.

Record ConnectionStatus := {
  exchange : string;
  state : ConnectionState;
  lastUpdate : number;
  status_latency : number;
  reconnectAttempts : Z;
  error : option string
}.

(** [PriceUpdate extends RealTimePrice]. *)
Record PriceUpdate := {
  symbol : string;
  price : number;
  timestamp : number;
  change24h : number;
  volume24h : number;
  source : string;
  latency : number;
  confidence : Z
}.

(** ** Insertion-ordered maps with string keys ([Map<string, V>]) *)

Module JsMap.
Section Ops.
Context {V : Type}.

Definition t := list (string * V).

Definition empty : t := [].

Fixpoint get (k : string) (m : t) : option V :=
  match m with
  | [] => None
  | (k', v) :: r => if String.eqb k k' then Some v else get k r
  end.

Definition has (k : string) (m : t) : bool :=
  match get k m with Some _ => true | None => false end.

(** [set] keeps the position of a key that is already present and
    appends a new key. *)
Fixpoint set (k : string) (v : V) (m : t) : t :=
  match m with
  | [] => [(k, v)]
  | (k', v') :: r =>
      if String.eqb k k' then (k, v) :: r else (k', v') :: set k v r
  end.

Definition values (m : t) : list V := map snd m.

Definition entries (m : t) : list (string * V) := m.
End Ops.
Arguments t : clear implicits.
End JsMap.

(** ** Exchange adapter registry *)

Definition binance : ExchangeConfig := {|
  name := "binance";
  url := "wss://stream.binance.com:9443/ws";
  priority := 1;
  symbolMapping :=
    [("BTC", "BTCUSDT"); ("ETH", "ETHUSDT"); ("SOL", "SOLUSDT");
     ("ADA", "ADAUSDT"); ("AVAX", "AVAXUSDT"); ("MATIC", "MATICUSDT");
     ("DOT", "DOTUSDT"); ("LINK", "LINKUSDT"); ("UNI", "UNIUSDT");
     ("ATOM", "ATOMUSDT"); ("NEAR", "NEARUSDT"); ("FTM", "FTMUSDT");
     ("ALGO", "ALGOUSDT"); ("XRP", "XRPUSDT"); ("LTC", "LTCUSDT");
     ("BCH", "BCHUSDT")];
  adapter := Binance
|}.

Definition coinbase : ExchangeConfig := {|
  name := "coinbase";
  url := "wss://ws-feed.exchange.coinbase.com";
  priority := 2;
  symbolMapping :=
    [("BTC", "BTC-USD"); ("ETH", "ETH-USD"); ("SOL", "SOL-USD");
     ("ADA", "ADA-USD"); ("AVAX", "AVAX-USD"); ("MATIC", "MATIC-USD");
     ("DOT", "DOT-USD"); ("LINK", "LINK-USD"); ("UNI", "UNI-USD");
     ("ATOM", "ATOM-USD"); ("ALGO", "ALGO-USD"); ("LTC", "LTC-USD")];
  adapter := Coinbase
|}.

Definition kraken : ExchangeConfig := {|
  name := "kraken";
  url := "wss://ws.kraken.com";
  priority := 3;
  symbolMapping :=
    [("BTC", "XBT/USD"); ("ETH", "ETH/USD"); ("SOL", "SOL/USD");
     ("ADA", "ADA/USD"); ("AVAX", "AVAX/USD"); ("DOT", "DOT/USD");
     ("LINK", "LINK/USD"); ("UNI", "UNI/USD"); ("ATOM", "ATOM/USD");
     ("ALGO", "ALGO/USD"); ("LTC", "LTC/USD")];
  adapter := Kraken
|}.

Definition exchanges : list ExchangeConfig := [binance; coinbase; kraken].

(** [symbolMapping[symbol]], for a symbol that is no member of
    [Object.prototype]. *)
Fixpoint mapping_get (symbol : string) (m : list (string * string)) : option string :=
  match m with
  | [] => None
  | (k, v) :: r => if String.eqb symbol k then Some v else mapping_get symbol r
  end.

(** ** Message normalizers *)

(** The first canonical symbol whose source-native name is strictly equal
    to [exchangeSymbol]. *)
Fixpoint find_mapped (exchangeSymbol : value) (m : list (string * string)) : option string :=
  match m with
  | [] => None
  | (original, mapped) :: r =>
      if strict_equals_string exchangeSymbol mapped then Some original
      else find_mapped exchangeSymbol r
  end.

Definition findOriginalSymbol (exchangeName : string) (exchangeSymbol : value)
  : option string :=
  match find (fun e => String.eqb (name e) exchangeName) exchanges with
  | None => None
  | Some e => find_mapped exchangeSymbol (symbolMapping e)
  end.

(** [x || 0] on numbers. *)
Definition or_zero (x : number) : number :=
  if number_truthy x then x else zero.

(** [update.timestamp] as the service reads it, which is as the right
    operand of [Date.now() - update.timestamp].  The Binance decoder
    keeps the field [E] of the frame as it came; the embedding keeps the
    number that operand stands for.  For a field that does not convert
    the subtraction throws whenever the source aggregates the symbol,
    which a numeric timestamp cannot follow: the number is NaN there,
    and the statements about a decoded frame ask for a numeric [E]. *)
Definition timestamp_of (E : value) : number :=
  match toNumber E with
  | Normal n => n
  | Throws => nan
  end.

(** A decoder returns a tick, [null] ([None]), or throws. *)
Definition parseBinanceMessage (data : value) : completion (option PriceUpdate) :=
  bind (prop data "e") (fun e =>
  if strict_equals_string e "24hrTicker" then
    bind (prop data "s") (fun binanceSymbol =>
    match findOriginalSymbol "binance" binanceSymbol with
    | Some originalSymbol =>
        bind (prop data "c") (fun c =>
        bind (parseFloat c) (fun price =>
        bind (prop data "E") (fun E =>
        bind (prop data "P") (fun P =>
        bind (parseFloat P) (fun change24h =>
        bind (prop data "v") (fun v =>
        bind (parseFloat v) (fun volume24h =>
        Normal (Some {|
          symbol := originalSymbol;
          price := price;
          timestamp := timestamp_of E;
          change24h := change24h;
          volume24h := volume24h;
          source := "binance";
          latency := zero;
          confidence := 95
        |}))))))))
    | None => Normal None
    end)
  else Normal None).

Section Decoders.

(** The host's reading of a date: [getTime v] is [new Date(v).getTime()]
    for a value that converts to a primitive. *)
Variable getTime : value -> number.

(** [new Date(v).getTime()] *)
Definition Date_time (v : value) : completion number :=
  if coercible v then Normal (getTime v) else Throws.

Definition parseCoinbaseMessage (data : value) : completion (option PriceUpdate) :=
  bind (prop data "type") (fun type =>
  if strict_equals_string type "ticker" then
    bind (prop data "product_id") (fun coinbaseSymbol =>
    match findOriginalSymbol "coinbase" coinbaseSymbol with
    | Some originalSymbol =>
        bind (prop data "price") (fun p =>
        bind (parseFloat p) (fun price =>
        bind (prop data "time") (fun time =>
        bind (Date_time time) (fun timestamp =>
        bind (prop data "open_24h") (fun open_24h =>
        bind (parseFloat open_24h) (fun open =>
        bind (prop data "volume_24h") (fun volume_24h =>
        bind (parseFloat volume_24h) (fun volume24h =>
        Normal (Some {|
          symbol := originalSymbol;
          price := price;
          timestamp := timestamp;
          change24h :=
            if number_truthy open
            then ((price - open) / open * 100)%float
            else zero;
          volume24h := volume24h;
          source := "coinbase";
          latency := zero;
          confidence := 90
        |})))))))))
    | None => Normal None
    end)
  else Normal None).

(** [Date.now()] is passed as [now]. *)
Definition parseKrakenMessage (now : number) (data : value)
  : completion (option PriceUpdate) :=
  match data with
  | VArray l =>
      if (Nat.ltb 3 (List.length l)
          && strict_equals_string (nth 2 l VUndefined) "ticker")%bool then
        let krakenSymbol := nth 3 l VUndefined in
        let ticker := nth 1 l VUndefined in
        match findOriginalSymbol "kraken" krakenSymbol with
        | Some originalSymbol =>
            if truthy ticker then
              bind (prop ticker "c") (fun c =>
              bind (parseFloat (optional_item c 0)) (fun price =>
              bind (prop ticker "v") (fun v =>
              bind (parseFloat (optional_item v 1)) (fun volume24h =>
              Normal (Some {|
                symbol := originalSymbol;
                price := or_zero price;
                timestamp := now;
                change24h := zero;
                volume24h := or_zero volume24h;
                source := "kraken";
                latency := zero;
                confidence := 80
              |})))))
            else Normal None
        | None => Normal None
        end
      else Normal None
  | _ => Normal None
  end.

Definition messageParser (e : ExchangeConfig) (now : number) (data : value)
  : completion (option PriceUpdate) :=
  match adapter e with
  | Binance => parseBinanceMessage data
  | Coinbase => parseCoinbaseMessage data
  | Kraken => parseKrakenMessage now data
  end.

End Decoders.

(** ** Confidence scorer *)

Definition calculateConfidence (exchange : string) (latency : number) : Z :=
  let baseScore := 70 in
  let baseScore :=
    if String.eqb exchange "binance" then 95
    else if String.eqb exchange "coinbase" then 90
    else if String.eqb exchange "kraken" then 80
    else baseScore in
  let baseScore :=
    if (latency <? 100)%float then baseScore + 5
    else if (1000 <? latency)%float then baseScore - 10
    else if (500 <? latency)%float then baseScore - 5
    else baseScore in
  Z.max 10 (Z.min 100 baseScore).

(** ** Arrays *)

(** [Array.prototype.sort] with a comparator: stable, [a] is placed after
    [b] when [cmp a b] is positive.  For a comparator that is a
    difference of integer keys every stable sort returns this list. *)
Section Sort.
Context {A : Type}.
Variable cmp : A -> A -> Z.

Fixpoint insert (x : A) (l : list A) : list A :=
  match l with
  | [] => [x]
  | y :: r => if 0 <? cmp x y then y :: insert x r else x :: y :: r
  end.

Definition sort (l : list A) : list A := fold_right insert [] l.
End Sort.

(** [indexOf] on an array of function identities. *)
Fixpoint indexOf (x : nat) (l : list nat) : option nat :=
  match l with
  | [] => None
  | y :: r =>
      if Nat.eqb y x then Some O
      else match indexOf x r with
           | Some i => Some (S i)
           | None => None
           end
  end.

(** [splice(index, 1)] *)
Fixpoint splice1 {A} (index : nat) (l : list A) : list A :=
  match l, index with
  | [], _ => []
  | _ :: r, O => r
  | y :: r, S i => y :: splice1 i r
  end.

(** [reduce((a, b) => a + b)] without an initial value, on a non-empty
    array. *)
Definition reduce_add (l : list number) : number :=
  match l with
  | [] => nan
  | x :: r => fold_left (fun a b => (a + b)%float) r x
  end.

(** ** The service and the host it runs in *)

Inductive ReadyState := WS_CONNECTING | WS_OPEN | WS_CLOSING | WS_CLOSED.

Inductive SubscriptionMessage :=
| BinanceSubscribe (params : list string) (id : number)
| CoinbaseSubscribe (product_ids : list string)
| KrakenSubscribe (pair : list string).

(** A socket the service constructed, with what its handlers close over
    and what the service did to it. *)
Record WebSocket := {
  ws_exchange : ExchangeConfig;
  ws_symbols : list string;
  readyState : ReadyState;
  closeCalls : list (Z * string);
  sent : list SubscriptionMessage
}.

Inductive TimerState := Pending | Fired | Cleared.

(** A timer set by [scheduleReconnection]. *)
Record Timer := {
  t_exchange : ExchangeConfig;
  t_symbols : list string;
  t_attempts : Z;
  t_delay : Z;
  t_state : TimerState
}.

(** An invocation of a price callback: the symbol whose callback list was
    being run, the callback, and the tick it received. *)
Definition PriceCall : Type := string * nat * PriceUpdate.

(** The six tables of the class, then the host: the sockets and timers
    the service created (a socket or timer is named by its position),
    the clock, and the record of the callback invocations made so far.
    A callback is named by the identity of its function. *)
Record Service := {
  connections : JsMap.t nat;
  connectionStatus : JsMap.t ConnectionStatus;
  priceCallbacks : JsMap.t (list nat);
  statusCallbacks : list nat;
  reconnectTimers : JsMap.t nat;
  priceCache : JsMap.t PriceUpdate;
  sockets : list WebSocket;
  timers : list Timer;
  clock : number;
  priceCalls : list PriceCall;
  statusCalls : list (nat * list ConnectionStatus)
}.

Definition initial : Service := {|
  connections := []; connectionStatus := []; priceCallbacks := [];
  statusCallbacks := []; reconnectTimers := []; priceCache := [];
  sockets := []; timers := []; clock := zero;
  priceCalls := []; statusCalls := []
|}.

Definition set_connections v (s : Service) : Service :=
  {| connections := v; connectionStatus := connectionStatus s;
     priceCallbacks := priceCallbacks s; statusCallbacks := statusCallbacks s;
     reconnectTimers := reconnectTimers s; priceCache := priceCache s;
     sockets := sockets s; timers := timers s; clock := clock s;
     priceCalls := priceCalls s; statusCalls := statusCalls s |}.

Definition set_connectionStatus v (s : Service) : Service :=
  {| connections := connections s; connectionStatus := v;
     priceCallbacks := priceCallbacks s; statusCallbacks := statusCallbacks s;
     reconnectTimers := reconnectTimers s; priceCache := priceCache s;
     sockets := sockets s; timers := timers s; clock := clock s;
     priceCalls := priceCalls s; statusCalls := statusCalls s |}.

Definition set_priceCallbacks v (s : Service) : Service :=
  {| connections := connections s; connectionStatus := connectionStatus s;
     priceCallbacks := v; statusCallbacks := statusCallbacks s;
     reconnectTimers := reconnectTimers s; priceCache := priceCache s;
     sockets := sockets s; timers := timers s; clock := clock s;
     priceCalls := priceCalls s; statusCalls := statusCalls s |}.

Definition set_statusCallbacks v (s : Service) : Service :=
  {| connections := connections s; connectionStatus := connectionStatus s;
     priceCallbacks := priceCallbacks s; statusCallbacks := v;
     reconnectTimers := reconnectTimers s; priceCache := priceCache s;
     sockets := sockets s; timers := timers s; clock := clock s;
     priceCalls := priceCalls s; statusCalls := statusCalls s |}.

Definition set_reconnectTimers v (s : Service) : Service :=
  {| connections := connections s; connectionStatus := connectionStatus s;
     priceCallbacks := priceCallbacks s; statusCallbacks := statusCallbacks s;
     reconnectTimers := v; priceCache := priceCache s;
     sockets := sockets s; timers := timers s; clock := clock s;
     priceCalls := priceCalls s; statusCalls := statusCalls s |}.

Definition set_priceCache v (s : Service) : Service :=
  {| connections := connections s; connectionStatus := connectionStatus s;
     priceCallbacks := priceCallbacks s; statusCallbacks := statusCallbacks s;
     reconnectTimers := reconnectTimers s; priceCache := v;
     sockets := sockets s; timers := timers s; clock := clock s;
     priceCalls := priceCalls s; statusCalls := statusCalls s |}.

Definition set_sockets v (s : Service) : Service :=
  {| connections := connections s; connectionStatus := connectionStatus s;
     priceCallbacks := priceCallbacks s; statusCallbacks := statusCallbacks s;
     reconnectTimers := reconnectTimers s; priceCache := priceCache s;
     sockets := v; timers := timers s; clock := clock s;
     priceCalls := priceCalls s; statusCalls := statusCalls s |}.

Definition set_timers v (s : Service) : Service :=
  {| connections := connections s; connectionStatus := connectionStatus s;
     priceCallbacks := priceCallbacks s; statusCallbacks := statusCallbacks s;
     reconnectTimers := reconnectTimers s; priceCache := priceCache s;
     sockets := sockets s; timers := v; clock := clock s;
     priceCalls := priceCalls s; statusCalls := statusCalls s |}.

Definition set_clock v (s : Service) : Service :=
  {| connections := connections s; connectionStatus := connectionStatus s;
     priceCallbacks := priceCallbacks s; statusCallbacks := statusCallbacks s;
     reconnectTimers := reconnectTimers s; priceCache := priceCache s;
     sockets := sockets s; timers := timers s; clock := v;
     priceCalls := priceCalls s; statusCalls := statusCalls s |}.

Definition set_priceCalls v (s : Service) : Service :=
  {| connections := connections s; connectionStatus := connectionStatus s;
     priceCallbacks := priceCallbacks s; statusCallbacks := statusCallbacks s;
     reconnectTimers := reconnectTimers s; priceCache := priceCache s;
     sockets := sockets s; timers := timers s; clock := clock s;
     priceCalls := v; statusCalls := statusCalls s |}.

Definition set_statusCalls v (s : Service) : Service :=
  {| connections := connections s; connectionStatus := connectionStatus s;
     priceCallbacks := priceCallbacks s; statusCallbacks := statusCallbacks s;
     reconnectTimers := reconnectTimers s; priceCache := priceCache s;
     sockets := sockets s; timers := timers s; clock := clock s;
     priceCalls := priceCalls s; statusCalls := v |}.

(** Methods run in a state monad over [Service]. *)
Definition M (A : Type) : Type := Service -> A * Service.

Definition ret {A} (a : A) : M A := fun s => (a, s).

Definition mbind {A B} (m : M A) (k : A -> M B) : M B :=
  fun s => let '(a, s') := m s in k a s'.

Definition gets {A} (f : Service -> A) : M A := fun s => (f s, s).

Definition modify (f : Service -> Service) : M unit := fun s => (tt, f s).

Definition exec {A} (m : M A) (s : Service) : Service := snd (m s).

Definition eval {A} (m : M A) (s : Service) : A := fst (m s).

Declare Scope service_scope.
Delimit Scope service_scope with service.
Notation "x <- m ;; k" := (mbind m (fun x => k))
  (at level 61, m at next level, right associativity) : service_scope.
Notation "m ;; k" := (mbind m (fun _ => k))
  (at level 61, right associativity) : service_scope.
Local Open Scope service_scope.

(** [l.forEach(f)] on an array that [f] does not change. *)
Fixpoint forEach {A} (l : list A) (f : A -> M unit) : M unit :=
  match l with
  | [] => ret tt
  | x :: r => f x ;; forEach r f
  end.

(** What the host decides: how a date reads, whether [new WebSocket(url)]
    throws (and what, as a string), and what a callback does to the
    service when it is invoked: a price callback calls unsubscribe
    functions that [onPriceUpdate] returned, each named by the symbol
    and the callback it was returned for, and a status callback calls
    unsubscribe functions that [onStatusUpdate] returned, each named by
    the callback it was returned for. *)
Record Host := {
  Date_getTime : value -> number;
  WebSocket_throws : string -> option string;
  price_callback : nat -> list (string * nat);
  status_callback : nat -> list nat
}.

Definition lower (c : ascii) : ascii :=
  let n := nat_of_ascii c in
  if (Nat.leb 65 n && Nat.leb n 90)%bool then ascii_of_nat (n + 32) else c.

Fixpoint toLowerCase (s : string) : string :=
  match s with
  | EmptyString => EmptyString
  | String c r => String (lower c) (toLowerCase r)
  end.

(** [symbols.map(symbol => mapping[symbol]).filter(Boolean)] *)
Fixpoint mapped_symbols (mapping : list (string * string)) (symbols : list string)
  : list string :=
  match symbols with
  | [] => []
  | symbol :: r =>
      match mapping_get symbol mapping with
      | Some m => if String.eqb m "" then mapped_symbols mapping r
                  else m :: mapped_symbols mapping r
      | None => mapped_symbols mapping r
      end
  end.

Definition createBinanceSubscription (now : number) (symbols : list string) :=
  BinanceSubscribe
    (map (fun symbol => (toLowerCase symbol ++ "@ticker")%string)
         (mapped_symbols (symbolMapping binance) symbols))
    now.

Definition createCoinbaseSubscription (symbols : list string) :=
  CoinbaseSubscribe (mapped_symbols (symbolMapping coinbase) symbols).

Definition createKrakenSubscription (symbols : list string) :=
  KrakenSubscribe (mapped_symbols (symbolMapping kraken) symbols).

Definition subscriptionMessage (e : ExchangeConfig) (now : number) (symbols : list string) :=
  match adapter e with
  | Binance => createBinanceSubscription now symbols
  | Coinbase => createCoinbaseSubscription symbols
  | Kraken => createKrakenSubscription symbols
  end.

(** *** Fusion cache and aggregator *)

Definition by_confidence (a b : PriceUpdate) : Z := confidence b - confidence a.

(** The read-time freshness test, [Date.now() - update.timestamp < 30000]. *)
Definition is_fresh (now : number) (update : PriceUpdate) : bool :=
  (now - timestamp update <? 30000)%float.

(** The updates [aggregatePriceData] collects from the cache, in the
    order of the cache. *)
Definition collect (symbol : string) (now : number) (cache : JsMap.t PriceUpdate)
  : list PriceUpdate :=
  map snd
    (filter (fun entry => (starts_with (symbol ++ "_")%string (fst entry)
                           && is_fresh now (snd entry))%bool)
            (JsMap.entries cache)).

(** The rest of [aggregatePriceData], on the collected updates. *)
Definition fuse (sources : list PriceUpdate) : option PriceUpdate :=
  if Nat.eqb (List.length sources) 0 then None
  else
    let sources := sort by_confidence sources in
    match sources with
    | [] => None
    | primary :: _ =>
        if Nat.ltb 1 (List.length sources) then
          let prices := map price sources in
          let avgPrice := (reduce_add prices / of_nat (List.length prices))%float in
          let deviation := (Math_abs (price primary - avgPrice) / avgPrice)%float in
          if (0.005 <? deviation)%float then
            Some {|
              symbol := symbol primary;
              price := avgPrice;
              timestamp := timestamp primary;
              change24h := change24h primary;
              volume24h := volume24h primary;
              source := "aggregated";
              latency := latency primary;
              confidence := Z.min 95 (confidence primary + 10)
            |}
          else Some primary
        else Some primary
    end.

(** The method reads the cache and the clock and writes nothing. *)
Definition aggregatePriceData (symbol : string) : M (option PriceUpdate) :=
  cache <- gets priceCache ;;
  now <- gets clock ;;
  ret (fuse (collect symbol now cache)).

Section Methods.

Variable host : Host.

(** *** Status table *)

(** The function [onStatusUpdate callback] returns. *)
Definition unsubscribeStatus (callback : nat) : M unit :=
  modify (fun s =>
    match indexOf callback (statusCallbacks s) with
    | Some index => set_statusCallbacks (splice1 index (statusCallbacks s)) s
    | None => s
    end).

(** A status callback is invoked: the call is recorded and its body
    runs. *)
Definition call_status_callback (callback : nat) (statuses : list ConnectionStatus)
  : M unit :=
  modify (fun s => set_statusCalls (statusCalls s ++ [(callback, statuses)]) s) ;;
  forEach (status_callback host callback) unsubscribeStatus.

(** [this.statusCallbacks.forEach(callback => callback(allStatuses))] on
    the array of the service itself: the index runs up to the length the
    array had at the start ([len]), and an index that is no longer in
    the array is passed over.  The array is read at every index; the
    callbacks only splice it. *)
Fixpoint notify (len k : nat) (allStatuses : list ConnectionStatus) : M unit :=
  match len with
  | O => ret tt
  | S len' =>
      callbacks <- gets statusCallbacks ;;
      match nth_error callbacks k with
      | Some callback => call_status_callback callback allStatuses
      | None => ret tt
      end ;;
      notify len' (S k) allStatuses
  end.

Definition updateConnectionStatus (exchange : string) (state : ConnectionState)
    (latency : number) (error : option string) (reconnectAttempts : Z) : M unit :=
  now <- gets clock ;;
  let status := {|
    exchange := exchange;
    state := state;
    lastUpdate := now;
    status_latency := latency;
    reconnectAttempts := reconnectAttempts;
    error := error
  |} in
  modify (fun s => set_connectionStatus (JsMap.set exchange status (connectionStatus s)) s) ;;
  allStatuses <- gets (fun s => JsMap.values (connectionStatus s)) ;;
  callbacks <- gets statusCallbacks ;;
  notify (List.length callbacks) 0 allStatuses.

(** *** Subscription registry *)

Definition onPriceUpdate (symbol : string) (callback : nat) : M unit :=
  modify (fun s =>
    if JsMap.has symbol (priceCallbacks s) then s
    else set_priceCallbacks (JsMap.set symbol [] (priceCallbacks s)) s) ;;
  modify (fun s =>
    match JsMap.get symbol (priceCallbacks s) with
    | Some callbacks =>
        set_priceCallbacks (JsMap.set symbol (callbacks ++ [callback]) (priceCallbacks s)) s
    | None => s
    end).

(** The function [onPriceUpdate symbol callback] returns. *)
Definition unsubscribe (symbol : string) (callback : nat) : M unit :=
  modify (fun s =>
    match JsMap.get symbol (priceCallbacks s) with
    | Some callbacks =>
        match indexOf callback callbacks with
        | Some index =>
            set_priceCallbacks
              (JsMap.set symbol (splice1 index callbacks) (priceCallbacks s)) s
        | None => s
        end
    | None => s
    end).

(** The callback is called once at registration, with the table as
    it is then. *)
Definition onStatusUpdate (callback : nat) : M unit :=
  modify (fun s => set_statusCallbacks (statusCallbacks s ++ [callback]) s) ;;
  statuses <- gets (fun s => JsMap.values (connectionStatus s)) ;;
  call_status_callback callback statuses.

(** A price callback of the list of [symbol] is invoked: the call is
    recorded and its body runs. *)
Definition call_price_callback (symbol : string) (callback : nat) (p : PriceUpdate)
  : M unit :=
  modify (fun s => set_priceCalls (priceCalls s ++ [(symbol, callback, p)]) s) ;;
  forEach (price_callback host callback)
          (fun u => unsubscribe (fst u) (snd u)).

(** [callbacks.forEach(callback => callback(bestPrice))] on the array the
    registry holds for [symbol]: the index runs up to the length the
    array had at the start ([len]), and an index that is no longer in
    the array is passed over.  The array is read from the registry at
    every index; the callbacks only splice it, so it is the object
    [handlePriceUpdate] took before the loop. *)
Fixpoint deliver (len k : nat) (symbol : string) (p : PriceUpdate) : M unit :=
  match len with
  | O => ret tt
  | S len' =>
      callbacks <- gets (fun s => JsMap.get symbol (priceCallbacks s)) ;;
      match nth_error (match callbacks with Some l => l | None => [] end) k with
      | Some callback => call_price_callback symbol callback p
      | None => ret tt
      end ;;
      deliver len' (S k) symbol p
  end.

Definition handlePriceUpdate (update : PriceUpdate) : M unit :=
  let symbol := symbol update in
  modify (fun s =>
    set_priceCache (JsMap.set (symbol ++ "_" ++ source update)%string update (priceCache s)) s) ;;
  callbacks <- gets (fun s => JsMap.get symbol (priceCallbacks s)) ;;
  bestPrice <- aggregatePriceData symbol ;;
  match bestPrice, callbacks with
  | Some bestPrice, Some callbacks =>
      deliver (List.length callbacks) 0 symbol bestPrice
  | _, _ => ret tt
  end.

(** *** Connection manager *)

(** [attempts] is at least 1 whenever the stored counter is not
    negative, and then [Math.pow(2, attempts - 1)] is the integer power. *)
Definition scheduleReconnection (exchange : ExchangeConfig) (symbols : list string)
  : M unit :=
  let exchangeName := name exchange in
  status <- gets (fun s => JsMap.get exchangeName (connectionStatus s)) ;;
  let attempts :=
    match status with
    | Some status => reconnectAttempts status + 1
    | None => 1
    end in
  let delay := Z.min (1000 * 2 ^ (attempts - 1)) 30000 in
  timer <- gets (fun s => List.length (timers s)) ;;
  modify (fun s =>
    set_timers (timers s ++ [{| t_exchange := exchange; t_symbols := symbols;
                                t_attempts := attempts; t_delay := delay;
                                t_state := Pending |}]) s) ;;
  modify (fun s => set_reconnectTimers (JsMap.set exchangeName timer (reconnectTimers s)) s).

Definition connectToExchange (exchange : ExchangeConfig) (symbols : list string)
  : M unit :=
  let exchangeName := name exchange in
  updateConnectionStatus exchangeName CONNECTING zero None 0 ;;
  match WebSocket_throws host (url exchange) with
  | Some thrown =>
      updateConnectionStatus exchangeName ERROR zero
        (Some ("Connection failed: " ++ thrown)%string) 0 ;;
      scheduleReconnection exchange symbols
  | None =>
      ws <- gets (fun s => List.length (sockets s)) ;;
      modify (fun s =>
        set_sockets (sockets s ++ [{| ws_exchange := exchange; ws_symbols := symbols;
                                      readyState := WS_CONNECTING;
                                      closeCalls := []; sent := [] |}]) s) ;;
      modify (fun s => set_connections (JsMap.set exchangeName ws (connections s)) s)
  end.

Definition by_priority (a b : ExchangeConfig) : Z := priority a - priority b.

(** [subscribe] returns [() => this.disconnect()]. *)
Definition subscribe (symbols : list string) : M unit :=
  let sortedExchanges := sort by_priority exchanges in
  forEach sortedExchanges (fun exchange => connectToExchange exchange symbols).

(** *** Host objects *)

Fixpoint update_nth {A} (i : nat) (f : A -> A) (l : list A) : list A :=
  match l, i with
  | [], _ => []
  | x :: r, O => f x :: r
  | x :: r, S i' => x :: update_nth i' f r
  end.

Definition with_readyState (rs : ReadyState) (w : WebSocket) : WebSocket :=
  {| ws_exchange := ws_exchange w; ws_symbols := ws_symbols w;
     readyState := rs; closeCalls := closeCalls w; sent := sent w |}.

(** [ws.close(code, reason)]: the call is recorded; a socket that is
    connecting or open starts closing. *)
Definition close_socket (code : Z) (reason : string) (w : WebSocket) : WebSocket :=
  {| ws_exchange := ws_exchange w; ws_symbols := ws_symbols w;
     readyState := match readyState w with
                   | WS_CONNECTING | WS_OPEN => WS_CLOSING
                   | rs => rs
                   end;
     closeCalls := closeCalls w ++ [(code, reason)]; sent := sent w |}.

Definition send_socket (msg : SubscriptionMessage) (w : WebSocket) : WebSocket :=
  {| ws_exchange := ws_exchange w; ws_symbols := ws_symbols w;
     readyState := readyState w; closeCalls := closeCalls w;
     sent := sent w ++ [msg] |}.

Definition ws_close (ws : nat) (code : Z) (reason : string) : M unit :=
  modify (fun s => set_sockets (update_nth ws (close_socket code reason) (sockets s)) s).

Definition ws_send (ws : nat) (msg : SubscriptionMessage) : M unit :=
  modify (fun s => set_sockets (update_nth ws (send_socket msg) (sockets s)) s).

(** [clearTimeout(timer)] *)
Definition clear_timer (t : Timer) : Timer :=
  {| t_exchange := t_exchange t; t_symbols := t_symbols t;
     t_attempts := t_attempts t; t_delay := t_delay t;
     t_state := match t_state t with Pending => Cleared | st => st end |}.

Definition clearTimeout (timer : nat) : M unit :=
  modify (fun s => set_timers (update_nth timer clear_timer (timers s)) s).

(** *** Socket handlers, as [connectToExchange] installs them *)

Definition onopen (ws : nat) (exchange : ExchangeConfig) (symbols : list string)
  : M unit :=
  updateConnectionStatus (name exchange) CONNECTED zero None 0 ;;
  let availableSymbols :=
    filter (fun symbol =>
              match mapping_get symbol (symbolMapping exchange) with
              | Some _ => true
              | None => false
              end) symbols in
  if Nat.ltb 0 (List.length availableSymbols) then
    now <- gets clock ;;
    ws_send ws (subscriptionMessage exchange now availableSymbols)
  else ret tt.

(** [data] is [JSON.parse(event.data)], [None] when it throws;
    [latency] is the difference of the two readings of
    [performance.now()].  Whatever is thrown is caught and logged. *)
Definition onmessage (exchange : ExchangeConfig) (data : option value)
    (latency : number) : M unit :=
  let exchangeName := name exchange in
  match data with
  | None => ret tt
  | Some data =>
      now <- gets clock ;;
      match messageParser (Date_getTime host) exchange now data with
      | Normal (Some priceUpdate) =>
          let enhancedUpdate := {|
            symbol := symbol priceUpdate;
            price := price priceUpdate;
            timestamp := timestamp priceUpdate;
            change24h := change24h priceUpdate;
            volume24h := volume24h priceUpdate;
            source := exchangeName;
            latency := latency;
            confidence := calculateConfidence exchangeName latency
          |} in
          handlePriceUpdate enhancedUpdate ;;
          updateConnectionStatus exchangeName CONNECTED latency None 0
      | Normal None => ret tt
      | Throws => ret tt
      end
  end.

Definition onerror (exchange : ExchangeConfig) (description : string) : M unit :=
  updateConnectionStatus (name exchange) ERROR zero
    (Some ("WebSocket error: " ++ description)%string) 0.

Definition onclose (exchange : ExchangeConfig) (symbols : list string) (code : Z)
  : M unit :=
  updateConnectionStatus (name exchange) DISCONNECTED zero None 0 ;;
  if negb (code =? 1000) then scheduleReconnection exchange symbols
  else ret tt.

(** The function [scheduleReconnection] hands to [setTimeout]. *)
Definition reconnect (exchange : ExchangeConfig) (symbols : list string)
    (attempts : Z) : M unit :=
  updateConnectionStatus (name exchange) RECONNECTING zero (Some "") attempts ;;
  connectToExchange exchange symbols.

(** *** Shutdown *)

Definition clear_tables (s : Service) : Service :=
  {| connections := []; connectionStatus := []; priceCallbacks := [];
     statusCallbacks := []; reconnectTimers := []; priceCache := [];
     sockets := sockets s; timers := timers s; clock := clock s;
     priceCalls := priceCalls s; statusCalls := statusCalls s |}.

Definition is_open (ws : nat) (s : Service) : bool :=
  match nth_error (sockets s) ws with
  | Some w => match readyState w with WS_OPEN => true | _ => false end
  | None => false
  end.

Definition disconnect : M unit :=
  conns <- gets connections ;;
  forEach (JsMap.values conns) (fun ws =>
    open <- gets (is_open ws) ;;
    if open then ws_close ws 1000 "Service shutdown" else ret tt) ;;
  tms <- gets reconnectTimers ;;
  forEach (JsMap.values tms) clearTimeout ;;
  modify clear_tables.

(** *** What can happen to a service *)

Inductive Action :=
(* calls of the consumer *)
| Subscribe (symbols : list string)
| OnPriceUpdate (symbol : string) (callback : nat)
| Unsubscribe (symbol : string) (callback : nat)
| OnStatusUpdate (callback : nat)
| UnsubscribeStatus (callback : nat)
| Disconnect
(* events of the host *)
| Tick (now : number)
| WsOpen (ws : nat)
| WsMessage (ws : nat) (data : option value) (latency : number)
| WsError (ws : nat) (description : string)
| WsClose (ws : nat) (code : Z)
| TimerFires (timer : nat).

(** The host fires [open] on a connecting socket, [message] on an open
    or closing one, [error] and [close] on one that is not closed yet,
    and a timer while it is pending. *)
Definition step (a : Action) : M unit :=
  match a with
  | Subscribe symbols => subscribe symbols
  | OnPriceUpdate symbol callback => onPriceUpdate symbol callback
  | Unsubscribe symbol callback => unsubscribe symbol callback
  | OnStatusUpdate callback => onStatusUpdate callback
  | UnsubscribeStatus callback => unsubscribeStatus callback
  | Disconnect => disconnect
  | Tick now => modify (set_clock now)
  | WsOpen ws =>
      w <- gets (fun s => nth_error (sockets s) ws) ;;
      match w with
      | Some w =>
          match readyState w with
          | WS_CONNECTING =>
              modify (fun s => set_sockets (update_nth ws (with_readyState WS_OPEN) (sockets s)) s) ;;
              onopen ws (ws_exchange w) (ws_symbols w)
          | _ => ret tt
          end
      | None => ret tt
      end
  | WsMessage ws data latency =>
      w <- gets (fun s => nth_error (sockets s) ws) ;;
      match w with
      | Some w =>
          match readyState w with
          | WS_OPEN | WS_CLOSING => onmessage (ws_exchange w) data latency
          | _ => ret tt
          end
      | None => ret tt
      end
  | WsError ws description =>
      w <- gets (fun s => nth_error (sockets s) ws) ;;
      match w with
      | Some w =>
          match readyState w with
          | WS_CLOSED => ret tt
          | _ => onerror (ws_exchange w) description
          end
      | None => ret tt
      end
  | WsClose ws code =>
      w <- gets (fun s => nth_error (sockets s) ws) ;;
      match w with
      | Some w =>
          match readyState w with
          | WS_CLOSED => ret tt
          | _ =>
              modify (fun s => set_sockets (update_nth ws (with_readyState WS_CLOSED) (sockets s)) s) ;;
              onclose (ws_exchange w) (ws_symbols w) code
          end
      | None => ret tt
      end
  | TimerFires timer =>
      t <- gets (fun s => nth_error (timers s) timer) ;;
      match t with
      | Some t =>
          match t_state t with
          | Pending =>
              modify (fun s =>
                set_timers (update_nth timer
                  (fun t => {| t_exchange := t_exchange t; t_symbols := t_symbols t;
                               t_attempts := t_attempts t; t_delay := t_delay t;
                               t_state := Fired |}) (timers s)) s) ;;
              reconnect (t_exchange t) (t_symbols t) (t_attempts t)
          | _ => ret tt
          end
      | None => ret tt
      end
  end.

Definition run (l : list Action) : M unit := forEach l step.

End Methods.

Arguments Tick now%_float.
Arguments WsMessage ws%_nat data latency%_float.
Arguments WsClose ws%_nat code%_Z.

(** * Vocabulary of the properties *)

(** ** Aggregation *)

(** The tick of highest confidence, the first one in cache order among
    equals: the primary. *)
Fixpoint highest_confidence (l : list PriceUpdate) : option PriceUpdate :=
  match l with
  | [] => None
  | x :: r =>
      match highest_confidence r with
      | Some y => if confidence x <? confidence y then Some y else Some x
      | None => Some x
      end
  end.

(** The arithmetic mean of the prices, summed in the order of the list. *)
Definition mean_price (l : list PriceUpdate) : number :=
  (reduce_add (map price l) / of_nat (List.length l))%float.

(** The deviation of [p] from [m], as a fraction of [m]. *)
Definition relative_deviation (p m : number) : number :=
  (Math_abs (p - m) / m)%float.

(** ** Scenarios *)

(** The scenarios of the specification: two sources for BTC, both fresh
    at time 3000. *)
Definition tick (sym src : string) (p : number) (conf : Z) : PriceUpdate := {|
  symbol := sym; price := p; timestamp := 1000%float;
  change24h := 2.5%float; volume24h := 10%float;
  source := src; latency := 120%float; confidence := conf
|}.
Arguments tick sym%_string src%_string p%_float conf%_Z.

Definition service_with (cache : JsMap.t PriceUpdate) : Service :=
  set_priceCache cache (set_clock 3000%float initial).

Definition divergent_service : Service :=
  service_with [("BTC_binance", tick "BTC" "binance" 50000 95);
                ("BTC_coinbase", tick "BTC" "coinbase" 60000 90)].

Definition consistent_service : Service :=
  service_with [("BTC_binance", tick "BTC" "binance" 50000 95);
                ("BTC_coinbase", tick "BTC" "coinbase" 50100 90)].

(** ** Scoring *)

(** The base score of the trust rank. *)
Definition trust_base (exchange : string) : Z :=
  if String.eqb exchange "binance" then 95
  else if String.eqb exchange "coinbase" then 90
  else if String.eqb exchange "kraken" then 80
  else 70.

(** The latency adjustment: the band of -5 is above 500 ms and up to
    1000 ms. *)
Definition latency_adjustment (latency : number) : Z :=
  if (latency <? 100)%float then 5
  else if ((500 <? latency) && (latency <=? 1000))%float then -5
  else if (1000 <? latency)%float then -10
  else 0.

Definition clamp (lo hi x : Z) : Z := Z.max lo (Z.min hi x).

(** ** Frames without a usable price *)

Definition binance_frame_without_price : value :=
  VObject [("e", VString "24hrTicker"); ("s", VString "BTCUSDT");
           ("E", VNumber 1000); ("P", VString "2.5"); ("v", VString "10")].

Definition binance_frame_negative_price : value :=
  VObject [("e", VString "24hrTicker"); ("s", VString "BTCUSDT");
           ("c", VString "-5"); ("E", VNumber 1000);
           ("P", VString "2.5"); ("v", VString "10")].

Definition coinbase_frame_bad_price : value :=
  VObject [("type", VString "ticker"); ("product_id", VString "BTC-USD");
           ("price", VString "n/a"); ("time", VString "2024-01-01T00:00:00Z");
           ("open_24h", VString "63414.29"); ("volume_24h", VString "10")].

Definition kraken_frame_without_price : value :=
  VArray [VNumber 42; VObject [("v", VArray [VString "1"; VString "2"])];
          VString "ticker"; VString "XBT/USD"].

(** A subscriber of BTC, an open Binance socket, and the frame without
    a price arriving on it one second after its event time. *)
Definition unpriced_delivery : list Action :=
  [Subscribe ["BTC"]; OnPriceUpdate "BTC" 1; WsOpen 0; Tick 2000;
   WsMessage 0 (Some binance_frame_without_price) 5].

(** ** Registry and record of calls *)

(** The callback list of a symbol, empty when the registry has none. *)
Definition callbacks_of (symbol : string) (s : Service) : list nat :=
  match JsMap.get symbol (priceCallbacks s) with
  | Some callbacks => callbacks
  | None => []
  end.

(** The callback of the call is in the list of its symbol. *)
Definition subscribed (s : Service) (c : PriceCall) : Prop :=
  In (snd (fst c)) (callbacks_of (fst (fst c)) s).

(** From [s] to [s'] no callback was added to a list, and every callback
    invoked in between was in its list in [s]. *)
Record extends (s s' : Service) : Prop := {
  ext_price : forall symbol, incl (callbacks_of symbol s') (callbacks_of symbol s);
  ext_status : incl (statusCallbacks s') (statusCallbacks s);
  ext_priceCalls :
    exists new, priceCalls s' = priceCalls s ++ new /\ Forall (subscribed s) new;
  ext_statusCalls :
    exists new, statusCalls s' = statusCalls s ++ new
                /\ Forall (fun c => In (fst c) (statusCallbacks s)) new
}.

(** A method that registers nothing. *)
Definition quiet {A} (m : M A) : Prop := forall s, extends s (exec m s).

(** The calls that add a callback to the registry. *)
Definition registers (a : Action) : bool :=
  match a with
  | OnPriceUpdate _ _ | OnStatusUpdate _ => true
  | _ => false
  end.

(** ** Shutdown *)

Definition rs_open (w : WebSocket) : bool :=
  match readyState w with WS_OPEN => true | _ => false end.

Definition shutdown_call : Z * string := (1000, "Service shutdown").

(** What the first loop of [disconnect] does to the sockets, one table
    entry at a time. *)
Definition close_open (socks : list WebSocket) (ws : nat) : list WebSocket :=
  match nth_error socks ws with
  | Some w =>
      if rs_open w
      then update_nth ws (close_socket 1000 "Service shutdown") socks
      else socks
  | None => socks
  end.

Definition close_all (ids : list nat) (socks : list WebSocket) : list WebSocket :=
  fold_left close_open ids socks.

Definition clear_all (ids : list nat) (tms : list Timer) : list Timer :=
  fold_left (fun tms t => update_nth t clear_timer tms) ids tms.

(** A socket that is in the connection table and open. *)
Definition registered_open (s : Service) (ws : nat) (w : WebSocket) : bool :=
  (existsb (Nat.eqb ws) (JsMap.values (connections s)) && rs_open w)%bool.

(** [close] was invoked exactly once on every socket the service made. *)
Definition every_socket_closed_once (s : Service) : Prop :=
  Forall (fun w => List.length (closeCalls w) = 1%nat) (sockets s).

(** A host whose callbacks leave the service alone. *)
Definition plain_host : Host := {|
  Date_getTime := fun _ => nan;
  WebSocket_throws := fun _ => None;
  price_callback := fun _ => [];
  status_callback := fun _ => []
|}.

(** A service with an open Binance socket, a connecting Kraken socket
    and a pending reconnect timer for Coinbase. *)
Definition shutdown_scenario : Service :=
  exec (run plain_host [Subscribe ["BTC"]; WsOpen 0; WsClose 1 1006]) initial.

(** ** Unsubscribing *)

(** The list without the first occurrence of [x]. *)
Fixpoint remove_first (x : nat) (l : list nat) : list nat :=
  match l with
  | [] => []
  | y :: r => if Nat.eqb y x then r else y :: remove_first x r
  end.

(** The call that registers [callback] for [symbol]. *)
Definition registers_callback (symbol : string) (callback : nat) (a : Action) : bool :=
  match a with
  | OnPriceUpdate symbol' callback' =>
      (String.eqb symbol' symbol && Nat.eqb callback' callback)%bool
  | _ => false
  end.

(** The call was not made to [callback] out of the list of [symbol]. *)
Definition not_to (symbol : string) (callback : nat) (c : PriceCall) : Prop :=
  fst (fst c) = symbol -> snd (fst c) <> callback.

(** Callback 1 calls, when invoked, the unsubscribe function it was
    given for BTC. *)
Definition self_removing_host : Host := {|
  Date_getTime := fun _ => nan;
  WebSocket_throws := fun _ => None;
  price_callback := fun callback =>
    match callback with
    | 1%nat => [("BTC", 1%nat)]
    | _ => []
    end;
  status_callback := fun _ => []
|}.

(** ** Reconnection *)

(** The delay of the policy for the [n]-th consecutive retry. *)
Definition policy_delay (n : Z) : Z := Z.min (1000 * 2 ^ (n - 1)) 30000.

(** Binance fails three times in a row: each time its socket closes with
    code 1006 and the timer that was set fires. *)
Definition three_failures : list Action :=
  [Subscribe ["BTC"];
   WsClose 0 1006; TimerFires 0;
   WsClose 3 1006; TimerFires 1;
   WsClose 4 1006].

Definition first_attempt (t : Timer) : Prop := t_attempts t = 1 /\ t_delay t = 1000.

Definition timers_first_attempt (s : Service) : Prop := Forall first_attempt (timers s).

(** A method that sets no timer and changes none. *)
Definition sets_no_timer {A} (m : M A) : Prop := forall s, timers (exec m s) = timers s.


(** ** Symbol maps *)

(** The exchange has a native name for the symbol. *)
Definition supports (e : ExchangeConfig) (symbol : string) : bool :=
  match mapping_get symbol (symbolMapping e) with
  | Some _ => true
  | None => false
  end.

(** The names of the members of [Object.prototype].  A symbol map is an
    object literal and inherits them: [symbolMapping[symbol]] is defined
    for these names as well, with a value that is no string. *)
Definition Object_prototype : list string :=
  ["constructor"; "__defineGetter__"; "__defineSetter__"; "hasOwnProperty";
   "__lookupGetter__"; "__lookupSetter__"; "isPrototypeOf";
   "propertyIsEnumerable"; "toString"; "valueOf"; "__proto__";
   "toLocaleString"].

(** No symbol of the list names a member of [Object.prototype]. *)
Definition own_names (symbols : list string) : bool :=
  forallb (fun symbol => negb (existsb (String.eqb symbol) Object_prototype)) symbols.

(** The native names a subscription message lists. *)
Definition listed (m : SubscriptionMessage) : list string :=
  match m with
  | BinanceSubscribe params _ => params
  | CoinbaseSubscribe product_ids => product_ids
  | KrakenSubscribe pairs => pairs
  end.

(** How an adapter spells a native name in its subscription message. *)
Definition spelled (e : ExchangeConfig) (native : string) : string :=
  match adapter e with
  | Binance => (toLowerCase native ++ "@ticker")%string
  | _ => native
  end.

(** No object inside [v] has a field named [toString]. *)
Fixpoint toString_free (v : value) : bool :=
  match v with
  | VArray l => forallb toString_free l
  | VObject fields =>
      (negb (has_field "toString" fields)
       && forallb (fun field => toString_free (snd field)) fields)%bool
  | _ => true
  end.


(** A Binance ticker frame for BTC and the tick it decodes to. *)
Definition priced_binance_frame : value :=
  VObject [("e", VString "24hrTicker"); ("s", VString "BTCUSDT");
           ("c", VString "50000"); ("E", VNumber 1000);
           ("P", VString "2.5"); ("v", VString "10")].

Definition decoded_binance_tick : PriceUpdate := {|
  symbol := "BTC"; price := 50000%float; timestamp := 1000%float;
  change24h := 2.5%float; volume24h := 10%float;
  source := "binance"; latency := zero; confidence := 95
|}.

(** ** Effects of the methods *)

(** The status that [updateConnectionStatus] stores. *)
Definition status_of (exchange : string) (state : ConnectionState) (now latency : number)
    (error : option string) (attempts : Z) : ConnectionStatus :=
  {| exchange := exchange; state := state; lastUpdate := now;
     status_latency := latency; reconnectAttempts := attempts; error := error |}.

(** The service after [update] is stored in the cache and before the
    best price is computed. *)
Definition ingested (update : PriceUpdate) (s : Service) : Service :=
  set_priceCache
    (JsMap.set (symbol update ++ "_" ++ source update)%string update (priceCache s)) s.

(** [s'] differs from [s] in the price registry and in the record of
    price calls at most. *)
Record same_outside_registry (s s' : Service) : Prop := {
  sor_connections : connections s' = connections s;
  sor_connectionStatus : connectionStatus s' = connectionStatus s;
  sor_statusCallbacks : statusCallbacks s' = statusCallbacks s;
  sor_reconnectTimers : reconnectTimers s' = reconnectTimers s;
  sor_priceCache : priceCache s' = priceCache s;
  sor_sockets : sockets s' = sockets s;
  sor_timers : timers s' = timers s;
  sor_clock : clock s' = clock s;
  sor_statusCalls : statusCalls s' = statusCalls s
}.

(** [s'] differs from [s] in the list of status callbacks and in the
    record of status calls at most. *)
Record same_outside_status (s s' : Service) : Prop := {
  sos_connections : connections s' = connections s;
  sos_connectionStatus : connectionStatus s' = connectionStatus s;
  sos_priceCallbacks : priceCallbacks s' = priceCallbacks s;
  sos_reconnectTimers : reconnectTimers s' = reconnectTimers s;
  sos_priceCache : priceCache s' = priceCache s;
  sos_sockets : sockets s' = sockets s;
  sos_timers : timers s' = timers s;
  sos_clock : clock s' = clock s;
  sos_priceCalls : priceCalls s' = priceCalls s
}.

(** The socket [connectToExchange] constructs. *)
Definition connecting (symbols : list string) (e : ExchangeConfig) : WebSocket :=
  {| ws_exchange := e; ws_symbols := symbols; readyState := WS_CONNECTING;
     closeCalls := []; sent := [] |}.

(** The timer [scheduleReconnection] sets after a status update. *)
Definition first_retry (e : ExchangeConfig) (symbols : list string) : Timer :=
  {| t_exchange := e; t_symbols := symbols; t_attempts := 1; t_delay := 1000;
     t_state := Pending |}.

(** A host whose [WebSocket] constructor throws for no configured
    exchange. *)
Definition constructs_sockets (host : Host) : Prop :=
  forall e, In e exchanges -> WebSocket_throws host (url e) = None.

(** The native names of the symbols the exchange has a name for, in the
    order of the request. *)
Definition natives (e : ExchangeConfig) (symbols : list string) : list string :=
  flat_map (fun symbol =>
              match mapping_get symbol (symbolMapping e) with
              | Some native => [native]
              | None => []
              end) symbols.

(** The service after the first socket event of a subscription to BTC. *)
Definition subscribed_to_BTC : Service := exec (subscribe plain_host ["BTC"]) initial.

(** ** Well-formed services *)

Fixpoint no_underscore (s : string) : bool :=
  match s with
  | EmptyString => true
  | String c r => (negb (Ascii.eqb c "_"%char) && no_underscore r)%bool
  end.

(** A tick as [onmessage] hands it to [handlePriceUpdate]. *)
Definition exchange_tick (p : PriceUpdate) : Prop :=
  exists e, In e exchanges /\ source p = name e
            /\ supports e (symbol p) = true
            /\ confidence p = calculateConfidence (name e) (latency p).

Definition cached (entry : string * PriceUpdate) : Prop :=
  fst entry = (symbol (snd entry) ++ "_" ++ source (snd entry))%string
  /\ exchange_tick (snd entry).

(** A call of a price callback registered for a symbol, with a tick of
    that symbol that an exchange or the aggregator produced. *)
Definition deliverable (call : PriceCall) : Prop :=
  symbol (snd call) = fst (fst call)
  /\ (source (snd call) = "aggregated"
      \/ exists e, In e exchanges /\ source (snd call) = name e)
  /\ 70 <= confidence (snd call) <= 100.

Record well_formed (s : Service) : Prop := {
  wf_sockets : Forall (fun w => In (ws_exchange w) exchanges) (sockets s);
  wf_timers : Forall (fun t => In (t_exchange t) exchanges) (timers s);
  wf_cache : Forall cached (priceCache s);
  wf_keys : NoDup (map fst (priceCache s));
  wf_calls : Forall deliverable (priceCalls s)
}.

(** The method keeps the property [P] of the service. *)
Definition preserves {A} (P : Service -> Prop) (m : M A) : Prop :=
  forall s, P s -> P (exec m s).

(** The keys the cache can hold: one for every symbol of every exchange. *)
Definition cache_keys : list string :=
  flat_map (fun e => map (fun entry => (fst entry ++ "_" ++ name e)%string)
                         (symbolMapping e))
           exchanges.

(** A session in which a Binance frame for BTC reaches a subscriber. *)
Definition priced_session : list Action :=
  [Subscribe ["BTC"]; OnPriceUpdate "BTC" 7; WsOpen 0; Tick 2000;
   WsMessage 0 (Some priced_binance_frame) 5].

(** The tick the subscriber of [priced_session] is handed. *)
Definition delivered_binance_tick : PriceUpdate := {|
  symbol := "BTC"; price := 50000%float; timestamp := 1000%float;
  change24h := 2.5%float; volume24h := 10%float;
  source := "binance"; latency := 5%float; confidence := 100
|}.

(** A host whose [WebSocket] constructor throws for every address. *)
Definition offline_host : Host := {|
  Date_getTime := fun _ => nan;
  WebSocket_throws := fun _ => Some "SecurityError";
  price_callback := fun _ => [];
  status_callback := fun _ => []
|}.

(** The status [connectToExchange] stores when the constructor throws. *)
Definition failed_status (e : ExchangeConfig) (now : number) (thrown : string)
  : ConnectionStatus :=
  status_of (name e) ERROR now zero (Some ("Connection failed: " ++ thrown)%string) 0.

(** ** The consumers of the service

    [ui/src/hooks/useEnhancedRealTimePrices.ts] and
    [ui/src/components/WebSocketStatusMonitor.tsx]: the computations of
    the hooks and of the monitor on the values the service hands to its
    callbacks.  React state is what the functions are given and what they
    return. *)

Module Hook.

(** [l.slice(-n)] *)
Definition slice_last {A} (n : nat) (l : list A) : list A :=
  skipn (List.length l - n) l.

(** The latency tracking of the hook's [handlePriceUpdate]: the new
    content of [latencyBuffer.current]. *)
Definition push_latency (buffer : list number) (latency : number) : list number :=
  let buffer := buffer ++ [latency] in
  if Nat.ltb 10 (List.length buffer) then slice_last 10 buffer else buffer.

(** [avgLatency] of [handlePriceUpdate], on the new buffer. *)
Definition avgLatency (buffer : list number) : number :=
  (fold_left (fun a b => a + b) buffer 0 / of_nat (List.length buffer))%float.

Definition is_connected (s : ConnectionStatus) : bool :=
  match state s with CONNECTED => true | _ => false end.

Definition is_error (s : ConnectionStatus) : bool :=
  match state s with ERROR => true | _ => false end.

(** [handleStatusUpdate]: the value given to [setIsWebSocketActive]. *)
Definition hasActiveConnection (statuses : list ConnectionStatus) : bool :=
  existsb is_connected statuses.

(** The state of [useWebSocketHealth]. *)
Record Health := {
  overallStatus : string;
  activeConnections : nat;
  totalConnections : nat;
  averageLatency : number;
  lastUpdate : number
}.

(** [updateHealth]: the value given to [setHealth]; [now] is
    [Date.now()]. *)
Definition updateHealth (now : number) (statuses : list ConnectionStatus) : Health :=
  let connected := filter is_connected statuses in
  let avgLatency :=
    if Nat.ltb 0 (List.length connected)
    then (fold_left (fun sum s => sum + status_latency s) connected 0
          / of_nat (List.length connected))%float
    else 0%float in
  let overallStatus :=
    if (Nat.eqb (List.length connected) (List.length statuses)
        && Nat.ltb 0 (List.length statuses))%bool then "connected"
    else if Nat.ltb 0 (List.length connected) then "partial"
    else if existsb is_error statuses then "error"
    else "disconnected" in
  {| overallStatus := overallStatus;
     activeConnections := List.length connected;
     totalConnections := List.length statuses;
     averageLatency := avgLatency;
     lastUpdate := now |}.

End Hook.

Module Monitor.

(** [overallHealth] of [WebSocketStatusMonitor]. *)
Definition overallHealth (connectionStatuses : list ConnectionStatus) : string :=
  let connectedCount := List.length (filter Hook.is_connected connectionStatuses) in
  let totalCount := List.length connectionStatuses in
  if (Nat.eqb connectedCount totalCount && Nat.ltb 0 totalCount)%bool then "healthy"
  else if Nat.ltb 0 connectedCount then "partial"
  else if existsb Hook.is_error connectionStatuses then "error"
  else "disconnected".

End Monitor.

(** *** Staleness and the life cycle of the hook *)

Module Freshness.

(** [RealTimePrice] of [ui/src/lib/realTimeDataService.ts]. *)
Record RealTimePrice := {
  symbol : string;
  price : number;
  timestamp : number;
  change24h : number;
  volume24h : number
}.

(** [Math.min(...values)]: [Infinity] when there is no value. *)
Definition Math_min_of (values : list number) : number :=
  fold_left Math_min values infinity.

(** [Object.values(prices).map(p => Date.now() - p.timestamp)];
    [Date_now k] is what the call of [Date.now()] for the price of index
    [k] returns. *)
Definition ages (Date_now : nat -> number) (prices : JsMap.t RealTimePrice)
  : list number :=
  map (fun entry => (Date_now (fst entry) - timestamp (snd entry))%float)
      (combine (seq 0 (List.length (JsMap.values prices))) (JsMap.values prices)).

Definition dataFreshness (Date_now : nat -> number) (prices : JsMap.t RealTimePrice)
  : number :=
  Math_min_of (ages Date_now prices).

Definition isStale (Date_now : nat -> number) (prices : JsMap.t RealTimePrice)
    (maxStaleness : number) : bool :=
  (maxStaleness <? dataFreshness Date_now prices)%float.

(** The [error] the hook returns; [error] is the state of that name. *)
Definition reported_error (Date_now : nat -> number) (prices : JsMap.t RealTimePrice)
    (maxStaleness : number) (error : option string) : option string :=
  if isStale Date_now prices maxStaleness then Some "Price data is stale" else error.

End Freshness.

Module Lifecycle.

(** The calls [startWebSocketConnections] makes on the service, the two
    callbacks being the hook's [handlePriceUpdate] and
    [handleStatusUpdate]. *)
Definition startWebSocketConnections (host : Host) (symbols : list string)
    (handlePriceUpdate handleStatusUpdate : nat) : M unit :=
  forEach symbols (fun symbol => onPriceUpdate symbol handlePriceUpdate) ;;
  onStatusUpdate host handleStatusUpdate ;;
  subscribe host symbols.

(** The calls the cleanup of the main effect makes on the service once
    [startWebSocketConnections] has stored the functions it collected:
    the unsubscribe function of every symbol, that of the status
    callback, and the function [subscribe] returned, which is
    [disconnect]. *)
Definition cleanup (symbols : list string)
    (handlePriceUpdate handleStatusUpdate : nat) : M unit :=
  forEach symbols (fun symbol => unsubscribe symbol handlePriceUpdate) ;;
  unsubscribeStatus handleStatusUpdate ;;
  disconnect.

End Lifecycle.

(** Two consumers of the one service: the first follows BTC with the
    callbacks 1 and 2, the second ETH with the callbacks 3 and 4. *)
Definition two_consumers : Service :=
  exec (Lifecycle.startWebSocketConnections plain_host ["BTC"] 1 2 ;;
        Lifecycle.startWebSocketConnections plain_host ["ETH"] 3 4) initial.

(** A Binance ticker frame for ETH. *)
Definition eth_binance_frame : value :=
  VObject [("e", VString "24hrTicker"); ("s", VString "ETHUSDT");
           ("c", VString "3000"); ("E", VNumber 1000);
           ("P", VString "1.5"); ("v", VString "20")].

(** What the host does after the first consumer is gone: the sockets of
    the first subscription open and Binance sends a frame for ETH. *)
Definition later_events : list Action :=
  [WsOpen 0; WsOpen 3; Tick 2000;
   WsMessage 3 (Some eth_binance_frame) 5;
   WsMessage 0 (Some eth_binance_frame) 5].

(** The service once the Binance socket of a subscription to BTC is
    open. *)
Definition open_for_BTC : Service :=
  exec (run plain_host [Subscribe ["BTC"]; WsOpen 0]) initial.

(** ** Further scenarios *)

(** A host that reads every date as one second after the epoch. *)
Definition dated_host : Host := {|
  Date_getTime := fun _ => 1000%float;
  WebSocket_throws := fun _ => None;
  price_callback := fun _ => [];
  status_callback := fun _ => []
|}.

Definition coinbase_frame_50000 : value :=
  VObject [("type", VString "ticker"); ("product_id", VString "BTC-USD");
           ("price", VString "50000"); ("time", VString "1970-01-01T00:00:01Z");
           ("open_24h", VString "49000"); ("volume_24h", VString "10")].

Definition binance_frame_far_below_zero : value :=
  VObject [("e", VString "24hrTicker"); ("s", VString "BTCUSDT");
           ("c", VString "-1000000"); ("E", VNumber 1000);
           ("P", VString "2.5"); ("v", VString "10")].

(** A subscriber of BTC; Coinbase reports 50000 and Binance, the source
    of higher confidence, a price far below zero. *)
Definition negative_outlier_session : list Action :=
  [Subscribe ["BTC"]; OnPriceUpdate "BTC" 1; WsOpen 0; WsOpen 1; Tick 2000;
   WsMessage 1 (Some coinbase_frame_50000) 5;
   WsMessage 0 (Some binance_frame_far_below_zero) 5].

(** The tick that [onmessage] makes of the Binance frame. *)
Definition negative_outlier : PriceUpdate := {|
  symbol := "BTC"; price := (-1000000)%float; timestamp := 1000%float;
  change24h := 2.5%float; volume24h := 10%float;
  source := "binance"; latency := 5%float; confidence := 100
|}.

(** Two subscriptions to BTC, of which the first Binance socket and the
    second one open and both Coinbase sockets fail, before the service
    is shut down. *)
Definition overlapping_subscriptions : list Action :=
  [Subscribe ["BTC"]; Subscribe ["BTC"]; WsOpen 0; WsOpen 3;
   WsClose 1 1006; WsClose 4 1006; Disconnect].

(** Callbacks 7 and 8 follow BTC and the Binance socket is open. *)
Definition two_subscribers : Service :=
  exec (run plain_host
          [Subscribe ["BTC"]; OnPriceUpdate "BTC" 7; OnPriceUpdate "BTC" 8; WsOpen 0])
       initial.

(** A Binance tick for BTC arrives one second after its event time. *)
Definition binance_tick_arrives : list Action :=
  [Tick 2000; WsMessage 0 (Some priced_binance_frame) 5].

(** * Properties *)

(** ** Order on binary64 values *)

Section FloatOrder.

Local Open Scope float_scope.

Lemma SFcompare_antisym x y :
  SFcompare y x = option_map CompOpp (SFcompare x y).
Proof.
  destruct x as [sx|sx| |sx mx ex], y as [sy|sy| |sy my ey]; simpl;
    try reflexivity;
    try (destruct sx; reflexivity); try (destruct sy; reflexivity);
    try (destruct sx, sy; reflexivity).
  destruct sx, sy; simpl; try reflexivity;
    rewrite (Z.compare_antisym ex ey);
    destruct (ex ?= ey)%Z eqn:E; simpl; try reflexivity;
    rewrite (Pos.compare_cont_antisym mx my Eq); simpl;
    destruct (Pos.compare_cont Eq mx my); reflexivity.
Qed.

Lemma SFcompare_none x y :
  SFcompare x y = None -> x = S754_nan \/ y = S754_nan.
Proof.
  destruct x, y; simpl; intros H; try discriminate; auto.
Qed.


Lemma ltb_not_leb (a b : float) : (a <? b) = true -> (b <=? a) = false.
Proof.
  rewrite leb_spec, ltb_spec. unfold SFleb, SFltb.
  rewrite (SFcompare_antisym (Prim2SF a) (Prim2SF b)).
  destruct (SFcompare (Prim2SF a) (Prim2SF b)) as [[]|]; simpl; congruence.
Qed.

(** Two values that are not NaN are comparable. *)
Lemma not_ltb_leb (a b c : float) :
  (a <? b) = true -> Prim2SF c <> S754_nan ->
  (c <? b) = false -> (b <=? c) = true.
Proof.
  rewrite leb_spec, !ltb_spec. unfold SFleb, SFltb. intros Hab Hc.
  rewrite (SFcompare_antisym (Prim2SF c) (Prim2SF b)).
  destruct (SFcompare (Prim2SF c) (Prim2SF b)) as [[]|] eqn:E; simpl;
    try congruence.
  apply SFcompare_none in E. destruct E as [E|E]; [contradiction|].
  rewrite E in Hab. destruct (Prim2SF a); discriminate.
Qed.

End FloatOrder.

(** ** Sorting *)

Section SortFacts.
Context {A : Type}.
Variable cmp : A -> A -> Z.

Lemma insert_length x l : List.length (insert cmp x l) = S (List.length l).
Proof.
  induction l as [|y r IH]; simpl; [reflexivity|].
  destruct (0 <? cmp x y); simpl; [rewrite IH|]; reflexivity.
Qed.

Lemma sort_length l : List.length (sort cmp l) = List.length l.
Proof.
  induction l as [|x r IH]; [reflexivity|].
  change (sort cmp (x :: r)) with (insert cmp x (sort cmp r)).
  rewrite insert_length, IH. reflexivity.
Qed.

Lemma insert_Permutation x l : Permutation (insert cmp x l) (x :: l).
Proof.
  induction l as [|y r IH]; simpl; [apply Permutation_refl|].
  destruct (0 <? cmp x y); [|apply Permutation_refl].
  eapply Permutation_trans; [apply perm_skip, IH|apply perm_swap].
Qed.

(** The sorted array holds the elements of the array, each as often. *)
Lemma sort_Permutation l : Permutation (sort cmp l) l.
Proof.
  induction l as [|x r IH]; [apply Permutation_refl|].
  change (sort cmp (x :: r)) with (insert cmp x (sort cmp r)).
  eapply Permutation_trans; [apply insert_Permutation|apply perm_skip, IH].
Qed.

Lemma insert_head x l :
  hd_error (insert cmp x l) =
  match l with
  | [] => Some x
  | y :: _ => if 0 <? cmp x y then Some y else Some x
  end.
Proof.
  destruct l as [|y r]; simpl; [reflexivity|].
  destruct (0 <? cmp x y); reflexivity.
Qed.
End SortFacts.

(** ** Aggregator *)

Lemma sort_head_highest l :
  hd_error (sort by_confidence l) = highest_confidence l.
Proof.
  induction l as [|x r IH]; [reflexivity|].
  change (sort by_confidence (x :: r)) with (insert by_confidence x (sort by_confidence r)).
  rewrite insert_head. simpl.
  rewrite <- IH. destruct (sort by_confidence r) as [|y r']; simpl; [reflexivity|].
  unfold by_confidence.
  replace (0 <? confidence y - confidence x) with (confidence x <? confidence y)
    by (destruct (Z.ltb_spec (confidence x) (confidence y)),
                 (Z.ltb_spec 0 (confidence y - confidence x)); lia || reflexivity).
  reflexivity.
Qed.

Lemma highest_confidence_max l p :
  highest_confidence l = Some p ->
  In p l /\ forall u, In u l -> confidence u <= confidence p.
Proof.
  revert p. induction l as [|x r IH]; simpl; intros p H; [discriminate|].
  destruct (highest_confidence r) as [y|] eqn:E.
  - destruct (IH y eq_refl) as [Hin Hmax].
    destruct (Z.ltb_spec (confidence x) (confidence y)); inversion H; subst.
    + split; [auto|]. intros u [->|Hu]; [lia|auto].
    + split; [auto|]. intros u [->|Hu]; [lia|]. specialize (Hmax u Hu). lia.
  - inversion H; subst. destruct r; [|simpl in E; destruct (highest_confidence r);
      [destruct (_ <? _)|]; discriminate].
    split; [auto|]. intros u [->|[]]. lia.
Qed.

Lemma collect_In symbol now cache u :
  In u (collect symbol now cache) <->
  exists key, In (key, u) cache
              /\ starts_with (symbol ++ "_")%string key = true
              /\ is_fresh now u = true.
Proof.
  unfold collect, JsMap.entries. rewrite in_map_iff. split.
  - intros [[key u'] [Hu Hin]]. simpl in Hu. subst u'.
    apply filter_In in Hin. destruct Hin as [Hin Hb]. simpl in Hb.
    apply andb_true_iff in Hb. exists key. tauto.
  - intros [key [Hin [Hk Hf]]]. exists (key, u). split; [reflexivity|].
    apply filter_In. split; [assumption|]. simpl. now rewrite Hk, Hf.
Qed.

(** What [fuse] returns once the primary is known. *)
Lemma fuse_primary sources primary :
  highest_confidence sources = Some primary ->
  fuse sources =
  if Nat.ltb 1 (List.length sources) then
    if (0.005 <? relative_deviation (price primary)
                   (mean_price (sort by_confidence sources)))%float
    then Some {|
           symbol := symbol primary;
           price := mean_price (sort by_confidence sources);
           timestamp := timestamp primary;
           change24h := change24h primary;
           volume24h := volume24h primary;
           source := "aggregated";
           latency := latency primary;
           confidence := Z.min 95 (confidence primary + 10)
         |}
    else Some primary
  else Some primary.
Proof.
  intros H. unfold fuse.
  destruct sources as [|x r]; [discriminate|].
  change (Nat.eqb (List.length (x :: r)) 0) with false. cbv iota.
  rewrite <- sort_head_highest in H.
  pose proof (sort_length by_confidence (x :: r)) as Hlen.
  cbv zeta.
  destruct (sort by_confidence (x :: r)) as [|p rest] eqn:E; [discriminate|].
  inversion H; subst p.
  rewrite Hlen. unfold mean_price, relative_deviation.
  rewrite length_map, Hlen. reflexivity.
Qed.

(** The divergence branch: with at least two fresh ticks for the
    symbol, when the quotient of the distance between the primary's
    price and the mean of the fresh prices by that mean is above 0.005,
    [aggregatePriceData] returns a tick whose price is the mean, whose
    source is ["aggregated"] and whose confidence is
    [min(95, primary.confidence + 10)]. *)
Theorem aggregate_divergent symbol s primary :
  let fresh := collect symbol (clock s) (priceCache s) in
  let mean := mean_price (sort by_confidence fresh) in
  (2 <= List.length fresh)%nat ->
  highest_confidence fresh = Some primary ->
  (0.005 <? relative_deviation (price primary) mean)%float = true ->
  exists r,
    eval (aggregatePriceData symbol) s = Some r
    /\ price r = mean
    /\ source r = "aggregated"
    /\ confidence r = Z.min 95 (confidence primary + 10).
Proof.
  intros fresh mean Hlen Hp Hdev.
  unfold eval, aggregatePriceData, mbind, gets, ret. simpl.
  fold fresh. rewrite (fuse_primary _ _ Hp).
  destruct (Nat.ltb_spec 1 (List.length fresh)) as [_|Hlt]; [|lia].
  fold mean. rewrite Hdev.
  eexists. split; [reflexivity|]. simpl. auto.
Qed.

(** C2: with at least two fresh ticks for the symbol, when the primary's
    deviation from the mean does not exceed the 0.5% threshold,
    [aggregatePriceData] returns the primary itself: its price, source
    and confidence are the source's own. *)
Theorem aggregate_consistent symbol s primary :
  let fresh := collect symbol (clock s) (priceCache s) in
  let mean := mean_price (sort by_confidence fresh) in
  (2 <= List.length fresh)%nat ->
  highest_confidence fresh = Some primary ->
  (0.005 <? relative_deviation (price primary) mean)%float = false ->
  eval (aggregatePriceData symbol) s = Some primary.
Proof.
  intros fresh mean Hlen Hp Hdev.
  unfold eval, aggregatePriceData, mbind, gets, ret. simpl.
  fold fresh. rewrite (fuse_primary _ _ Hp).
  destruct (Nat.ltb 1 (List.length fresh)); [|reflexivity].
  fold mean. rewrite Hdev. reflexivity.
Qed.

(** C10: the tick synthesized in the divergence branch takes its symbol,
    timestamp, 24h change, 24h volume and latency from the primary,
    whatever the other sources hold. *)
Theorem aggregated_frame sym s primary :
  let fresh := collect sym (clock s) (priceCache s) in
  let mean := mean_price (sort by_confidence fresh) in
  (2 <= List.length fresh)%nat ->
  highest_confidence fresh = Some primary ->
  (0.005 <? relative_deviation (price primary) mean)%float = true ->
  exists r,
    eval (aggregatePriceData sym) s = Some r
    /\ source r = "aggregated"
    /\ symbol r = symbol primary
    /\ timestamp r = timestamp primary
    /\ change24h r = change24h primary
    /\ volume24h r = volume24h primary
    /\ latency r = latency primary.
Proof.
  intros fresh mean Hlen Hp Hdev.
  unfold eval, aggregatePriceData, mbind, gets, ret. simpl.
  fold fresh. rewrite (fuse_primary _ _ Hp).
  destruct (Nat.ltb_spec 1 (List.length fresh)) as [_|Hlt]; [|lia].
  fold mean. rewrite Hdev.
  eexists. split; [reflexivity|]. simpl. repeat split; reflexivity.
Qed.

Lemma aggregate_divergent_witness :
  exists r,
    eval (aggregatePriceData "BTC") divergent_service = Some r
    /\ price r = 55000%float
    /\ source r = "aggregated"
    /\ confidence r = 95.
Proof.
  apply (aggregate_divergent "BTC" divergent_service (tick "BTC" "binance" 50000 95)).
  - vm_compute. apply le_n.
  - vm_compute. reflexivity.
  - vm_compute. reflexivity.
Defined.

(** C1, on the code: the deviation is divided by the mean itself, not by
    its magnitude, so that with a mean below zero the quotient is never
    above 0.005.  Coinbase reports 50000 for BTC and Binance, the source
    of higher confidence, -1000000: both ticks are fresh, their mean is
    -475000 and the primary is 525000 away from it, which is more than
    0.5% of the mean (2375), and [aggregatePriceData] returns the
    primary as it is, which the subscriber is handed.  The same two
    sources with 1000000 in the place of -1000000 give the mean. *)
Theorem aggregate_keeps_outlier_below_zero :
  let s := exec (run dated_host negative_outlier_session) initial in
  let fresh := collect "BTC" (clock s) (priceCache s) in
  map price fresh = [50000; -1000000]%float
  /\ highest_confidence fresh = Some negative_outlier
  /\ mean_price (sort by_confidence fresh) = (-475000)%float
  /\ Math_abs (price negative_outlier - mean_price (sort by_confidence fresh))%float
     = 525000%float
  /\ eval (aggregatePriceData "BTC") s = Some negative_outlier
  /\ last (priceCalls s) ("", 0%nat, negative_outlier) = ("BTC", 1%nat, negative_outlier)
  /\ option_map (fun r => (price r, source r))
       (fuse [tick "BTC" "binance" 1000000 100; tick "BTC" "coinbase" 50000 95])
     = Some (525000%float, "aggregated").
Proof.
  repeat split; vm_compute; reflexivity.
Qed.

Lemma aggregate_consistent_witness :
  eval (aggregatePriceData "BTC") consistent_service
  = Some (tick "BTC" "binance" 50000 95).
Proof.
  apply (aggregate_consistent "BTC" consistent_service (tick "BTC" "binance" 50000 95)).
  - vm_compute. apply le_n.
  - vm_compute. reflexivity.
  - vm_compute. reflexivity.
Defined.

Lemma aggregated_frame_witness :
  exists r,
    eval (aggregatePriceData "BTC") divergent_service = Some r
    /\ source r = "aggregated"
    /\ symbol r = "BTC"
    /\ timestamp r = 1000%float
    /\ change24h r = 2.5%float
    /\ volume24h r = 10%float
    /\ latency r = 120%float.
Proof.
  apply (aggregated_frame "BTC" divergent_service (tick "BTC" "binance" 50000 95)).
  - vm_compute. apply le_n.
  - vm_compute. reflexivity.
  - vm_compute. reflexivity.
Defined.


(** ** Confidence scorer *)

(** C9: the score is the base score of the exchange plus the latency
    adjustment, clamped to [10, 100]; it is a function of the exchange
    name and the latency alone. *)
Theorem calculateConfidence_spec exchange latency :
  calculateConfidence exchange latency
  = clamp 10 100 (trust_base exchange + latency_adjustment latency)
  /\ 10 <= calculateConfidence exchange latency <= 100.
Proof.
  split; [|unfold calculateConfidence; lia].
  unfold calculateConfidence, trust_base, latency_adjustment, clamp.
  destruct (latency <? 100)%float eqn:H100; [reflexivity|].
  destruct (1000 <? latency)%float eqn:H1000.
  - rewrite (ltb_not_leb _ _ H1000), andb_false_r. reflexivity.
  - destruct (500 <? latency)%float eqn:H500; simpl.
    + rewrite (not_ltb_leb 500 latency 1000 H500); [reflexivity| |assumption].
      vm_compute. discriminate.
    + f_equal. f_equal. lia.
Qed.

(** ** Message normalizers *)

(** C3, on the code: a Binance ticker frame without the price field [c]
    is decoded to a tick whose price is NaN, one with the price ["-5"] to
    a tick of price -5, a Coinbase frame with a price that is no number
    to a tick of price NaN, and a Kraken frame without [c] to a tick of
    price 0; none of them is dropped, and the tick of price NaN is
    cached and handed to the subscriber. *)
Theorem decoders_forward_unpriced_frames :
  (exists t, parseBinanceMessage binance_frame_without_price = Normal (Some t)
             /\ price t = nan)
  /\ (exists t, parseBinanceMessage binance_frame_negative_price = Normal (Some t)
                /\ price t = (-5)%float)
  /\ (forall getTime,
        exists t, parseCoinbaseMessage getTime coinbase_frame_bad_price = Normal (Some t)
                  /\ price t = nan)
  /\ (forall now,
        exists t, parseKrakenMessage now kraken_frame_without_price = Normal (Some t)
                  /\ price t = zero)
  /\ (let s := exec (run plain_host unpriced_delivery) initial in
      map (fun entry => (fst entry, price (snd entry))) (priceCache s)
      = [("BTC_binance", nan)]
      /\ map (fun c => (snd (fst c), price (snd c))) (priceCalls s) = [(1%nat, nan)]).
Proof.
  split; [|split; [|split; [|split]]].
  - eexists. split; [vm_compute; reflexivity|reflexivity].
  - eexists. split; [vm_compute; reflexivity|reflexivity].
  - intros getTime. eexists. split; [reflexivity|vm_compute; reflexivity].
  - intros now. eexists. split; [reflexivity|vm_compute; reflexivity].
  - split; vm_compute; reflexivity.
Qed.

(** ** Insertion-ordered maps *)

Lemma get_set_same {V} k (v : V) m : JsMap.get k (JsMap.set k v m) = Some v.
Proof.
  induction m as [|[k' v'] r IH]; simpl.
  - now rewrite String.eqb_refl.
  - destruct (String.eqb k k') eqn:E; simpl; rewrite ?String.eqb_refl, ?E; auto.
Qed.

Lemma get_set_other {V} k k' (v : V) m :
  k' <> k -> JsMap.get k' (JsMap.set k v m) = JsMap.get k' m.
Proof.
  intros Hk. induction m as [|[k0 v0] r IH]; simpl.
  - destruct (String.eqb_spec k' k); [contradiction|reflexivity].
  - destruct (String.eqb_spec k k0); simpl.
    + subst k0. destruct (String.eqb_spec k' k); [contradiction|reflexivity].
    + destruct (String.eqb k' k0); auto.
Qed.

(** ** Running methods *)

Lemma exec_bind {A B} (m : M A) (k : A -> M B) s :
  exec (mbind m k) s = exec (k (eval m s)) (exec m s).
Proof. unfold exec, eval, mbind. destruct (m s). reflexivity. Qed.

Lemma exec_gets {A} (f : Service -> A) s : exec (gets f) s = s.
Proof. reflexivity. Qed.

Lemma eval_gets {A} (f : Service -> A) s : eval (gets f) s = f s.
Proof. reflexivity. Qed.

Lemma exec_modify f s : exec (modify f) s = f s.
Proof. reflexivity. Qed.

Lemma exec_ret {A} (a : A) s : exec (ret a) s = s.
Proof. reflexivity. Qed.

Lemma exec_forEach_cons {A} (x : A) r f s :
  exec (forEach (x :: r) f) s = exec (forEach r f) (exec (f x) s).
Proof. simpl. now rewrite exec_bind. Qed.

(** ** The registry hands ticks to its subscribers only *)

Lemma extends_refl s : extends s s.
Proof.
  split; try apply incl_refl; try (intros; apply incl_refl);
    exists []; rewrite app_nil_r; auto.
Qed.

Lemma extends_trans s1 s2 s3 : extends s1 s2 -> extends s2 s3 -> extends s1 s3.
Proof.
  intros [P1 S1 [n1 [E1 F1]] [m1 [G1 H1]]] [P2 S2 [n2 [E2 F2]] [m2 [G2 H2]]].
  split.
  - intros symbol. eapply incl_tran; [apply P2|apply P1].
  - eapply incl_tran; eassumption.
  - exists (n1 ++ n2). split; [rewrite E2, E1, app_assoc; reflexivity|].
    apply Forall_app. split; [assumption|].
    eapply Forall_impl; [|exact F2]. intros c Hc. apply P1, Hc.
  - exists (m1 ++ m2). split; [rewrite G2, G1, app_assoc; reflexivity|].
    apply Forall_app. split; [assumption|].
    eapply Forall_impl; [|exact H2]. intros c Hc. apply S1, Hc.
Qed.

Lemma quiet_ret {A} (a : A) : quiet (ret a).
Proof. intros s. apply extends_refl. Qed.

Lemma quiet_gets {A} (f : Service -> A) : quiet (gets f).
Proof. intros s. apply extends_refl. Qed.

Lemma quiet_bind {A B} (m : M A) (k : A -> M B) :
  quiet m -> (forall a, quiet (k a)) -> quiet (mbind m k).
Proof.
  intros Hm Hk s. rewrite exec_bind. eapply extends_trans; [apply Hm|apply Hk].
Qed.

Lemma quiet_forEach {A} (l : list A) (f : A -> M unit) :
  (forall x, quiet (f x)) -> quiet (forEach l f).
Proof.
  intros Hf. induction l as [|x r IH]; simpl; [apply quiet_ret|].
  apply quiet_bind; auto.
Qed.

(** A change of the service that leaves the registry and the record of
    calls alone. *)
Lemma quiet_modify f :
  (forall s, priceCallbacks (f s) = priceCallbacks s
             /\ statusCallbacks (f s) = statusCallbacks s
             /\ priceCalls (f s) = priceCalls s
             /\ statusCalls (f s) = statusCalls s) ->
  quiet (modify f).
Proof.
  intros H s. rewrite exec_modify. destruct (H s) as [H1 [H2 [H3 H4]]].
  split.
  - intros symbol. unfold callbacks_of. rewrite H1. apply incl_refl.
  - rewrite H2. apply incl_refl.
  - exists []. rewrite app_nil_r. auto.
  - exists []. rewrite app_nil_r. auto.
Qed.

Lemma splice1_incl {A} i (l : list A) : incl (splice1 i l) l.
Proof.
  revert i. induction l as [|x r IH]; intros [|i]; simpl; try apply incl_refl.
  - apply incl_tl, incl_refl.
  - apply incl_cons; [left; reflexivity|]. apply incl_tl, IH.
Qed.

Lemma callbacks_of_set symbol l s symbol' :
  callbacks_of symbol' (set_priceCallbacks (JsMap.set symbol l (priceCallbacks s)) s)
  = if String.eqb symbol' symbol then l else callbacks_of symbol' s.
Proof.
  unfold callbacks_of. simpl. destruct (String.eqb_spec symbol' symbol).
  - subst. now rewrite get_set_same.
  - now rewrite get_set_other.
Qed.

Lemma quiet_unsubscribe symbol callback : quiet (unsubscribe symbol callback).
Proof.
  intros s. unfold unsubscribe. rewrite exec_modify.
  destruct (JsMap.get symbol (priceCallbacks s)) as [callbacks|] eqn:E;
    [|apply extends_refl].
  destruct (indexOf callback callbacks) as [index|]; [|apply extends_refl].
  split; simpl; try apply incl_refl;
    try (exists []; rewrite app_nil_r; split; auto).
  intros symbol'. rewrite callbacks_of_set.
  destruct (String.eqb_spec symbol' symbol); [|apply incl_refl].
  subst. unfold callbacks_of. rewrite E. apply splice1_incl.
Qed.

Lemma quiet_unsubscribeStatus callback : quiet (unsubscribeStatus callback).
Proof.
  intros s. unfold unsubscribeStatus. rewrite exec_modify.
  destruct (indexOf callback (statusCallbacks s)) as [index|]; [|apply extends_refl].
  split; simpl; try (intros; apply incl_refl);
    try (exists []; rewrite app_nil_r; split; auto).
  apply splice1_incl.
Qed.

Lemma aggregatePriceData_exec symbol s : exec (aggregatePriceData symbol) s = s.
Proof. reflexivity. Qed.

Lemma quiet_aggregatePriceData symbol : quiet (aggregatePriceData symbol).
Proof. intros s. rewrite aggregatePriceData_exec. apply extends_refl. Qed.

Ltac quiet_frame :=
  apply quiet_modify; intros; simpl; repeat split; reflexivity.

Ltac quiet_steps :=
  repeat first
    [ apply quiet_ret
    | apply quiet_gets
    | apply quiet_aggregatePriceData
    | apply quiet_unsubscribe
    | apply quiet_unsubscribeStatus
    | quiet_frame
    | apply quiet_bind; [|intros]
    | apply quiet_forEach; intros ].

Section Quiet.
Variable host : Host.

Lemma quiet_call_status callback statuses s :
  In callback (statusCallbacks s) ->
  extends s (exec (call_status_callback host callback statuses) s).
Proof.
  intros Hin. unfold call_status_callback. rewrite exec_bind, exec_modify.
  eapply extends_trans;
    [|apply quiet_forEach; intros; apply quiet_unsubscribeStatus].
  split; simpl; try (intros; apply incl_refl).
  - exists []. rewrite app_nil_r. auto.
  - exists [(callback, statuses)]. split; [reflexivity|].
    constructor; [exact Hin|constructor].
Qed.

Lemma quiet_notify len k statuses : quiet (notify host len k statuses).
Proof.
  revert k. induction len as [|len IH]; intros k s; [apply extends_refl|].
  simpl notify. rewrite exec_bind, exec_gets, eval_gets, exec_bind.
  eapply extends_trans; [|apply IH].
  destruct (nth_error _ k) as [callback|] eqn:E; [|apply extends_refl].
  apply quiet_call_status. apply nth_error_In in E. exact E.
Qed.

Lemma quiet_updateConnectionStatus exchange state latency error attempts :
  quiet (updateConnectionStatus host exchange state latency error attempts).
Proof.
  unfold updateConnectionStatus.
  apply quiet_bind; [apply quiet_gets|]. intros now.
  apply quiet_bind; [quiet_frame|]. intros _.
  apply quiet_bind; [apply quiet_gets|]. intros allStatuses.
  apply quiet_bind; [apply quiet_gets|]. intros callbacks.
  apply quiet_notify.
Qed.

Lemma quiet_call symbol callback p s :
  In callback (callbacks_of symbol s) ->
  extends s (exec (call_price_callback host symbol callback p) s).
Proof.
  intros Hin. unfold call_price_callback. rewrite exec_bind, exec_modify.
  eapply extends_trans; [|apply quiet_forEach; intros; apply quiet_unsubscribe].
  split; simpl; try (intros; apply incl_refl).
  - exists [(symbol, callback, p)]. split; [reflexivity|].
    constructor; [exact Hin|constructor].
  - exists []. rewrite app_nil_r. auto.
Qed.

Lemma quiet_deliver len k symbol p : quiet (deliver host len k symbol p).
Proof.
  revert k. induction len as [|len IH]; intros k s; [apply extends_refl|].
  simpl deliver. rewrite exec_bind, exec_gets, eval_gets, exec_bind.
  eapply extends_trans; [|apply IH].
  destruct (nth_error _ k) as [callback|] eqn:E; [|apply extends_refl].
  apply quiet_call. apply nth_error_In in E. exact E.
Qed.

Lemma quiet_handlePriceUpdate update : quiet (handlePriceUpdate host update).
Proof.
  unfold handlePriceUpdate.
  apply quiet_bind; [quiet_frame|]. intros _.
  apply quiet_bind; [apply quiet_gets|]. intros callbacks.
  apply quiet_bind; [apply quiet_aggregatePriceData|]. intros bestPrice.
  destruct bestPrice as [bestPrice|]; [destruct callbacks as [callbacks|]|];
    try apply quiet_ret.
  apply quiet_deliver.
Qed.

Lemma quiet_scheduleReconnection exchange symbols :
  quiet (scheduleReconnection exchange symbols).
Proof. unfold scheduleReconnection. quiet_steps. Qed.

Lemma quiet_connectToExchange exchange symbols :
  quiet (connectToExchange host exchange symbols).
Proof.
  unfold connectToExchange. apply quiet_bind; [apply quiet_updateConnectionStatus|].
  intros _. destruct (WebSocket_throws host (url exchange)) as [thrown|].
  - apply quiet_bind; [apply quiet_updateConnectionStatus|].
    intros _. apply quiet_scheduleReconnection.
  - quiet_steps.
Qed.

Lemma quiet_subscribe symbols : quiet (subscribe host symbols).
Proof.
  unfold subscribe. apply quiet_forEach. intros. apply quiet_connectToExchange.
Qed.

Lemma quiet_onopen ws exchange symbols : quiet (onopen host ws exchange symbols).
Proof.
  unfold onopen. apply quiet_bind; [apply quiet_updateConnectionStatus|].
  intros _. destruct (Nat.ltb 0 _); [|apply quiet_ret].
  unfold ws_send. quiet_steps.
Qed.

Lemma quiet_onmessage exchange data latency :
  quiet (onmessage host exchange data latency).
Proof.
  unfold onmessage. destruct data as [data|]; [|apply quiet_ret].
  apply quiet_bind; [apply quiet_gets|]. intros now.
  destruct (messageParser _ _ _ _) as [[priceUpdate|]|]; try apply quiet_ret.
  apply quiet_bind; [apply quiet_handlePriceUpdate|].
  intros _. apply quiet_updateConnectionStatus.
Qed.

Lemma quiet_onerror exchange description : quiet (onerror host exchange description).
Proof. unfold onerror. apply quiet_updateConnectionStatus. Qed.

Lemma quiet_onclose exchange symbols code : quiet (onclose host exchange symbols code).
Proof.
  unfold onclose. apply quiet_bind; [apply quiet_updateConnectionStatus|].
  intros _. destruct (negb _); [apply quiet_scheduleReconnection|apply quiet_ret].
Qed.

Lemma quiet_reconnect exchange symbols attempts :
  quiet (reconnect host exchange symbols attempts).
Proof.
  unfold reconnect. apply quiet_bind; [apply quiet_updateConnectionStatus|].
  intros _. apply quiet_connectToExchange.
Qed.

Lemma quiet_disconnect : quiet disconnect.
Proof.
  unfold disconnect.
  apply quiet_bind; [apply quiet_gets|]. intros conns.
  apply quiet_bind.
  { apply quiet_forEach. intros ws. apply quiet_bind; [apply quiet_gets|].
    intros [|]; [unfold ws_close; quiet_frame|apply quiet_ret]. }
  intros _. apply quiet_bind; [apply quiet_gets|]. intros tms.
  apply quiet_bind.
  { apply quiet_forEach. intros t. unfold clearTimeout. quiet_frame. }
  intros _ s. rewrite exec_modify.
  split; simpl; try (intros symbol; unfold callbacks_of; simpl);
    try apply incl_nil_l; exists []; rewrite app_nil_r; auto.
Qed.

Lemma quiet_step a : registers a = false -> quiet (step host a).
Proof.
  destruct a; simpl; intros H; try discriminate.
  - apply quiet_subscribe.
  - apply quiet_unsubscribe.
  - apply quiet_unsubscribeStatus.
  - apply quiet_disconnect.
  - quiet_frame.
  - apply quiet_bind; [apply quiet_gets|]. intros [w|]; [|apply quiet_ret].
    destruct (readyState w); try apply quiet_ret.
    apply quiet_bind; [quiet_frame|]. intros _. apply quiet_onopen.
  - apply quiet_bind; [apply quiet_gets|]. intros [w|]; [|apply quiet_ret].
    destruct (readyState w); try apply quiet_ret; apply quiet_onmessage.
  - apply quiet_bind; [apply quiet_gets|]. intros [w|]; [|apply quiet_ret].
    destruct (readyState w); try apply quiet_ret; apply quiet_onerror.
  - apply quiet_bind; [apply quiet_gets|]. intros [w|]; [|apply quiet_ret].
    destruct (readyState w); try apply quiet_ret;
      (apply quiet_bind; [quiet_frame|]; intros _; apply quiet_onclose).
  - apply quiet_bind; [apply quiet_gets|]. intros [t|]; [|apply quiet_ret].
    destruct (t_state t); try apply quiet_ret.
    apply quiet_bind; [quiet_frame|]. intros _. apply quiet_reconnect.
Qed.

Lemma quiet_run tr : forallb (fun a => negb (registers a)) tr = true -> quiet (run host tr).
Proof.
  induction tr as [|a tr IH]; simpl; intros H; [apply quiet_ret|].
  apply andb_true_iff in H. destruct H as [Ha Htr].
  apply quiet_bind; [apply quiet_step; now destruct (registers a)|].
  intros _. apply IH, Htr.
Qed.

End Quiet.

(** ** Status callbacks touch their own list only *)

Lemma same_outside_status_refl s : same_outside_status s s.
Proof. split; reflexivity. Qed.

Lemma same_outside_status_trans s1 s2 s3 :
  same_outside_status s1 s2 -> same_outside_status s2 s3 ->
  same_outside_status s1 s3.
Proof. intros [] []. split; congruence. Qed.

Lemma unsubscribeStatus_outside callback s :
  same_outside_status s (exec (unsubscribeStatus callback) s).
Proof.
  unfold unsubscribeStatus. rewrite exec_modify.
  destruct (indexOf callback (statusCallbacks s)); split; reflexivity.
Qed.

Section StatusFrame.
Variable host : Host.

Lemma call_status_outside callback statuses s :
  same_outside_status s (exec (call_status_callback host callback statuses) s).
Proof.
  unfold call_status_callback. rewrite exec_bind, exec_modify.
  apply same_outside_status_trans
    with (set_statusCalls (statusCalls s ++ [(callback, statuses)]) s);
    [split; reflexivity|].
  generalize (set_statusCalls (statusCalls s ++ [(callback, statuses)]) s).
  induction (status_callback host callback) as [|u r IH]; intros s0;
    [apply same_outside_status_refl|].
  rewrite exec_forEach_cons.
  eapply same_outside_status_trans; [apply unsubscribeStatus_outside|apply IH].
Qed.

Lemma notify_outside len k statuses s :
  same_outside_status s (exec (notify host len k statuses) s).
Proof.
  revert k s. induction len as [|len IH]; intros k s;
    [apply same_outside_status_refl|].
  simpl notify. rewrite exec_bind, exec_gets, eval_gets, exec_bind.
  eapply same_outside_status_trans; [|apply IH].
  destruct (nth_error _ k);
    [apply call_status_outside|apply same_outside_status_refl].
Qed.

Lemma onStatusUpdate_outside callback s :
  same_outside_status s (exec (onStatusUpdate host callback) s).
Proof.
  unfold onStatusUpdate. rewrite exec_bind, exec_modify, exec_bind, exec_gets.
  eapply same_outside_status_trans; [|apply call_status_outside].
  split; reflexivity.
Qed.

Lemma updateConnectionStatus_frame exchange state latency error attempts s :
  let s' := exec (updateConnectionStatus host exchange state latency error attempts) s in
  connectionStatus s'
  = JsMap.set exchange (status_of exchange state (clock s) latency error attempts)
      (connectionStatus s)
  /\ sockets s' = sockets s /\ connections s' = connections s
  /\ timers s' = timers s /\ reconnectTimers s' = reconnectTimers s
  /\ clock s' = clock s /\ priceCalls s' = priceCalls s
  /\ priceCache s' = priceCache s /\ priceCallbacks s' = priceCallbacks s.
Proof.
  intros s'. subst s'. unfold updateConnectionStatus.
  rewrite exec_bind, exec_gets, eval_gets, exec_bind, exec_modify.
  rewrite exec_bind, exec_gets, eval_gets, exec_bind, exec_gets, eval_gets.
  match goal with
  | |- context [exec (notify host ?len ?k ?st) ?s0] =>
      destruct (notify_outside len k st s0) as [H1 H2 H3 H4 H5 H6 H7 H8 H9]
  end.
  rewrite H1, H2, H3, H4, H5, H6, H7, H8, H9. simpl.
  repeat split; reflexivity.
Qed.

End StatusFrame.

(** ** Shutdown *)

Lemma set_sockets_same s : set_sockets (sockets s) s = s.
Proof. destruct s; reflexivity. Qed.

Lemma set_timers_same s : set_timers (timers s) s = s.
Proof. destruct s; reflexivity. Qed.

Lemma nth_error_update_nth {A} (f : A -> A) i l j :
  nth_error (update_nth i f l) j =
  if Nat.eqb j i then option_map f (nth_error l j) else nth_error l j.
Proof.
  revert i j. induction l as [|x r IH]; intros [|i] [|j]; simpl; try reflexivity.
  - destruct (Nat.eqb j i); reflexivity.
  - apply IH.
Qed.

Lemma close_loop_exec ids s :
  exec (forEach ids (fun ws =>
          open <- gets (is_open ws) ;;
          if open then ws_close ws 1000 "Service shutdown" else ret tt)) s
  = set_sockets (close_all ids (sockets s)) s.
Proof.
  revert s. induction ids as [|ws ids IH]; intros s.
  - simpl. now rewrite set_sockets_same.
  - rewrite exec_forEach_cons, IH. clear IH.
    assert (Hstep :
      exec (open <- gets (is_open ws) ;;
            if open then ws_close ws 1000 "Service shutdown" else ret tt) s
      = set_sockets (close_open (sockets s) ws) s).
    { rewrite exec_bind, exec_gets, eval_gets.
      unfold is_open, close_open, rs_open.
      destruct (nth_error (sockets s) ws) as [w|];
        [destruct (readyState w)|];
        try (rewrite exec_ret, set_sockets_same; reflexivity).
      unfold ws_close. now rewrite exec_modify. }
    rewrite Hstep. destruct s; reflexivity.
Qed.

Lemma clear_loop_exec ids s :
  exec (forEach ids clearTimeout) s = set_timers (clear_all ids (timers s)) s.
Proof.
  revert s. induction ids as [|t ids IH]; intros s.
  - simpl. now rewrite set_timers_same.
  - rewrite exec_forEach_cons, IH. unfold clearTimeout. rewrite exec_modify.
    destruct s; reflexivity.
Qed.

Lemma disconnect_exec s :
  exec disconnect s =
  clear_tables
    (set_timers (clear_all (JsMap.values (reconnectTimers s)) (timers s))
       (set_sockets (close_all (JsMap.values (connections s)) (sockets s)) s)).
Proof.
  unfold disconnect.
  rewrite exec_bind, exec_gets, eval_gets.
  rewrite exec_bind, close_loop_exec.
  rewrite exec_bind, exec_gets, eval_gets.
  rewrite exec_bind, clear_loop_exec, exec_modify.
  reflexivity.
Qed.

Lemma close_open_nth socks ws i :
  nth_error (close_open socks ws) i =
  option_map (fun w => if (Nat.eqb i ws && rs_open w)%bool
                       then close_socket 1000 "Service shutdown" w else w)
             (nth_error socks i).
Proof.
  unfold close_open.
  destruct (Nat.eqb_spec i ws) as [->|Hne].
  - destruct (nth_error socks ws) as [w|] eqn:E; [|rewrite E; reflexivity].
    destruct (rs_open w) eqn:Ho.
    + rewrite nth_error_update_nth, Nat.eqb_refl, E. simpl. now rewrite Ho.
    + rewrite E. simpl. now rewrite Ho.
  - assert (Hid : nth_error socks i = option_map (fun w => w) (nth_error socks i))
      by (destruct (nth_error socks i); reflexivity).
    destruct (nth_error socks ws) as [w|]; [|exact Hid].
    destruct (rs_open w); [|exact Hid].
    rewrite nth_error_update_nth.
    destruct (Nat.eqb_spec i ws); [contradiction|exact Hid].
Qed.

Lemma close_all_nth ids socks i :
  nth_error (close_all ids socks) i =
  option_map (fun w => if (existsb (Nat.eqb i) ids && rs_open w)%bool
                       then close_socket 1000 "Service shutdown" w else w)
             (nth_error socks i).
Proof.
  revert socks. induction ids as [|ws ids IH]; intros socks.
  - simpl. destruct (nth_error socks i); reflexivity.
  - unfold close_all in *. simpl fold_left. rewrite IH, close_open_nth.
    simpl existsb.
    destruct (nth_error socks i) as [w|]; [|reflexivity]. simpl. f_equal.
    destruct (Nat.eqb i ws); simpl.
    + destruct (rs_open w) eqn:Ho; simpl.
      * unfold rs_open at 1. simpl. unfold rs_open in Ho.
        destruct (readyState w); try discriminate. simpl.
        now rewrite andb_false_r.
      * now rewrite Ho, andb_false_r.
    + reflexivity.
Qed.

Lemma clear_timer_idem t : clear_timer (clear_timer t) = clear_timer t.
Proof. destruct t as [e sy a d []]; reflexivity. Qed.

Lemma clear_all_nth ids tms t :
  nth_error (clear_all ids tms) t =
  option_map (fun tm => if existsb (Nat.eqb t) ids then clear_timer tm else tm)
             (nth_error tms t).
Proof.
  revert tms. induction ids as [|t0 ids IH]; intros tms.
  - simpl. destruct (nth_error tms t); reflexivity.
  - unfold clear_all in *. simpl fold_left. rewrite IH, nth_error_update_nth.
    simpl existsb. destruct (Nat.eqb t t0); simpl.
    + destruct (nth_error tms t) as [tm|]; [|reflexivity]. simpl.
      destruct (existsb _ ids); [now rewrite clear_timer_idem|reflexivity].
    + reflexivity.
Qed.

Lemma Forall_in_nil {A B} (f : A -> B) (l : list A) :
  Forall (fun c => In (f c) []) l -> l = [].
Proof. destruct l as [|x r]; [reflexivity|]. intros H. inversion H as [|? ? []]. Qed.

(** What [disconnect] does: it invokes [close(1000)] exactly once on
    every socket that is in the connection table and open, and on no
    other socket; it cancels every timer of the timer table; it empties
    the six tables; a second call changes nothing; and whatever the
    sockets and the timers do afterwards, and whatever is unsubscribed,
    no price callback and no status callback is invoked until a callback
    is registered again. *)
Theorem disconnect_shutdown host s :
  let s' := exec disconnect s in
  (forall ws w, nth_error (sockets s) ws = Some w ->
     exists w', nth_error (sockets s') ws = Some w'
       /\ closeCalls w' =
          closeCalls w ++ (if registered_open s ws w then [shutdown_call] else []))
  /\ (forall t tm, nth_error (timers s) t = Some tm ->
        In t (JsMap.values (reconnectTimers s)) ->
        exists tm', nth_error (timers s') t = Some tm' /\ t_state tm' <> Pending)
  /\ (connections s' = [] /\ connectionStatus s' = [] /\ priceCallbacks s' = []
      /\ statusCallbacks s' = [] /\ reconnectTimers s' = [] /\ priceCache s' = [])
  /\ exec disconnect s' = s'
  /\ (forall tr, forallb (fun a => negb (registers a)) tr = true ->
        priceCalls (exec (run host tr) s') = priceCalls s
        /\ statusCalls (exec (run host tr) s') = statusCalls s).
Proof.
  intros s'. subst s'. rewrite !disconnect_exec.
  split; [|split; [|split; [|split]]].
  - intros ws w Hw. simpl. rewrite close_all_nth, Hw. simpl.
    eexists. split; [reflexivity|]. unfold registered_open.
    destruct (_ && _)%bool; simpl; [reflexivity|now rewrite app_nil_r].
  - intros t tm Ht Hin. simpl. rewrite clear_all_nth, Ht. simpl.
    eexists. split; [reflexivity|].
    assert (E : existsb (Nat.eqb t) (JsMap.values (reconnectTimers s)) = true)
      by (apply existsb_exists; exists t; split; [assumption|apply Nat.eqb_refl]).
    rewrite E. destruct tm as [e sy a d []]; simpl; discriminate.
  - simpl. repeat split; reflexivity.
  - reflexivity.
  - intros tr Htr.
    destruct (quiet_run host tr Htr
                (clear_tables
                   (set_timers (clear_all (JsMap.values (reconnectTimers s)) (timers s))
                      (set_sockets (close_all (JsMap.values (connections s)) (sockets s)) s))))
      as [_ _ [new [E F]] [new' [E' F']]].
    apply (Forall_in_nil (fun c => snd (fst c))) in F.
    apply (Forall_in_nil (fun c => fst c)) in F'. subst new new'.
    rewrite E, E', !app_nil_r. split; reflexivity.
Qed.

(** [disconnect] right after [subscribe] finds the three sockets still
    connecting and invokes [close] on none of them. *)
Lemma disconnect_skips_connecting_sockets :
  let s := exec (run plain_host [Subscribe ["BTC"]; Disconnect]) initial in
  map (fun w => (readyState w, closeCalls w)) (sockets s)
  = [(WS_CONNECTING, []); (WS_CONNECTING, []); (WS_CONNECTING, [])]
  /\ ~ every_socket_closed_once s.
Proof.
  split; [vm_compute; reflexivity|].
  intros H. vm_compute in H. inversion H as [|w l Hw _]. discriminate.
Qed.

Lemma disconnect_shutdown_witness :
  (exists w',
     nth_error (sockets (exec disconnect shutdown_scenario)) 0 = Some w'
     /\ closeCalls w' = [shutdown_call])
  /\ (exists w',
        nth_error (sockets (exec disconnect shutdown_scenario)) 2 = Some w'
        /\ closeCalls w' = [])
  /\ (exists tm',
        nth_error (timers (exec disconnect shutdown_scenario)) 0 = Some tm'
        /\ t_state tm' <> Pending).
Proof.
  pose proof (disconnect_shutdown plain_host shutdown_scenario) as [Hs [Ht _]].
  assert (H0 : nth_error (sockets shutdown_scenario) 0
               = Some {| ws_exchange := binance; ws_symbols := ["BTC"];
                         readyState := WS_OPEN; closeCalls := [];
                         sent := [BinanceSubscribe ["btcusdt@ticker"] zero] |})
    by (vm_compute; reflexivity).
  assert (H2 : nth_error (sockets shutdown_scenario) 2
               = Some {| ws_exchange := kraken; ws_symbols := ["BTC"];
                         readyState := WS_CONNECTING; closeCalls := [];
                         sent := [] |})
    by (vm_compute; reflexivity).
  assert (H3 : nth_error (timers shutdown_scenario) 0
               = Some {| t_exchange := coinbase; t_symbols := ["BTC"];
                         t_attempts := 1; t_delay := 1000; t_state := Pending |})
    by (vm_compute; reflexivity).
  assert (H4 : In 0%nat (JsMap.values (reconnectTimers shutdown_scenario)))
    by (vm_compute; left; reflexivity).
  split; [|split].
  - destruct (Hs _ _ H0) as [w' [Hn Hc]]. exists w'. split; [exact Hn|].
    rewrite Hc. vm_compute. reflexivity.
  - destruct (Hs _ _ H2) as [w' [Hn Hc]]. exists w'. split; [exact Hn|].
    rewrite Hc. vm_compute. reflexivity.
  - exact (Ht _ _ H3 H4).
Defined.

(** ** Unsubscribing *)

Lemma splice1_indexOf x l :
  match indexOf x l with
  | Some index => splice1 index l
  | None => l
  end = remove_first x l.
Proof.
  induction l as [|y r IH]; simpl; [reflexivity|].
  destruct (Nat.eqb y x); [reflexivity|].
  destruct (indexOf x r); simpl; now rewrite <- IH.
Qed.

Lemma indexOf_None x l : indexOf x l = None <-> ~ In x l.
Proof.
  induction l as [|y r IH]; simpl; [tauto|].
  destruct (Nat.eqb_spec y x).
  - split; [discriminate|]. intros H. exfalso. apply H. now left.
  - destruct (indexOf x r); split; try discriminate; try tauto.
    intros H. exfalso. apply H. right. apply Decidable.not_not.
    + destruct (in_dec Nat.eq_dec x r); [left|right]; assumption.
    + intros Hn. apply IH in Hn. discriminate.
Qed.

Lemma remove_first_length x l :
  In x l -> S (List.length (remove_first x l)) = List.length l.
Proof.
  induction l as [|y r IH]; simpl; [tauto|].
  destruct (Nat.eqb_spec y x); [reflexivity|].
  intros [H|H]; [contradiction|]. simpl. now rewrite IH.
Qed.

Lemma remove_first_count x l :
  In x l ->
  S (count_occ Nat.eq_dec (remove_first x l) x) = count_occ Nat.eq_dec l x.
Proof.
  induction l as [|y r IH]; simpl; [tauto|].
  destruct (Nat.eqb_spec y x) as [->|Hne].
  - intros _. destruct (Nat.eq_dec x x); [reflexivity|contradiction].
  - intros [H|H]; [contradiction|]. simpl.
    destruct (Nat.eq_dec y x); [contradiction|]. now apply IH.
Qed.

Lemma unsubscribe_callbacks symbol callback s symbol' :
  callbacks_of symbol' (exec (unsubscribe symbol callback) s)
  = if String.eqb symbol' symbol
    then remove_first callback (callbacks_of symbol s)
    else callbacks_of symbol' s.
Proof.
  unfold unsubscribe. rewrite exec_modify.
  rewrite <- splice1_indexOf. unfold callbacks_of at 2 3.
  destruct (JsMap.get symbol (priceCallbacks s)) as [callbacks|] eqn:E.
  - destruct (indexOf callback callbacks) as [index|].
    + rewrite callbacks_of_set. destruct (String.eqb symbol' symbol); reflexivity.
    + destruct (String.eqb_spec symbol' symbol); [|reflexivity].
      subst. unfold callbacks_of. now rewrite E.
  - simpl. destruct (String.eqb_spec symbol' symbol); [|reflexivity].
    subst. unfold callbacks_of. now rewrite E.
Qed.

Lemma unsubscribe_absent symbol callback s :
  ~ In callback (callbacks_of symbol s) ->
  exec (unsubscribe symbol callback) s = s.
Proof.
  intros H. unfold unsubscribe. rewrite exec_modify. unfold callbacks_of in H.
  destruct (JsMap.get symbol (priceCallbacks s)) as [callbacks|]; [|reflexivity].
  apply indexOf_None in H. now rewrite H.
Qed.

Lemma onPriceUpdate_callbacks symbol callback s symbol' :
  callbacks_of symbol' (exec (onPriceUpdate symbol callback) s)
  = if String.eqb symbol' symbol
    then callbacks_of symbol s ++ [callback]
    else callbacks_of symbol' s.
Proof.
  unfold onPriceUpdate. rewrite exec_bind, !exec_modify.
  unfold JsMap.has, callbacks_of at 2 3.
  destruct (JsMap.get symbol (priceCallbacks s)) as [callbacks|] eqn:E.
  - rewrite E, callbacks_of_set.
    destruct (String.eqb symbol' symbol); reflexivity.
  - set (s1 := set_priceCallbacks (JsMap.set symbol [] (priceCallbacks s)) s).
    assert (E1 : JsMap.get symbol (priceCallbacks s1) = Some [])
      by (subst s1; simpl; apply get_set_same).
    rewrite E1, callbacks_of_set.
    destruct (String.eqb_spec symbol' symbol); [reflexivity|].
    subst s1. rewrite callbacks_of_set.
    destruct (String.eqb_spec symbol' symbol); [contradiction|reflexivity].
Qed.

Lemma onPriceUpdate_priceCalls symbol callback s :
  priceCalls (exec (onPriceUpdate symbol callback) s) = priceCalls s.
Proof.
  unfold onPriceUpdate. rewrite exec_bind, !exec_modify.
  destruct (JsMap.has _ _); simpl;
    match goal with |- context [JsMap.get ?k ?m] => destruct (JsMap.get k m) end;
    reflexivity.
Qed.

Section Unsubscribed.
Variable host : Host.
Variable symbol : string.
Variable callback : nat.

Lemma step_unsubscribed a s :
  registers_callback symbol callback a = false ->
  ~ In callback (callbacks_of symbol s) ->
  ~ In callback (callbacks_of symbol (exec (step host a) s))
  /\ exists new, priceCalls (exec (step host a) s) = priceCalls s ++ new
                 /\ Forall (not_to symbol callback) new.
Proof.
  intros Ha Hs. destruct (registers a) eqn:Hr.
  - destruct a as [|symbol' callback'| |callback'| | | | | | | |];
      try discriminate; simpl step.
    + rewrite onPriceUpdate_callbacks, onPriceUpdate_priceCalls. split.
      * simpl in Ha. destruct (String.eqb_spec symbol symbol') as [<-|Hne].
        -- rewrite String.eqb_refl in Ha. simpl in Ha.
           apply Nat.eqb_neq in Ha. intros Hin. apply in_app_or in Hin.
           destruct Hin as [Hin|[Hin|[]]]; [auto|congruence].
        -- assumption.
      * exists []. rewrite app_nil_r. auto.
    + destruct (onStatusUpdate_outside host callback' s)
        as [_ _ Hcb _ _ _ _ _ Hcalls].
      unfold callbacks_of. rewrite Hcb, Hcalls. split.
      * exact Hs.
      * exists []. rewrite app_nil_r. auto.
  - destruct (quiet_step host a Hr s) as [Hp _ [new [E F]] _]. split.
    + intros Hin. apply Hs, (Hp symbol), Hin.
    + exists new. split; [exact E|].
      eapply Forall_impl; [|exact F]. intros [[sy cb] p] Hc Hsy Hcb.
      simpl in *. subst. apply Hs, Hc.
Qed.

Lemma run_unsubscribed tr s :
  forallb (fun a => negb (registers_callback symbol callback a)) tr = true ->
  ~ In callback (callbacks_of symbol s) ->
  ~ In callback (callbacks_of symbol (exec (run host tr) s))
  /\ exists new, priceCalls (exec (run host tr) s) = priceCalls s ++ new
                 /\ Forall (not_to symbol callback) new.
Proof.
  revert s. induction tr as [|a tr IH]; intros s Htr Hs.
  - split; [exact Hs|]. exists []. rewrite app_nil_r. auto.
  - simpl in Htr. apply andb_true_iff in Htr. destruct Htr as [Ha Htr].
    apply negb_true_iff in Ha.
    unfold run. rewrite exec_forEach_cons. fold (run host tr).
    destruct (step_unsubscribed a s Ha Hs) as [Hs1 [n1 [E1 F1]]].
    destruct (IH _ Htr Hs1) as [Hs2 [n2 [E2 F2]]].
    split; [exact Hs2|]. exists (n1 ++ n2).
    split; [rewrite E2, E1, app_assoc; reflexivity|].
    apply Forall_app. split; assumption.
Qed.

End Unsubscribed.

(** C6, on the code: [disconnect] closes the sockets that are in the
    connection table and open, and clears the timers that are in the
    timer table, and these are not all the service has.  Right after
    [subscribe] the three sockets are still connecting and [close] is
    invoked on none of them.  After two subscriptions the table names
    the sockets of the second one only: the open Binance socket of the
    first is not closed, and of the two timers set for Coinbase the
    first, not in the table any more, stays pending; when it fires after
    the shutdown the service connects to Coinbase again and has a
    connection and a status once more. *)
Theorem disconnect_leaves_connections_open :
  (let s := exec (run plain_host [Subscribe ["BTC"]; Disconnect]) initial in
   map (fun w => (readyState w, closeCalls w)) (sockets s)
   = [(WS_CONNECTING, []); (WS_CONNECTING, []); (WS_CONNECTING, [])])
  /\ (let s := exec (run plain_host overlapping_subscriptions) initial in
      map (fun w => (readyState w, closeCalls w)) (sockets s)
      = [(WS_OPEN, []); (WS_CLOSED, []); (WS_CONNECTING, []);
         (WS_CLOSING, [shutdown_call]); (WS_CLOSED, []); (WS_CONNECTING, [])]
      /\ map t_state (timers s) = [Pending; Cleared]
      /\ connections s = [] /\ connectionStatus s = []
      /\ let s' := exec (step plain_host (TimerFires 0)) s in
         List.length (sockets s') = 7%nat
         /\ map fst (connections s') = ["coinbase"]
         /\ map fst (connectionStatus s') = ["coinbase"]).
Proof.
  repeat split; vm_compute; reflexivity.
Qed.

(** C7 (amended): a call of the function that [onPriceUpdate symbol
    callback] returned removes the first occurrence of the callback from
    the list of the symbol, if there is one, and leaves the other lists
    alone, so that a call removes exactly one occurrence when there is
    any.  When the callback is in the list exactly once, the call removes
    it, a further call changes nothing, and no delivery made from the list
    of the symbol invokes the callback until it is registered again. *)
Theorem unsubscribe_first_occurrence host sym cb s :
  let s1 := exec (unsubscribe sym cb) s in
  callbacks_of sym s1 = remove_first cb (callbacks_of sym s)
  /\ (forall symbol', symbol' <> sym -> callbacks_of symbol' s1 = callbacks_of symbol' s)
  /\ (In cb (callbacks_of sym s) ->
        S (List.length (callbacks_of sym s1)) = List.length (callbacks_of sym s)
        /\ S (count_occ Nat.eq_dec (callbacks_of sym s1) cb)
           = count_occ Nat.eq_dec (callbacks_of sym s) cb)
  /\ (count_occ Nat.eq_dec (callbacks_of sym s) cb = 1%nat ->
        ~ In cb (callbacks_of sym s1)
        /\ exec (unsubscribe sym cb) s1 = s1
        /\ forall tr,
             forallb (fun a => negb (registers_callback sym cb a)) tr = true ->
             exists new,
               priceCalls (exec (run host tr) s1) = priceCalls s1 ++ new
               /\ Forall (not_to sym cb) new).
Proof.
  intros s1.
  assert (H1 : callbacks_of sym s1 = remove_first cb (callbacks_of sym s))
    by (subst s1; rewrite unsubscribe_callbacks, String.eqb_refl; reflexivity).
  split; [exact H1|]. split; [|split].
  - intros symbol' Hne. subst s1. rewrite unsubscribe_callbacks.
    destruct (String.eqb_spec symbol' sym); [contradiction|reflexivity].
  - intros Hin. rewrite H1. split.
    + now apply remove_first_length.
    + now apply remove_first_count.
  - intros Hc.
    assert (Hin : In cb (callbacks_of sym s))
      by (apply (count_occ_In Nat.eq_dec); lia).
    assert (Hout : ~ In cb (callbacks_of sym s1)).
    { apply (count_occ_not_In Nat.eq_dec). rewrite H1.
      pose proof (remove_first_count cb _ Hin). lia. }
    split; [exact Hout|]. split.
    + now apply unsubscribe_absent.
    + intros tr Htr. now apply run_unsubscribed.
Qed.

(** C7, as stated, fails: a callback registered twice for BTC is still
    in the list after the first call of the unsubscribe function, a tick
    is still delivered to it, and the second call removes it again. *)
Lemma second_unsubscribe_removes_again :
  let s := exec (run plain_host
                   [OnPriceUpdate "BTC" 7; OnPriceUpdate "BTC" 7; Tick 3000])
                initial in
  let s1 := exec (unsubscribe "BTC" 7) s in
  let s2 := exec (unsubscribe "BTC" 7) s1 in
  callbacks_of "BTC" s = [7; 7]%nat
  /\ callbacks_of "BTC" s1 = [7]%nat
  /\ map (fun c => snd (fst c))
         (priceCalls (exec (handlePriceUpdate plain_host (tick "BTC" "binance" 50000 95)) s1))
     = [7]%nat
  /\ callbacks_of "BTC" s2 = []
  /\ s2 <> s1.
Proof.
  repeat split; try (vm_compute; reflexivity).
  intros H. apply (f_equal (callbacks_of "BTC")) in H. vm_compute in H. discriminate.
Qed.

Lemma unsubscribe_first_occurrence_witness :
  callbacks_of "BTC" two_subscribers = [7; 8]%nat
  /\ callbacks_of "BTC" (exec (unsubscribe "BTC" 7) two_subscribers) = [8]%nat
  /\ priceCalls (exec (run plain_host binance_tick_arrives)
                   (exec (unsubscribe "BTC" 7) two_subscribers))
     = [("BTC", 8%nat, delivered_binance_tick)]
  /\ exists new,
       priceCalls (exec (run plain_host binance_tick_arrives)
                     (exec (unsubscribe "BTC" 7) two_subscribers))
       = priceCalls (exec (unsubscribe "BTC" 7) two_subscribers) ++ new
       /\ Forall (not_to "BTC" 7) new.
Proof.
  pose proof (unsubscribe_first_occurrence plain_host "BTC" 7 two_subscribers)
    as [H1 [_ [_ H]]].
  assert (Hl : callbacks_of "BTC" two_subscribers = [7; 8]%nat)
    by (vm_compute; reflexivity).
  assert (Hc : count_occ Nat.eq_dec (callbacks_of "BTC" two_subscribers) 7%nat
               = 1%nat)
    by (rewrite Hl; vm_compute; reflexivity).
  destruct (H Hc) as [_ [_ Htr]].
  split; [exact Hl|]. split; [rewrite H1, Hl; reflexivity|].
  split; [vm_compute; reflexivity|].
  apply (Htr binance_tick_arrives). vm_compute. reflexivity.
Defined.

(** ** Delivery while a callback unsubscribes *)

(** C8, on the code: callbacks 1 and 2 are subscribed to BTC; during the
    delivery of a tick callback 1 unsubscribes itself; callback 2, which
    stays subscribed, is not invoked. *)
Theorem delivery_skips_after_removal :
  let s := exec (run self_removing_host
                   [OnPriceUpdate "BTC" 1; OnPriceUpdate "BTC" 2; Tick 3000])
                initial in
  let s' := exec (handlePriceUpdate self_removing_host (tick "BTC" "binance" 50000 95)) s in
  callbacks_of "BTC" s = [1; 2]%nat
  /\ callbacks_of "BTC" s' = [2]%nat
  /\ map (fun c => snd (fst c)) (priceCalls s') = [1]%nat.
Proof. repeat split; vm_compute; reflexivity. Qed.

(** ** Reconnection *)

Lemma sets_no_timer_bind {A B} (m : M A) (k : A -> M B) :
  sets_no_timer m -> (forall a, sets_no_timer (k a)) -> sets_no_timer (mbind m k).
Proof. intros Hm Hk s. now rewrite exec_bind, Hk, Hm. Qed.

Lemma sets_no_timer_forEach {A} (l : list A) (f : A -> M unit) :
  (forall x, sets_no_timer (f x)) -> sets_no_timer (forEach l f).
Proof.
  intros Hf. induction l as [|x r IH]; intros s; [reflexivity|].
  now rewrite exec_forEach_cons, IH, Hf.
Qed.

Lemma sets_no_timer_modify f :
  (forall s, timers (f s) = timers s) -> sets_no_timer (modify f).
Proof. intros H s. now rewrite exec_modify. Qed.

Ltac no_timer :=
  repeat first
    [ intros ?s; reflexivity
    | apply sets_no_timer_modify; intros ?s;
      repeat match goal with
             | |- context [match ?x with _ => _ end] => destruct x
             end; reflexivity
    | apply sets_no_timer_bind; [|intros]
    | apply sets_no_timer_forEach; intros ].

Section Backoff.
Variable host : Host.

Lemma updateConnectionStatus_no_timer exchange state latency error attempts :
  sets_no_timer (updateConnectionStatus host exchange state latency error attempts).
Proof.
  intros s.
  now destruct (updateConnectionStatus_frame host exchange state latency error attempts s)
    as (_ & _ & _ & H & _).
Qed.

Lemma updateConnectionStatus_attempts exchange state latency error attempts s :
  option_map reconnectAttempts
    (JsMap.get exchange
       (connectionStatus
          (exec (updateConnectionStatus host exchange state latency error attempts) s)))
  = Some attempts.
Proof.
  destruct (updateConnectionStatus_frame host exchange state latency error attempts s)
    as (H & _).
  cbv zeta in H. rewrite H, get_set_same. reflexivity.
Qed.

Lemma handlePriceUpdate_no_timer update : sets_no_timer (handlePriceUpdate host update).
Proof.
  unfold handlePriceUpdate. apply sets_no_timer_bind; [no_timer|]. intros _.
  apply sets_no_timer_bind; [no_timer|]. intros callbacks.
  apply sets_no_timer_bind; [no_timer|]. intros bestPrice.
  destruct bestPrice as [bestPrice|]; [destruct callbacks as [callbacks|]|];
    try (intros s; reflexivity).
  generalize 0%nat. induction (List.length callbacks) as [|len IH]; intros k;
    [intros s; reflexivity|].
  simpl deliver. apply sets_no_timer_bind; [no_timer|]. intros l.
  apply sets_no_timer_bind; [|intros _; apply IH].
  destruct (nth_error _ k); [|intros s; reflexivity].
  unfold call_price_callback, unsubscribe. no_timer.
Qed.

(** After a status update that stores the counter 0, the timer that
    [scheduleReconnection] sets is a first attempt. *)
Lemma schedule_after_reset exchange symbols s :
  option_map reconnectAttempts (JsMap.get (name exchange) (connectionStatus s)) = Some 0 ->
  timers_first_attempt s ->
  timers_first_attempt (exec (scheduleReconnection exchange symbols) s).
Proof.
  intros Hst Hs. unfold scheduleReconnection.
  rewrite exec_bind, exec_gets, eval_gets, exec_bind, exec_gets.
  rewrite exec_bind, !exec_modify. simpl.
  apply Forall_app. split; [exact Hs|]. constructor; [|constructor].
  destruct (JsMap.get (name exchange) (connectionStatus s)) as [st|];
    [|discriminate].
  simpl in Hst. inversion Hst as [H0]. split; simpl; rewrite H0; reflexivity.
Qed.

Lemma connectToExchange_first_attempt exchange symbols s :
  timers_first_attempt s ->
  timers_first_attempt (exec (connectToExchange host exchange symbols) s).
Proof.
  intros Hs. unfold connectToExchange. rewrite exec_bind.
  set (s1 := exec (updateConnectionStatus host (name exchange) CONNECTING zero None 0) s).
  assert (H1 : timers_first_attempt s1)
    by (unfold timers_first_attempt, s1;
        now rewrite updateConnectionStatus_no_timer).
  destruct (WebSocket_throws host (url exchange)) as [thrown|].
  - rewrite exec_bind. apply schedule_after_reset.
    + apply updateConnectionStatus_attempts.
    + unfold timers_first_attempt. now rewrite updateConnectionStatus_no_timer.
  - rewrite exec_bind, exec_gets, exec_bind, !exec_modify. exact H1.
Qed.

Lemma update_nth_Forall {A} (P : A -> Prop) f i l :
  (forall x, P x -> P (f x)) -> Forall P l -> Forall P (update_nth i f l).
Proof.
  intros Hf. revert i. induction l as [|x r IH]; intros [|i] H; simpl;
    inversion H; subst; constructor; auto.
Qed.

Lemma step_first_attempt a s :
  timers_first_attempt s -> timers_first_attempt (exec (step host a) s).
Proof.
  intros Hs.
  destruct a as [symbols|sym cb|sym cb|cb|cb| |now|ws|ws data lat|ws description|ws code|timer];
    simpl step.
  - (* subscribe *)
    unfold subscribe. revert s Hs.
    induction (sort by_priority exchanges) as [|e r IH]; intros s Hs; [exact Hs|].
    rewrite exec_forEach_cons. apply IH. now apply connectToExchange_first_attempt.
  - unfold timers_first_attempt.
    assert (H : sets_no_timer (onPriceUpdate sym cb))
      by (unfold onPriceUpdate; no_timer).
    now rewrite H.
  - unfold timers_first_attempt.
    assert (H : sets_no_timer (unsubscribe sym cb))
      by (unfold unsubscribe; no_timer).
    now rewrite H.
  - unfold timers_first_attempt.
    assert (H : sets_no_timer (onStatusUpdate host cb))
      by (unfold onStatusUpdate; no_timer).
    now rewrite H.
  - unfold timers_first_attempt.
    assert (H : sets_no_timer (unsubscribeStatus cb))
      by (unfold unsubscribeStatus; no_timer).
    now rewrite H.
  - (* disconnect *)
    rewrite disconnect_exec. unfold timers_first_attempt. simpl.
    unfold clear_all.
    generalize (JsMap.values (reconnectTimers s)). intros ids.
    revert Hs. unfold timers_first_attempt. generalize (timers s).
    induction ids as [|t ids IH]; intros tms Htms; [exact Htms|].
    simpl. apply IH. apply update_nth_Forall; [|exact Htms].
    intros [e sy at' d st] Hx. exact Hx.
  - exact Hs.
  - (* open *)
    rewrite exec_bind, exec_gets, eval_gets.
    destruct (nth_error (sockets s) ws) as [w|]; [|exact Hs].
    destruct (readyState w); try exact Hs.
    unfold timers_first_attempt.
    assert (H : sets_no_timer (onopen host ws (ws_exchange w) (ws_symbols w))).
    { unfold onopen. apply sets_no_timer_bind;
        [apply updateConnectionStatus_no_timer|]. intros _.
      destruct (Nat.ltb 0 _); [unfold ws_send; no_timer|intros s0; reflexivity]. }
    now rewrite exec_bind, H, exec_modify.
  - (* message *)
    rewrite exec_bind, exec_gets, eval_gets.
    destruct (nth_error (sockets s) ws) as [w|]; [|exact Hs].
    assert (H : sets_no_timer (onmessage host (ws_exchange w) data lat)).
    { unfold onmessage. destruct data as [data|]; [|intros s0; reflexivity].
      apply sets_no_timer_bind; [no_timer|]. intros now'.
      destruct (messageParser _ _ _ _) as [[priceUpdate|]|];
        try (intros s0; reflexivity).
      apply sets_no_timer_bind; [apply handlePriceUpdate_no_timer|].
      intros _. apply updateConnectionStatus_no_timer. }
    unfold timers_first_attempt.
    destruct (readyState w); try exact Hs; now rewrite H.
  - (* error *)
    rewrite exec_bind, exec_gets, eval_gets.
    destruct (nth_error (sockets s) ws) as [w|]; [|exact Hs].
    unfold timers_first_attempt, onerror.
    destruct (readyState w); try exact Hs;
      now rewrite updateConnectionStatus_no_timer.
  - (* close *)
    rewrite exec_bind, exec_gets, eval_gets.
    destruct (nth_error (sockets s) ws) as [w|]; [|exact Hs].
    assert (H : forall s0, timers_first_attempt s0 ->
                timers_first_attempt
                  (exec (onclose host (ws_exchange w) (ws_symbols w) code) s0)).
    { intros s0 H0. unfold onclose. rewrite exec_bind.
      destruct (negb (code =? 1000)).
      - apply schedule_after_reset.
        + apply updateConnectionStatus_attempts.
        + unfold timers_first_attempt. now rewrite updateConnectionStatus_no_timer.
      - unfold timers_first_attempt.
        now rewrite exec_ret, updateConnectionStatus_no_timer. }
    destruct (readyState w); try exact Hs;
      rewrite exec_bind, exec_modify; apply H; exact Hs.
  - (* a timer fires *)
    rewrite exec_bind, exec_gets, eval_gets.
    destruct (nth_error (timers s) timer) as [t|]; [|exact Hs].
    destruct (t_state t); try exact Hs.
    rewrite exec_bind, exec_modify. unfold reconnect. rewrite exec_bind.
    apply connectToExchange_first_attempt.
    unfold timers_first_attempt. rewrite updateConnectionStatus_no_timer. simpl.
    apply update_nth_Forall; [|exact Hs]. intros x Hx. exact Hx.
Qed.

(** Whichever calls and events a service has seen since its
    construction, every timer it has set has the attempt number 1 and the
    delay 1000 ms. *)
Lemma every_reconnect_is_first_attempt tr :
  timers_first_attempt (exec (run host tr) initial).
Proof.
  assert (H : forall s, timers_first_attempt s ->
                        timers_first_attempt (exec (run host tr) s)).
  { induction tr as [|a tr IH]; intros s Hs; [exact Hs|].
    unfold run. rewrite exec_forEach_cons. apply IH. now apply step_first_attempt. }
  apply H. constructor.
Qed.

End Backoff.

(** C4, on the code: on every history every reconnection timer has the
    attempt number 1 and the delay 1000 ms.  When Binance fails three
    times in a row the three timers have the delay 1000 ms, where the
    policy asks for 1000, 2000 and 4000 ms; the counter of the status
    table is back at 0 as soon as the retry starts connecting. *)
Theorem reconnect_delay_does_not_grow :
  (forall host tr, Forall first_attempt (timers (exec (run host tr) initial)))
  /\ (let s := exec (run plain_host three_failures) initial in
      map (fun t => (name (t_exchange t), t_attempts t, t_delay t)) (timers s)
      = [("binance", 1, 1000); ("binance", 1, 1000); ("binance", 1, 1000)])
  /\ map policy_delay [1; 2; 3] = [1000; 2000; 4000]
  /\ option_map reconnectAttempts
       (JsMap.get "binance"
          (connectionStatus
             (exec (run plain_host [Subscribe ["BTC"]; WsClose 0 1006; TimerFires 0])
                initial)))
     = Some 0.
Proof.
  split; [intros host tr; apply every_reconnect_is_first_attempt|].
  repeat split; vm_compute; reflexivity.
Qed.

(** * Further properties of the service *)

(** ** Symbol maps *)

Lemma find_mapped_In v m original :
  find_mapped v m = Some original ->
  exists native, v = VString native /\ In (original, native) m.
Proof.
  induction m as [|[o n] r IH]; simpl; [discriminate|].
  destruct (strict_equals_string v n) eqn:E.
  - intros H. inversion H; subst. destruct v; try discriminate.
    simpl in E. apply String.eqb_eq in E. subst. exists n. auto.
  - intros H. destruct (IH H) as [native [Hv Hin]]. exists native. auto.
Qed.

Lemma mapping_get_In symbol m native :
  mapping_get symbol m = Some native -> In (symbol, native) m.
Proof.
  induction m as [|[k v] r IH]; simpl; [discriminate|].
  destruct (String.eqb_spec symbol k).
  - intros H. inversion H; subst. auto.
  - auto.
Qed.

(** In a map without repeated native names the first entry of a native
    name is its only one. *)
Lemma find_mapped_unique m symbol native :
  NoDup (map snd m) -> In (symbol, native) m ->
  find_mapped (VString native) m = Some symbol.
Proof.
  induction m as [|[k v] r IH]; simpl; [tauto|].
  intros Hnd Hin. inversion Hnd as [|? ? Hv Hr]; subst.
  destruct (String.eqb_spec native v) as [->|Hne].
  - destruct Hin as [Hin|Hin]; [inversion Hin; reflexivity|].
    exfalso. apply Hv. apply (in_map snd) in Hin. exact Hin.
  - destruct Hin as [Hin|Hin]; [inversion Hin; congruence|auto].
Qed.

Lemma mapping_get_unique m symbol native :
  NoDup (map fst m) -> In (symbol, native) m ->
  mapping_get symbol m = Some native.
Proof.
  induction m as [|[k v] r IH]; simpl; [tauto|].
  intros Hnd Hin. inversion Hnd as [|? ? Hk Hr]; subst.
  destruct (String.eqb_spec symbol k) as [->|Hne].
  - destruct Hin as [Hin|Hin]; [inversion Hin; reflexivity|].
    exfalso. apply Hk. apply (in_map fst) in Hin. exact Hin.
  - destruct Hin as [Hin|Hin]; [inversion Hin; congruence|auto].
Qed.

Ltac nodup_strings :=
  repeat (apply NoDup_cons;
          [simpl; intros H;
           repeat (destruct H as [H|H]; [discriminate H|]); exact H|]);
  apply NoDup_nil.

Lemma exchange_maps_injective e :
  In e exchanges ->
  NoDup (map fst (symbolMapping e)) /\ NoDup (map snd (symbolMapping e)).
Proof.
  intros [<-|[<-|[<-|[]]]]; split; simpl; nodup_strings.
Qed.

Lemma find_exchange e :
  In e exchanges ->
  find (fun e' => String.eqb (name e') (name e)) exchanges = Some e.
Proof. intros [<-|[<-|[<-|[]]]]; reflexivity. Qed.

Lemma find_exchange_name n e :
  find (fun e' => String.eqb (name e') n) exchanges = Some e ->
  In e exchanges /\ name e = n.
Proof.
  intros H. apply find_some in H. destruct H as [Hin Hn].
  split; [exact Hin|]. now apply String.eqb_eq.
Qed.

(** X1: the symbol maps are read both ways without loss: within one
    configured exchange, a symbol has the native name [native] exactly
    when [findOriginalSymbol] maps [native] back to the symbol. *)
Theorem symbol_round_trip e symbol native :
  In e exchanges ->
  mapping_get symbol (symbolMapping e) = Some native
  <-> findOriginalSymbol (name e) (VString native) = Some symbol.
Proof.
  intros He. destruct (exchange_maps_injective e He) as [Hk Hv].
  unfold findOriginalSymbol. rewrite (find_exchange e He). split.
  - intros H. apply find_mapped_unique; [exact Hv|]. now apply mapping_get_In.
  - intros H. apply find_mapped_In in H. destruct H as [n [Hn Hin]].
    inversion Hn; subst n. now apply mapping_get_unique.
Qed.

Lemma symbol_round_trip_witness :
  mapping_get "BTC" (symbolMapping kraken) = Some "XBT/USD"
  <-> findOriginalSymbol (name kraken) (VString "XBT/USD") = Some "BTC".
Proof.
  apply (symbol_round_trip kraken "BTC" "XBT/USD").
  right. right. left. reflexivity.
Defined.

(** A native name that no exchange of that name lists, or a value that
    is no string, has no original symbol. *)
Lemma findOriginalSymbol_Some n v symbol :
  findOriginalSymbol n v = Some symbol ->
  exists e native,
    In e exchanges /\ name e = n /\ v = VString native
    /\ mapping_get symbol (symbolMapping e) = Some native.
Proof.
  unfold findOriginalSymbol.
  destruct (find _ exchanges) as [e|] eqn:E; [|discriminate].
  apply find_exchange_name in E. destruct E as [He Hn]. intros H.
  apply find_mapped_In in H. destruct H as [native [Hv Hin]].
  exists e, native. repeat split; try assumption.
  apply mapping_get_unique; [|exact Hin].
  now apply exchange_maps_injective.
Qed.

(** ** Decoders *)

Lemma toString_free_coercible v : toString_free v = true -> coercible v = true.
Proof.
  revert v. fix IH 1. intros [ | | b | n | s | l | fields]; simpl; auto.
  - induction l as [|x r IHr]; simpl; [reflexivity|].
    intros H. apply andb_true_iff in H. destruct H as [Hx Hr].
    rewrite (IH x Hx). now apply IHr.
  - intros H. apply andb_true_iff in H. tauto.
Qed.

Lemma toString_free_lookup key fields :
  forallb (fun field => toString_free (snd field)) fields = true ->
  toString_free (lookup key fields) = true.
Proof.
  induction fields as [|[k v] r IH]; simpl; [reflexivity|].
  intros H. apply andb_true_iff in H. destruct H as [Hv Hr].
  destruct (String.eqb key k); auto.
Qed.

Lemma toString_free_nth i l :
  forallb toString_free l = true -> toString_free (nth i l VUndefined) = true.
Proof.
  revert i. induction l as [|x r IH]; intros [|i]; simpl; try reflexivity;
    intros H; apply andb_true_iff in H; destruct H; auto.
Qed.

Lemma toString_free_prop v key x :
  toString_free v = true -> prop v key = Normal x -> toString_free x = true.
Proof.
  destruct v; simpl; intros H E; inversion E; subst; try reflexivity.
  apply andb_true_iff in H. now apply toString_free_lookup.
Qed.

Lemma toString_free_optional_item v i :
  toString_free v = true -> toString_free (optional_item v i) = true.
Proof.
  destruct v; simpl; try reflexivity.
  - intros _. destruct (String.get i s); reflexivity.
  - apply toString_free_nth.
  - intros H. apply andb_true_iff in H. now apply toString_free_lookup.
Qed.

Lemma parseFloat_returns v :
  toString_free v = true -> parseFloat v = Normal (parseFloat_value v).
Proof. intros H. unfold parseFloat. now rewrite toString_free_coercible. Qed.

(** X2: on a frame in which no object has a field named [toString], the
    Binance and the Coinbase decoder throw on [null] and [undefined] and
    on nothing else, and the Kraken decoder never throws. *)
Theorem decoders_throw_on_null_only getTime now data :
  toString_free data = true ->
  (parseBinanceMessage data = Throws <-> data = VUndefined \/ data = VNull)
  /\ (parseCoinbaseMessage getTime data = Throws <-> data = VUndefined \/ data = VNull)
  /\ parseKrakenMessage now data <> Throws.
Proof.
  intros Hfree.
  assert (Hfield : forall key x, prop data key = Normal x ->
                     parseFloat x = Normal (parseFloat_value x))
    by (intros key x E; apply parseFloat_returns;
        exact (toString_free_prop data key x Hfree E)).
  split; [|split].
  - unfold parseBinanceMessage.
    destruct (prop data "e") as [e|] eqn:Ee; cbn [bind].
    + split; [|intros [->| ->]; discriminate].
      destruct (strict_equals_string e "24hrTicker"); [|discriminate].
      destruct (prop data "s") as [sv|] eqn:Es; cbn [bind];
        [|destruct data; discriminate].
      destruct (findOriginalSymbol "binance" sv); [|discriminate].
      destruct (prop data "c") as [c|] eqn:Ec; cbn [bind];
        [|destruct data; discriminate].
      rewrite (Hfield "c" c Ec). cbn [bind].
      destruct (prop data "E") as [E|] eqn:EE; cbn [bind];
        [|destruct data; discriminate].
      destruct (prop data "P") as [P|] eqn:EP; cbn [bind];
        [|destruct data; discriminate].
      rewrite (Hfield "P" P EP). cbn [bind].
      destruct (prop data "v") as [v|] eqn:Ev; cbn [bind];
        [|destruct data; discriminate].
      rewrite (Hfield "v" v Ev). cbn [bind]. discriminate.
    + split; [intros _|reflexivity]. destruct data; try discriminate; auto.
  - unfold parseCoinbaseMessage.
    destruct (prop data "type") as [e|] eqn:Ee; cbn [bind].
    + split; [|intros [->| ->]; discriminate].
      destruct (strict_equals_string e "ticker"); [|discriminate].
      destruct (prop data "product_id") as [sv|] eqn:Es; cbn [bind];
        [|destruct data; discriminate].
      destruct (findOriginalSymbol "coinbase" sv); [|discriminate].
      destruct (prop data "price") as [c|] eqn:Ec; cbn [bind];
        [|destruct data; discriminate].
      rewrite (Hfield "price" c Ec). cbn [bind].
      destruct (prop data "time") as [time|] eqn:Et; cbn [bind];
        [|destruct data; discriminate].
      unfold Date_time.
      rewrite (toString_free_coercible time
                 (toString_free_prop data "time" time Hfree Et)). cbn [bind].
      destruct (prop data "open_24h") as [P|] eqn:EP; cbn [bind];
        [|destruct data; discriminate].
      rewrite (Hfield "open_24h" P EP). cbn [bind].
      destruct (prop data "volume_24h") as [v|] eqn:Ev; cbn [bind];
        [|destruct data; discriminate].
      rewrite (Hfield "volume_24h" v Ev). cbn [bind]. discriminate.
    + split; [intros _|reflexivity]. destruct data; try discriminate; auto.
  - unfold parseKrakenMessage. destruct data; try discriminate.
    destruct (_ && _)%bool; [|discriminate].
    destruct (findOriginalSymbol _ _); [|discriminate].
    assert (Hticker : toString_free (nth 1 l VUndefined) = true)
      by (apply toString_free_nth; exact Hfree).
    destruct (truthy (nth 1 l VUndefined)) eqn:E; [|discriminate].
    destruct (prop (nth 1 l VUndefined) "c") as [c|] eqn:Ec; cbn [bind];
      [|destruct (nth 1 l VUndefined); discriminate].
    rewrite parseFloat_returns
      by (apply toString_free_optional_item;
          exact (toString_free_prop _ _ _ Hticker Ec)).
    cbn [bind].
    destruct (prop (nth 1 l VUndefined) "v") as [v|] eqn:Ev; cbn [bind];
      [|destruct (nth 1 l VUndefined); discriminate].
    rewrite parseFloat_returns
      by (apply toString_free_optional_item;
          exact (toString_free_prop _ _ _ Hticker Ev)).
    cbn [bind]. discriminate.
Qed.

Lemma decoders_throw_on_null_only_witness :
  (parseBinanceMessage priced_binance_frame = Throws
   <-> priced_binance_frame = VUndefined \/ priced_binance_frame = VNull)
  /\ (parseCoinbaseMessage (fun _ => nan) priced_binance_frame = Throws
      <-> priced_binance_frame = VUndefined \/ priced_binance_frame = VNull)
  /\ parseKrakenMessage nan priced_binance_frame <> Throws.
Proof.
  apply (decoders_throw_on_null_only (fun _ => nan) nan priced_binance_frame).
  vm_compute. reflexivity.
Defined.

Lemma prop_string_symbol data key native :
  prop data key = Normal (VString native) ->
  exists fields, data = VObject fields /\ lookup key fields = VString native.
Proof.
  destruct data; simpl; try discriminate.
  intros H. inversion H. eauto.
Qed.

Lemma found_symbol_supported e v original :
  In e exchanges ->
  findOriginalSymbol (name e) v = Some original ->
  supports e original = true.
Proof.
  intros He H. apply findOriginalSymbol_Some in H.
  destruct H as [e' [native [He' [Hn [_ Hm]]]]].
  assert (e' = e).
  { destruct He as [<-|[<-|[<-|[]]]], He' as [<-|[<-|[<-|[]]]];
      try reflexivity; discriminate. }
  subst e'. unfold supports. now rewrite Hm.
Qed.

Lemma messageParser_canonical getTime e now data t :
  In e exchanges ->
  messageParser getTime e now data = Normal (Some t) ->
  source t = name e /\ supports e (symbol t) = true.
Proof.
  unfold messageParser.
  intros He. pose proof (found_symbol_supported e) as Hf.
  destruct He as [<-|[<-|[<-|[]]]]; cbn [adapter binance coinbase kraken].
  - unfold parseBinanceMessage.
    destruct (prop data "e") as [ev|]; cbn [bind]; [|discriminate].
    destruct (strict_equals_string ev "24hrTicker"); [|discriminate].
    destruct (prop data "s") as [sv|]; cbn [bind]; [|discriminate].
    destruct (findOriginalSymbol "binance" sv) as [o|] eqn:E; [|discriminate].
    destruct (prop data "c") as [c|]; cbn [bind]; [|discriminate].
    destruct (parseFloat c); cbn [bind]; [|discriminate].
    destruct (prop data "E"); cbn [bind]; [|discriminate].
    destruct (prop data "P") as [P|]; cbn [bind]; [|discriminate].
    destruct (parseFloat P); cbn [bind]; [|discriminate].
    destruct (prop data "v") as [v|]; cbn [bind]; [|discriminate].
    destruct (parseFloat v); cbn [bind]; [|discriminate].
    intros H. inversion H; subst t. split; [reflexivity|].
    apply (Hf sv); [left; reflexivity|exact E].
  - unfold parseCoinbaseMessage.
    destruct (prop data "type") as [ev|]; cbn [bind]; [|discriminate].
    destruct (strict_equals_string ev "ticker"); [|discriminate].
    destruct (prop data "product_id") as [sv|]; cbn [bind]; [|discriminate].
    destruct (findOriginalSymbol "coinbase" sv) as [o|] eqn:E; [|discriminate].
    destruct (prop data "price") as [c|]; cbn [bind]; [|discriminate].
    destruct (parseFloat c); cbn [bind]; [|discriminate].
    destruct (prop data "time") as [time|]; cbn [bind]; [|discriminate].
    destruct (Date_time getTime time); cbn [bind]; [|discriminate].
    destruct (prop data "open_24h") as [P|]; cbn [bind]; [|discriminate].
    destruct (parseFloat P); cbn [bind]; [|discriminate].
    destruct (prop data "volume_24h") as [v|]; cbn [bind]; [|discriminate].
    destruct (parseFloat v); cbn [bind]; [|discriminate].
    intros H. inversion H; subst t. split; [reflexivity|].
    apply (Hf sv); [right; left; reflexivity|exact E].
  - unfold parseKrakenMessage. destruct data; try discriminate.
    destruct (_ && _)%bool; [|discriminate].
    destruct (findOriginalSymbol "kraken" _) as [o|] eqn:E; [|discriminate].
    destruct (truthy _); [|discriminate].
    destruct (prop _ "c") as [c|]; cbn [bind]; [|discriminate].
    destruct (parseFloat (optional_item c 0)); cbn [bind]; [|discriminate].
    destruct (prop _ "v") as [v|]; cbn [bind]; [|discriminate].
    destruct (parseFloat (optional_item v 1)); cbn [bind]; [|discriminate].
    intros H. inversion H; subst t. split; [reflexivity|].
    apply (Hf (nth 3 l VUndefined)); [right; right; left; reflexivity|exact E].
Qed.

(** X3: a tick that the decoder of a configured exchange emits carries
    the name of the exchange as its source and a symbol of the exchange's
    symbol map. *)
Theorem decoded_tick_is_canonical getTime e now data t :
  In e exchanges ->
  messageParser getTime e now data = Normal (Some t) ->
  source t = name e /\ supports e (symbol t) = true.
Proof. apply messageParser_canonical. Qed.

Lemma decoded_tick_is_canonical_witness :
  source decoded_binance_tick = name binance
  /\ supports binance (symbol decoded_binance_tick) = true.
Proof.
  apply (decoded_tick_is_canonical (fun _ => nan) binance nan priced_binance_frame).
  - left. reflexivity.
  - vm_compute. reflexivity.
Defined.

(** ** What the methods do to the service *)

Section StatusBroadcast.
Variable host : Host.

Lemma skipn_nth_error {A} k (l : list A) x :
  nth_error l k = Some x -> skipn k l = x :: skipn (S k) l.
Proof.
  revert k. induction l as [|y r IH]; intros [|k] E; simpl in *;
    try discriminate.
  - now inversion E.
  - now apply IH.
Qed.

(** With callbacks that leave the list alone, the loop calls the
    callbacks of the list from index [k] on, one after the other. *)
Lemma notify_inert len k statuses s :
  (forall callback, In callback (statusCallbacks s) ->
                    status_callback host callback = []) ->
  exec (notify host len k statuses) s
  = set_statusCalls
      (statusCalls s
       ++ map (fun callback => (callback, statuses))
              (firstn len (skipn k (statusCallbacks s)))) s.
Proof.
  revert k s. induction len as [|len IH]; intros k s Hinert.
  - simpl. rewrite app_nil_r. destruct s; reflexivity.
  - simpl notify. rewrite exec_bind, exec_gets, eval_gets, exec_bind.
    destruct (nth_error (statusCallbacks s) k) as [callback|] eqn:E.
    + unfold call_status_callback. rewrite exec_bind, exec_modify.
      rewrite (Hinert callback) by (eapply nth_error_In; exact E).
      change (exec (forEach [] unsubscribeStatus) ?x) with x.
      set (s1 := set_statusCalls (statusCalls s ++ [(callback, statuses)]) s).
      assert (Hc : statusCallbacks s1 = statusCallbacks s) by reflexivity.
      rewrite IH by (rewrite Hc; exact Hinert). rewrite Hc.
      rewrite (skipn_nth_error k _ callback E).
      subst s1. destruct s; simpl. now rewrite <- app_assoc.
    + rewrite exec_ret. apply nth_error_None in E.
      rewrite IH by exact Hinert.
      rewrite (skipn_all2 (statusCallbacks s)) by lia.
      rewrite (skipn_all2 (n := k)) by exact E.
      now rewrite !firstn_nil.
Qed.

(** X4: when the status callbacks leave their list alone while they
    run, a status update stores the new status under the name of the
    exchange, leaves the status of every other exchange alone, and hands
    the whole new table once to every status callback, in the order of
    registration. *)
Theorem status_update_broadcast exchange state latency error attempts s :
  (forall callback, In callback (statusCallbacks s) ->
                    status_callback host callback = []) ->
  let s' := exec (updateConnectionStatus host exchange state latency error attempts) s in
  JsMap.get exchange (connectionStatus s')
  = Some (status_of exchange state (clock s) latency error attempts)
  /\ (forall other, other <> exchange ->
        JsMap.get other (connectionStatus s') = JsMap.get other (connectionStatus s))
  /\ statusCalls s'
     = statusCalls s
       ++ map (fun callback => (callback, JsMap.values (connectionStatus s')))
              (statusCallbacks s)
  /\ statusCallbacks s' = statusCallbacks s
  /\ priceCalls s' = priceCalls s.
Proof.
  intros Hinert s'.
  destruct (updateConnectionStatus_frame host exchange state latency error attempts s)
    as (Ht & _ & _ & _ & _ & _ & Hp & _).
  fold s' in Ht, Hp. rewrite Ht.
  split; [apply get_set_same|].
  split; [intros other Hne; now apply get_set_other|].
  split; [|split; [|exact Hp]]; subst s'; unfold updateConnectionStatus;
    rewrite exec_bind, exec_gets, eval_gets, exec_bind, exec_modify;
    rewrite exec_bind, exec_gets, eval_gets, exec_bind, exec_gets, eval_gets;
    rewrite notify_inert by exact Hinert; simpl;
    rewrite ?firstn_all; reflexivity.
Qed.

(** X5: when the status callbacks leave their list alone while they
    run, a callback that registers for status updates is handed the
    current table at once, it alone, and is called again by the next
    status update, whichever it is. *)
Theorem status_subscriber_is_served callback exchange state latency error attempts s :
  (forall registered, In registered (statusCallbacks s ++ [callback]) ->
                      status_callback host registered = []) ->
  let s1 := exec (onStatusUpdate host callback) s in
  let s2 := exec (updateConnectionStatus host exchange state latency error attempts) s1 in
  statusCalls s1 = statusCalls s ++ [(callback, JsMap.values (connectionStatus s))]
  /\ statusCallbacks s1 = statusCallbacks s ++ [callback]
  /\ exists before,
       statusCalls s2
       = statusCalls s1 ++ before ++ [(callback, JsMap.values (connectionStatus s2))].
Proof.
  intros Hinert s1 s2.
  assert (E1 : s1 = set_statusCalls
                      (statusCalls s ++ [(callback, JsMap.values (connectionStatus s))])
                      (set_statusCallbacks (statusCallbacks s ++ [callback]) s)).
  { subst s1. unfold onStatusUpdate.
    rewrite exec_bind, exec_modify, exec_bind, exec_gets, eval_gets.
    unfold call_status_callback. rewrite exec_bind, exec_modify.
    rewrite (Hinert callback) by (apply in_or_app; right; now left).
    reflexivity. }
  assert (H1 : statusCalls s1
               = statusCalls s ++ [(callback, JsMap.values (connectionStatus s))])
    by (rewrite E1; reflexivity).
  assert (H2 : statusCallbacks s1 = statusCallbacks s ++ [callback])
    by (rewrite E1; reflexivity).
  split; [exact H1|]. split; [exact H2|].
  destruct (updateConnectionStatus_frame host exchange state latency error attempts s1)
    as (Ht & _).
  fold s2 in Ht. rewrite Ht. subst s2. unfold updateConnectionStatus.
  rewrite exec_bind, exec_gets, eval_gets, exec_bind, exec_modify.
  rewrite exec_bind, exec_gets, eval_gets, exec_bind, exec_gets, eval_gets.
  rewrite notify_inert by (simpl; rewrite H2; exact Hinert).
  simpl. rewrite firstn_all, H2, map_app. simpl map. eexists. reflexivity.
Qed.

End StatusBroadcast.

Lemma status_update_broadcast_witness :
  statusCalls (exec (updateConnectionStatus plain_host "binance" CONNECTED zero None 0)
                 two_consumers)
  = statusCalls two_consumers
    ++ map (fun callback =>
              (callback,
               JsMap.values
                 (connectionStatus
                    (exec (updateConnectionStatus plain_host "binance" CONNECTED zero
                             None 0) two_consumers))))
           [2%nat; 4%nat].
Proof.
  destruct (status_update_broadcast plain_host "binance" CONNECTED zero None 0
              two_consumers (fun callback _ => eq_refl)) as (_ & _ & H & _).
  exact H.
Defined.

Lemma status_subscriber_is_served_witness :
  statusCallbacks (exec (onStatusUpdate plain_host 5) two_consumers)
  = [2%nat; 4%nat; 5%nat].
Proof.
  destruct (status_subscriber_is_served plain_host 5 "binance" CONNECTED zero None 0
              two_consumers (fun registered _ => eq_refl)) as (_ & H & _).
  exact H.
Defined.

(** *** Ingest and delivery *)

Lemma exec_forEach_nil_unit {A} (f : A -> M unit) s : exec (forEach [] f) s = s.
Proof. reflexivity. Qed.

Lemma same_outside_registry_refl s : same_outside_registry s s.
Proof. split; reflexivity. Qed.

Lemma same_outside_registry_trans s1 s2 s3 :
  same_outside_registry s1 s2 -> same_outside_registry s2 s3 ->
  same_outside_registry s1 s3.
Proof. intros [] []. split; congruence. Qed.

Lemma unsubscribe_outside symbol callback s :
  same_outside_registry s (exec (unsubscribe symbol callback) s).
Proof.
  unfold unsubscribe. rewrite exec_modify.
  destruct (JsMap.get symbol (priceCallbacks s)) as [callbacks|];
    [destruct (indexOf callback callbacks)|]; split; reflexivity.
Qed.

Section Delivery.
Variable host : Host.

Lemma call_outside symbol callback p s :
  same_outside_registry s (exec (call_price_callback host symbol callback p) s).
Proof.
  unfold call_price_callback. rewrite exec_bind, exec_modify.
  apply same_outside_registry_trans
    with (set_priceCalls (priceCalls s ++ [(symbol, callback, p)]) s);
    [split; reflexivity|].
  generalize (set_priceCalls (priceCalls s ++ [(symbol, callback, p)]) s).
  induction (price_callback host callback) as [|u r IH]; intros s0;
    [apply same_outside_registry_refl|].
  rewrite exec_forEach_cons.
  eapply same_outside_registry_trans; [apply unsubscribe_outside|apply IH].
Qed.

Lemma deliver_outside len k symbol p s :
  same_outside_registry s (exec (deliver host len k symbol p) s).
Proof.
  revert k s. induction len as [|len IH]; intros k s;
    [apply same_outside_registry_refl|].
  simpl deliver. rewrite exec_bind, exec_gets, eval_gets, exec_bind.
  eapply same_outside_registry_trans; [|apply IH].
  destruct (nth_error _ k); [apply call_outside|apply same_outside_registry_refl].
Qed.

Lemma handlePriceUpdate_outside update s :
  same_outside_registry (ingested update s) (exec (handlePriceUpdate host update) s).
Proof.
  unfold handlePriceUpdate. rewrite exec_bind, exec_modify.
  fold (ingested update s).
  rewrite exec_bind, exec_gets, eval_gets, exec_bind, aggregatePriceData_exec.
  destruct (eval (aggregatePriceData (symbol update)) (ingested update s));
    [|apply same_outside_registry_refl].
  destruct (JsMap.get _ _); [apply deliver_outside|apply same_outside_registry_refl].
Qed.

(** X6: ingesting a tick stores it under the key of its symbol and
    source, where it replaces the tick that source had for the symbol,
    and changes no other entry of the cache; sockets, timers, the
    connection and status tables and the status callbacks stay as they
    are, whatever the price callbacks do. *)
Theorem ingest_supersedes_same_source update s :
  let s' := exec (handlePriceUpdate host update) s in
  let key := (symbol update ++ "_" ++ source update)%string in
  JsMap.get key (priceCache s') = Some update
  /\ (forall other, other <> key ->
        JsMap.get other (priceCache s') = JsMap.get other (priceCache s))
  /\ sockets s' = sockets s /\ timers s' = timers s
  /\ connections s' = connections s /\ connectionStatus s' = connectionStatus s
  /\ statusCallbacks s' = statusCallbacks s /\ statusCalls s' = statusCalls s.
Proof.
  intros s' key. destruct (handlePriceUpdate_outside update s) as [].
  fold s' in sor_priceCache0. subst s'. rewrite sor_priceCache0.
  unfold ingested in *. simpl in *.
  split; [apply get_set_same|].
  split; [intros other Hne; now apply get_set_other|].
  repeat split; assumption.
Qed.

(** With callbacks that leave the registry alone, the loop calls the
    callbacks of the list from index [k] on, one after the other. *)
Lemma deliver_inert len k symbol p s :
  (forall callback, In callback (callbacks_of symbol s) ->
                    price_callback host callback = []) ->
  exec (deliver host len k symbol p) s
  = set_priceCalls
      (priceCalls s
       ++ map (fun callback => (symbol, callback, p))
              (firstn len (skipn k (callbacks_of symbol s)))) s.
Proof.
  revert k s. induction len as [|len IH]; intros k s Hinert.
  - simpl. rewrite app_nil_r. destruct s; reflexivity.
  - simpl deliver. rewrite exec_bind, exec_gets, eval_gets, exec_bind.
    fold (callbacks_of symbol s).
    destruct (nth_error (callbacks_of symbol s) k) as [callback|] eqn:E.
    + unfold call_price_callback. rewrite exec_bind, exec_modify.
      rewrite (Hinert callback) by (eapply nth_error_In; exact E).
      rewrite exec_forEach_nil_unit.
      set (s1 := set_priceCalls (priceCalls s ++ [(symbol, callback, p)]) s).
      assert (Hc : callbacks_of symbol s1 = callbacks_of symbol s) by reflexivity.
      rewrite IH by (rewrite Hc; exact Hinert). rewrite Hc.
      assert (Hs : skipn k (callbacks_of symbol s)
                   = callback :: skipn (S k) (callbacks_of symbol s)).
      { clear -E. revert k E. induction (callbacks_of symbol s) as [|x r IHl];
          intros [|k] E; simpl in *; try discriminate.
        - now inversion E.
        - apply IHl in E. exact E. }
      rewrite Hs. subst s1. destruct s; simpl. now rewrite <- app_assoc.
    + rewrite exec_ret. apply nth_error_None in E.
      rewrite IH by exact Hinert.
      rewrite (skipn_all2 (callbacks_of symbol s)) by lia.
      rewrite (skipn_all2 (n := k)) by exact E.
      now rewrite !firstn_nil.
Qed.

(** X7: when the callbacks of the symbol's list leave the registry
    alone, an ingest whose best price is not [null] calls every callback
    of the list exactly once, in the order of registration, with that
    best price; it calls no callback when the best price is [null]. *)
Theorem delivery_in_registration_order update s :
  let symbol := symbol update in
  (forall callback, In callback (callbacks_of symbol s) ->
                    price_callback host callback = []) ->
  let s' := exec (handlePriceUpdate host update) s in
  priceCalls s'
  = priceCalls s
    ++ match eval (aggregatePriceData symbol) (ingested update s) with
       | Some bestPrice =>
           map (fun callback => (symbol, callback, bestPrice)) (callbacks_of symbol s)
       | None => []
       end
  /\ priceCallbacks s' = priceCallbacks s.
Proof.
  intros sym Hinert s'. subst s' sym. unfold handlePriceUpdate.
  rewrite exec_bind, exec_modify. fold (ingested update s).
  rewrite exec_bind, exec_gets, eval_gets, exec_bind, aggregatePriceData_exec.
  destruct (eval (aggregatePriceData (symbol update)) (ingested update s))
    as [bestPrice|]; [|simpl; rewrite app_nil_r; auto].
  change (JsMap.get (symbol update) (priceCallbacks (ingested update s)))
    with (JsMap.get (symbol update) (priceCallbacks s)).
  destruct (JsMap.get (symbol update) (priceCallbacks s)) as [callbacks|] eqn:E.
  - rewrite deliver_inert by exact Hinert.
    change (callbacks_of (symbol update) (ingested update s))
      with (callbacks_of (symbol update) s).
    unfold callbacks_of. rewrite E. simpl skipn. rewrite firstn_all.
    split; reflexivity.
  - rewrite exec_ret. unfold callbacks_of. rewrite E. simpl.
    rewrite app_nil_r. auto.
Qed.

End Delivery.

Lemma delivery_in_registration_order_witness :
  priceCalls
    (exec (handlePriceUpdate plain_host (tick "BTC" "binance" 50000 95))
       (exec (run plain_host [OnPriceUpdate "BTC" 1; OnPriceUpdate "BTC" 2; Tick 3000])
          initial))
  = [("BTC", 1%nat, tick "BTC" "binance" 50000 95);
     ("BTC", 2%nat, tick "BTC" "binance" 50000 95)]
  /\ priceCallbacks
       (exec (handlePriceUpdate plain_host (tick "BTC" "binance" 50000 95))
          (exec (run plain_host [OnPriceUpdate "BTC" 1; OnPriceUpdate "BTC" 2; Tick 3000])
             initial))
     = [("BTC", [1; 2]%nat)].
Proof.
  pose proof (delivery_in_registration_order plain_host
                (tick "BTC" "binance" 50000 95)
                (exec (run plain_host
                         [OnPriceUpdate "BTC" 1; OnPriceUpdate "BTC" 2; Tick 3000])
                   initial)
                (fun callback _ => eq_refl)) as [H1 H2].
  split.
  - rewrite H1. vm_compute. reflexivity.
  - rewrite H2. vm_compute. reflexivity.
Defined.

(** *** Connections *)

Lemma scheduleReconnection_exec e symbols s :
  option_map reconnectAttempts (JsMap.get (name e) (connectionStatus s)) = Some 0 ->
  exec (scheduleReconnection e symbols) s
  = set_reconnectTimers
      (JsMap.set (name e) (List.length (timers s)) (reconnectTimers s))
      (set_timers (timers s ++ [first_retry e symbols]) s).
Proof.
  intros Hst. unfold scheduleReconnection.
  rewrite exec_bind, exec_gets, eval_gets, exec_bind, exec_gets, eval_gets.
  rewrite exec_bind, !exec_modify.
  destruct (JsMap.get (name e) (connectionStatus s)) as [st|]; [|discriminate].
  simpl in Hst. inversion Hst as [H0]. rewrite H0. reflexivity.
Qed.

Section Connections.
Variable host : Host.

Lemma connectToExchange_fields e symbols s :
  WebSocket_throws host (url e) = None ->
  let s' := exec (connectToExchange host e symbols) s in
  sockets s' = sockets s ++ [connecting symbols e]
  /\ connections s' = JsMap.set (name e) (List.length (sockets s)) (connections s)
  /\ connectionStatus s'
     = JsMap.set (name e) (status_of (name e) CONNECTING (clock s) zero None 0)
         (connectionStatus s)
  /\ timers s' = timers s /\ reconnectTimers s' = reconnectTimers s
  /\ clock s' = clock s /\ priceCalls s' = priceCalls s.
Proof.
  intros Hc s'. subst s'. unfold connectToExchange.
  rewrite exec_bind, Hc, exec_bind, exec_gets, eval_gets, exec_bind, !exec_modify.
  destruct (updateConnectionStatus_frame host (name e) CONNECTING zero None 0 s)
    as (Ht & Hs & Hn & Hm & Hr & Hk & Hp & _).
  simpl. rewrite Ht, Hs, Hn, Hm, Hr, Hk, Hp. repeat split; reflexivity.
Qed.

Lemma sorted_exchanges : sort by_priority exchanges = [binance; coinbase; kraken].
Proof. reflexivity. Qed.

(** X8: when the constructor of the sockets does not throw, [subscribe]
    opens three new sockets, for Binance, Coinbase and Kraken in this
    order, each connecting and holding the whole list of requested
    symbols; the connection table then names the new sockets, whatever
    it named before, every exchange has the status CONNECTING stamped
    with the time of the call, and no timer is set. *)
Theorem subscribe_opens_every_exchange symbols s :
  constructs_sockets host ->
  let s' := exec (subscribe host symbols) s in
  let n := List.length (sockets s) in
  sockets s' = sockets s ++ map (connecting symbols) [binance; coinbase; kraken]
  /\ connections s'
     = JsMap.set "kraken" (n + 2)%nat
         (JsMap.set "coinbase" (n + 1)%nat (JsMap.set "binance" n (connections s)))
  /\ (forall e, In e exchanges ->
        JsMap.get (name e) (connectionStatus s')
        = Some (status_of (name e) CONNECTING (clock s) zero None 0))
  /\ timers s' = timers s /\ reconnectTimers s' = reconnectTimers s
  /\ priceCalls s' = priceCalls s.
Proof.
  intros Hc s' n. subst s' n. unfold subscribe. rewrite sorted_exchanges.
  rewrite !exec_forEach_cons. simpl forEach. rewrite exec_ret.
  destruct (connectToExchange_fields binance symbols s)
    as (Hs1 & Hn1 & Ht1 & Hm1 & Hr1 & Hk1 & Hp1);
    [apply Hc; simpl; auto|].
  set (s1 := exec (connectToExchange host binance symbols) s) in *.
  destruct (connectToExchange_fields coinbase symbols s1)
    as (Hs2 & Hn2 & Ht2 & Hm2 & Hr2 & Hk2 & Hp2);
    [apply Hc; simpl; auto|].
  set (s2 := exec (connectToExchange host coinbase symbols) s1) in *.
  destruct (connectToExchange_fields kraken symbols s2)
    as (Hs3 & Hn3 & Ht3 & Hm3 & Hr3 & Hk3 & Hp3);
    [apply Hc; simpl; auto|].
  set (s3 := exec (connectToExchange host kraken symbols) s2) in *.
  split; [rewrite Hs3, Hs2, Hs1, <- !app_assoc; reflexivity|].
  split.
  { rewrite Hn3, Hn2, Hn1, Hs2, Hs1, !length_app. simpl List.length.
    replace (List.length (sockets s) + 1 + 1)%nat
      with (List.length (sockets s) + 2)%nat by lia.
    reflexivity. }
  split.
  { intros e He. rewrite Ht3, Ht2, Ht1, Hk2, Hk1.
    destruct He as [<-|[<-|[<-|[]]]]; cbn [name binance coinbase kraken].
    - rewrite !get_set_other by discriminate. apply get_set_same.
    - rewrite get_set_other by discriminate. apply get_set_same.
    - apply get_set_same. }
  repeat split; congruence.
Qed.

Lemma filter_some_existsb {A} (f : A -> bool) l :
  Nat.ltb 0 (List.length (filter f l)) = existsb f l.
Proof.
  induction l as [|x r IH]; [reflexivity|]. simpl.
  destruct (f x); [reflexivity|exact IH].
Qed.

Lemma mapped_symbols_natives e symbols :
  In e exchanges -> mapped_symbols (symbolMapping e) symbols = natives e symbols.
Proof.
  intros He. induction symbols as [|symbol r IH]; [reflexivity|].
  simpl. rewrite IH.
  destruct (mapping_get symbol (symbolMapping e)) as [native|] eqn:E;
    [|reflexivity].
  destruct (String.eqb_spec native ""); [|reflexivity].
  exfalso. subst native. apply mapping_get_In in E.
  destruct He as [<-|[<-|[<-|[]]]]; simpl in E;
    repeat (destruct E as [E|E]; [discriminate|]); exact E.
Qed.

Lemma natives_filter e symbols :
  natives e (filter (supports e) symbols) = natives e symbols.
Proof.
  induction symbols as [|symbol r IH]; [reflexivity|].
  simpl. unfold supports at 1.
  destruct (mapping_get symbol (symbolMapping e)) as [native|] eqn:E.
  - simpl. rewrite E, IH. reflexivity.
  - exact IH.
Qed.

Lemma listed_subscriptionMessage e now symbols :
  In e exchanges ->
  listed (subscriptionMessage e now symbols) = map (spelled e) (natives e symbols).
Proof.
  intros He. rewrite <- (mapped_symbols_natives e symbols He).
  destruct He as [<-|[<-|[<-|[]]]]; cbn; try reflexivity.
  all: now rewrite map_id.
Qed.

(** X9: when a connecting socket of a configured exchange opens and no
    requested symbol names a member of [Object.prototype], the exchange
    becomes CONNECTED and the socket is sent one subscription message if
    the exchange has a native name for one of the requested symbols at
    least, and nothing otherwise.  The message lists, in the order of
    the request, the native names of the requested symbols the exchange
    has a name for, in lower case and followed by [@ticker] for Binance;
    no close is called and no other socket changes. *)
Theorem open_subscribes_supported_symbols ws w s :
  nth_error (sockets s) ws = Some w ->
  readyState w = WS_CONNECTING ->
  In (ws_exchange w) exchanges ->
  own_names (ws_symbols w) = true ->
  let e := ws_exchange w in
  let requested := ws_symbols w in
  let s' := exec (step host (WsOpen ws)) s in
  let message := subscriptionMessage e (clock s) (filter (supports e) requested) in
  nth_error (sockets s') ws
  = Some {| ws_exchange := e; ws_symbols := requested; readyState := WS_OPEN;
            closeCalls := closeCalls w;
            sent := sent w ++ (if existsb (supports e) requested then [message] else []) |}
  /\ listed message = map (spelled e) (natives e requested)
  /\ (existsb (supports e) requested = true <-> natives e requested <> [])
  /\ (forall other, other <> ws ->
        nth_error (sockets s') other = nth_error (sockets s) other)
  /\ JsMap.get (name e) (connectionStatus s')
     = Some (status_of (name e) CONNECTED (clock s) zero None 0).
Proof.
  intros Hw Hrs He _ e requested s' message.
  assert (Hnat : existsb (supports e) requested = true <-> natives e requested <> []).
  { clear. induction requested as [|symbol r IH]; simpl.
    - split; [discriminate|congruence].
    - unfold supports at 1.
      destruct (mapping_get symbol (symbolMapping e)); simpl;
        [split; [discriminate|reflexivity]|exact IH]. }
  assert (Hlisted : listed message = map (spelled e) (natives e requested))
    by (subst message; rewrite listed_subscriptionMessage by exact He;
        now rewrite natives_filter).
  subst s'. unfold step.
  rewrite exec_bind, exec_gets, eval_gets, Hw, Hrs, exec_bind, exec_modify.
  unfold onopen. rewrite exec_bind. fold e requested. fold (supports e).
  rewrite filter_some_existsb.
  set (s0 := set_sockets (update_nth ws (with_readyState WS_OPEN) (sockets s)) s).
  destruct (updateConnectionStatus_frame host (name e) CONNECTED zero None 0 s0)
    as (Ht & Hs & _ & _ & _ & Hk & _).
  set (s1 := exec (updateConnectionStatus host (name e) CONNECTED zero None 0) s0) in *.
  assert (Hopen : nth_error (sockets s1) ws = Some (with_readyState WS_OPEN w))
    by (rewrite Hs; subst s0; simpl; rewrite nth_error_update_nth, Nat.eqb_refl, Hw;
        reflexivity).
  assert (Hother : forall other, other <> ws ->
                     nth_error (sockets s1) other = nth_error (sockets s) other).
  { intros other Hne. rewrite Hs. subst s0. simpl.
    rewrite nth_error_update_nth.
    destruct (Nat.eqb_spec other ws); [contradiction|reflexivity]. }
  assert (Hstatus : JsMap.get (name e) (connectionStatus s1)
                    = Some (status_of (name e) CONNECTED (clock s) zero None 0))
    by (rewrite Ht; apply get_set_same).
  destruct (existsb (supports e) requested) eqn:Ex.
  - rewrite exec_bind, exec_gets, eval_gets. unfold ws_send. rewrite exec_modify.
    rewrite Hk. change (clock s0) with (clock s). fold message. simpl.
    split.
    { rewrite nth_error_update_nth, Nat.eqb_refl, Hopen. destruct w; reflexivity. }
    split; [exact Hlisted|]. split; [exact Hnat|]. split; [|exact Hstatus].
    intros other Hne. rewrite nth_error_update_nth.
    destruct (Nat.eqb_spec other ws); [contradiction|]. now apply Hother.
  - rewrite exec_ret. split.
    { rewrite Hopen. rewrite app_nil_r. destruct w; reflexivity. }
    split; [exact Hlisted|]. split; [exact Hnat|]. split; [exact Hother|exact Hstatus].
Qed.

(** X10: when a socket that is not closed yet closes, the exchange
    becomes DISCONNECTED and the socket stays in the connection table.
    With the code 1000 no timer is set; with any other code exactly one
    timer is set, for the first attempt after 1000 ms, and recorded in
    the table of reconnect timers under the name of the exchange. *)
Theorem close_schedules_one_retry ws w code s :
  nth_error (sockets s) ws = Some w ->
  readyState w <> WS_CLOSED ->
  let e := ws_exchange w in
  let s' := exec (step host (WsClose ws code)) s in
  sockets s' = update_nth ws (with_readyState WS_CLOSED) (sockets s)
  /\ connections s' = connections s
  /\ JsMap.get (name e) (connectionStatus s')
     = Some (status_of (name e) DISCONNECTED (clock s) zero None 0)
  /\ timers s'
     = timers s ++ (if code =? 1000 then [] else [first_retry e (ws_symbols w)])
  /\ reconnectTimers s'
     = (if code =? 1000 then reconnectTimers s
        else JsMap.set (name e) (List.length (timers s)) (reconnectTimers s)).
Proof.
  intros Hw Hrs e s'. subst s'. unfold step.
  rewrite exec_bind, exec_gets, eval_gets, Hw.
  set (s0 := set_sockets (update_nth ws (with_readyState WS_CLOSED) (sockets s)) s).
  assert (Hgo : exec match readyState w with
                     | WS_CLOSED => ret tt
                     | _ => modify (fun s => set_sockets
                                      (update_nth ws (with_readyState WS_CLOSED) (sockets s)) s) ;;
                            onclose host (ws_exchange w) (ws_symbols w) code
                     end s
                = exec (onclose host e (ws_symbols w) code) s0)
    by (destruct (readyState w); try congruence;
        now rewrite exec_bind, exec_modify).
  rewrite Hgo. unfold onclose. rewrite exec_bind.
  destruct (updateConnectionStatus_frame host (name e) DISCONNECTED zero None 0 s0)
    as (Ht & Hs & Hn & Hm & Hr & Hk & _).
  set (s1 := exec (updateConnectionStatus host (name e) DISCONNECTED zero None 0) s0) in *.
  assert (Hstatus : JsMap.get (name e) (connectionStatus s1)
                    = Some (status_of (name e) DISCONNECTED (clock s) zero None 0))
    by (rewrite Ht; apply get_set_same).
  destruct (code =? 1000) eqn:Ec; simpl negb; cbv iota.
  - rewrite exec_ret, app_nil_r. repeat split; assumption.
  - rewrite scheduleReconnection_exec by (rewrite Hstatus; reflexivity). simpl.
    rewrite Hs, Hn, Hm, Hr. repeat split; try reflexivity. exact Hstatus.
Qed.

End Connections.

Lemma subscribe_opens_every_exchange_witness :
  sockets subscribed_to_BTC = map (connecting ["BTC"]) [binance; coinbase; kraken]
  /\ connections subscribed_to_BTC
     = [("binance", 0%nat); ("coinbase", 1%nat); ("kraken", 2%nat)].
Proof.
  destruct (subscribe_opens_every_exchange plain_host ["BTC"] initial
              (fun e _ => eq_refl)) as (H1 & H2 & _).
  split; [exact H1|exact H2].
Defined.

Lemma open_subscribes_supported_symbols_witness :
  option_map sent
    (nth_error (sockets (exec (step plain_host (WsOpen 0)) subscribed_to_BTC)) 0)
  = Some [BinanceSubscribe ["btcusdt@ticker"] zero].
Proof.
  assert (Hw : nth_error (sockets subscribed_to_BTC) 0 = Some (connecting ["BTC"] binance))
    by (vm_compute; reflexivity).
  destruct (open_subscribes_supported_symbols plain_host 0 (connecting ["BTC"] binance)
              subscribed_to_BTC Hw eq_refl (or_introl eq_refl) eq_refl) as (H & _).
  rewrite H. vm_compute. reflexivity.
Defined.

Lemma close_schedules_one_retry_witness :
  timers (exec (step plain_host (WsClose 0 1006)) subscribed_to_BTC)
  = [first_retry binance ["BTC"]]
  /\ timers (exec (step plain_host (WsClose 0 1000)) subscribed_to_BTC) = [].
Proof.
  assert (Hw : nth_error (sockets subscribed_to_BTC) 0 = Some (connecting ["BTC"] binance))
    by (vm_compute; reflexivity).
  assert (Hrs : readyState (connecting ["BTC"] binance) <> WS_CLOSED)
    by (simpl; discriminate).
  split.
  - destruct (close_schedules_one_retry plain_host 0 (connecting ["BTC"] binance) 1006
                subscribed_to_BTC Hw Hrs) as (_ & _ & _ & H & _).
    rewrite H. vm_compute. reflexivity.
  - destruct (close_schedules_one_retry plain_host 0 (connecting ["BTC"] binance) 1000
                subscribed_to_BTC Hw Hrs) as (_ & _ & _ & H & _).
    rewrite H. vm_compute. reflexivity.
Defined.

(** ** Every history keeps the service well formed *)

Lemma preserves_ret {A} P (a : A) : preserves P (ret a).
Proof. intros s H. now rewrite exec_ret. Qed.

Lemma preserves_gets {A} P (f : Service -> A) : preserves P (gets f).
Proof. intros s H. now rewrite exec_gets. Qed.

Lemma preserves_bind {A B} P (m : M A) (k : A -> M B) :
  preserves P m -> (forall a, preserves P (k a)) -> preserves P (mbind m k).
Proof. intros Hm Hk s H. rewrite exec_bind. apply Hk, Hm, H. Qed.

Lemma preserves_modify P f : (forall s, P s -> P (f s)) -> preserves P (modify f).
Proof. intros Hf s H. rewrite exec_modify. now apply Hf. Qed.

Lemma preserves_forEach {A} P (l : list A) (f : A -> M unit) :
  (forall x, In x l -> preserves P (f x)) -> preserves P (forEach l f).
Proof.
  induction l as [|x r IH]; intros Hf s H; [exact H|].
  rewrite exec_forEach_cons. apply IH.
  - intros y Hy. apply Hf. now right.
  - apply Hf; [now left|exact H].
Qed.

Lemma wf_frame s s' :
  sockets s' = sockets s -> timers s' = timers s ->
  priceCache s' = priceCache s -> priceCalls s' = priceCalls s ->
  well_formed s -> well_formed s'.
Proof. intros H1 H2 H3 H4 []. split; congruence. Qed.

Ltac same_frame :=
  match goal with
  | H : well_formed ?s0 |- well_formed ?s1 =>
      apply (wf_frame s0 s1);
      [reflexivity|reflexivity|reflexivity|reflexivity|exact H]
  end.

Ltac keeps_frame :=
  apply preserves_modify; intros ?s ?H;
  repeat match goal with
         | |- context [match ?x with _ => _ end] => destruct x
         end;
  first [assumption|same_frame].

Lemma wf_initial : well_formed initial.
Proof. split; constructor. Qed.

Lemma wf_set_sockets s l :
  Forall (fun w => In (ws_exchange w) exchanges) l ->
  well_formed s -> well_formed (set_sockets l s).
Proof. intros Hl []. split; assumption. Qed.

Lemma wf_set_timers s l :
  Forall (fun t => In (t_exchange t) exchanges) l ->
  well_formed s -> well_formed (set_timers l s).
Proof. intros Hl []. split; assumption. Qed.

Lemma wf_update_socket ws f :
  (forall w, ws_exchange (f w) = ws_exchange w) ->
  preserves well_formed
    (modify (fun s => set_sockets (update_nth ws f (sockets s)) s)).
Proof.
  intros Hf. apply preserves_modify. intros s H. apply wf_set_sockets; [|exact H].
  apply update_nth_Forall; [|apply (wf_sockets s H)].
  intros w Hw. now rewrite Hf.
Qed.

Lemma wf_update_timer timer f :
  (forall t, t_exchange (f t) = t_exchange t) ->
  preserves well_formed
    (modify (fun s => set_timers (update_nth timer f (timers s)) s)).
Proof.
  intros Hf. apply preserves_modify. intros s H. apply wf_set_timers; [|exact H].
  apply update_nth_Forall; [|apply (wf_timers s H)].
  intros t Ht. now rewrite Hf.
Qed.

Lemma wf_updateConnectionStatus host exchange state latency error attempts :
  preserves well_formed (updateConnectionStatus host exchange state latency error attempts).
Proof.
  intros s H.
  destruct (updateConnectionStatus_frame host exchange state latency error attempts s)
    as (_ & Hs & _ & Ht & _ & _ & Hp & Hc & _).
  now apply (wf_frame s).
Qed.

Lemma wf_scheduleReconnection e symbols :
  In e exchanges -> preserves well_formed (scheduleReconnection e symbols).
Proof.
  intros He. unfold scheduleReconnection.
  apply preserves_bind; [apply preserves_gets|]. intros status.
  apply preserves_bind; [apply preserves_gets|]. intros timer.
  apply preserves_bind; [|intros _; keeps_frame].
  apply preserves_modify. intros s H. apply wf_set_timers; [|exact H].
  apply Forall_app. split; [apply (wf_timers s H)|].
  constructor; [exact He|constructor].
Qed.

(** *** Keys of the cache *)

Lemma set_Forall {V} (P : string * V -> Prop) k v m :
  P (k, v) -> Forall P m -> Forall P (JsMap.set k v m).
Proof.
  intros Hv. induction m as [|[k' v'] r IH]; intros H; simpl.
  - constructor; [exact Hv|constructor].
  - inversion H; subst. destruct (String.eqb k k'); constructor; auto.
Qed.

Lemma set_keys {V} k (v : V) m :
  In k (map fst m) -> map fst (JsMap.set k v m) = map fst m.
Proof.
  induction m as [|[k' v'] r IH]; simpl; [contradiction|].
  intros Hin. destruct (String.eqb_spec k k'); simpl; [now subst|].
  f_equal. apply IH. destruct Hin; [congruence|assumption].
Qed.

Lemma set_keys_fresh {V} k (v : V) m :
  ~ In k (map fst m) -> map fst (JsMap.set k v m) = map fst m ++ [k].
Proof.
  induction m as [|[k' v'] r IH]; simpl; [reflexivity|].
  intros Hin. destruct (String.eqb_spec k k'); simpl; [subst; tauto|].
  f_equal. apply IH. tauto.
Qed.

Lemma set_NoDup {V} k (v : V) m :
  NoDup (map fst m) -> NoDup (map fst (JsMap.set k v m)).
Proof.
  intros H. destruct (in_dec string_dec k (map fst m)) as [Hin|Hin].
  - now rewrite set_keys.
  - rewrite set_keys_fresh by exact Hin.
    apply NoDup_app; [exact H|repeat constructor; auto|].
    intros x Hx [<-|[]]. contradiction.
Qed.

Lemma prefix_symbol a b c :
  no_underscore a = true -> no_underscore b = true ->
  starts_with (a ++ "_")%string (b ++ "_" ++ c)%string = true -> a = b.
Proof.
  unfold starts_with. revert b.
  induction a as [|x a IH]; intros [|y b];
    cbn [String.append String.prefix no_underscore].
  - reflexivity.
  - intros _ Hb. destruct (ascii_dec "_" y) as [E|]; [|discriminate].
    subst y. rewrite Ascii.eqb_refl in Hb. discriminate.
  - intros Ha _. destruct (ascii_dec x "_") as [E|]; [|discriminate].
    subst x. rewrite Ascii.eqb_refl in Ha. discriminate.
  - intros Ha Hb. apply andb_true_iff in Ha, Hb.
    destruct (ascii_dec x y) as [E|]; [|discriminate].
    subst y. intros H. f_equal. now apply IH.
Qed.

Lemma supported_no_underscore e symbol :
  In e exchanges -> supports e symbol = true -> no_underscore symbol = true.
Proof.
  intros He. unfold supports.
  destruct (mapping_get symbol (symbolMapping e)) as [native|] eqn:E;
    [|discriminate].
  intros _. apply mapping_get_In in E.
  destruct He as [<-|[<-|[<-|[]]]]; simpl in E;
    repeat (destruct E as [E|E]; [inversion E; reflexivity|]); contradiction.
Qed.

Lemma confidence_of_exchange e latency :
  In e exchanges -> 70 <= calculateConfidence (name e) latency <= 100.
Proof.
  intros He. unfold calculateConfidence.
  destruct He as [<-|[<-|[<-|[]]]]; cbn [name binance coinbase kraken];
    destruct (latency <? 100)%float, (1000 <? latency)%float,
             (500 <? latency)%float; vm_compute; split; discriminate.
Qed.

Lemma fuse_cases sources best :
  fuse sources = Some best ->
  exists primary,
    In primary sources /\ symbol best = symbol primary
    /\ (best = primary
        \/ (source best = "aggregated"
            /\ confidence best = Z.min 95 (confidence primary + 10))).
Proof.
  unfold fuse. destruct (Nat.eqb (List.length sources) 0); [discriminate|].
  pose proof (sort_Permutation by_confidence sources) as Hperm.
  destruct (sort by_confidence sources) as [|primary rest]; [discriminate|].
  assert (Hin : In primary sources)
    by (eapply Permutation_in; [exact Hperm|now left]).
  cbv zeta. destruct (Nat.ltb 1 _).
  - destruct (0.005 <? _)%float; intros H; inversion H; subst best;
      exists primary; simpl; auto.
  - intros H; inversion H; subst best. exists primary. auto.
Qed.

(** What the aggregator returns for the symbol of a tick of an exchange
    is fit for the callbacks of that symbol. *)
Lemma aggregate_deliverable sym best s :
  Forall cached (priceCache s) ->
  (exists e, In e exchanges /\ supports e sym = true) ->
  eval (aggregatePriceData sym) s = Some best ->
  forall callback, deliverable (sym, callback, best).
Proof.
  intros Hcache [e0 [He0 Hsym]] Hbest callback.
  change (fuse (collect sym (clock s) (priceCache s)) = Some best) in Hbest.
  apply fuse_cases in Hbest.
  destruct Hbest as [primary [Hin [Hs Hcase]]].
  apply collect_In in Hin. destruct Hin as [key [Hin [Hkey _]]].
  rewrite Forall_forall in Hcache. specialize (Hcache _ Hin).
  destruct Hcache as [Hk [e [He [Hsrc [Hsup Hconf]]]]].
  cbn [fst snd] in Hk, Hsrc, Hsup, Hconf.
  assert (Hsame : sym = symbol primary).
  { apply (prefix_symbol sym (symbol primary) (source primary)).
    - exact (supported_no_underscore e0 sym He0 Hsym).
    - exact (supported_no_underscore e (symbol primary) He Hsup).
    - rewrite <- Hk. exact Hkey. }
  unfold deliverable. cbn [fst snd].
  pose proof (confidence_of_exchange e (latency primary) He) as Hb.
  rewrite <- Hconf in Hb.
  destruct Hcase as [->|[Ha Hc]].
  - split; [now symmetry|]. split; [right; eauto|exact Hb].
  - split; [congruence|]. split; [left; exact Ha|]. rewrite Hc. lia.
Qed.

Lemma cached_key entry : cached entry -> In (fst entry) cache_keys.
Proof.
  intros [Hk [e [He [Hsrc [Hsup _]]]]]. rewrite Hk, Hsrc.
  unfold cache_keys. apply in_flat_map. exists e. split; [exact He|].
  unfold supports in Hsup.
  destruct (mapping_get (symbol (snd entry)) (symbolMapping e)) as [native|] eqn:E;
    [|discriminate].
  apply mapping_get_In in E. apply in_map_iff.
  exists (symbol (snd entry), native). split; [reflexivity|exact E].
Qed.

Section WellFormed.
Variable host : Host.

Lemma wf_connectToExchange e symbols :
  In e exchanges -> preserves well_formed (connectToExchange host e symbols).
Proof.
  intros He. unfold connectToExchange.
  apply preserves_bind; [apply wf_updateConnectionStatus|]. intros _.
  destruct (WebSocket_throws host (url e)).
  - apply preserves_bind; [apply wf_updateConnectionStatus|]. intros _.
    now apply wf_scheduleReconnection.
  - apply preserves_bind; [apply preserves_gets|]. intros ws.
    apply preserves_bind; [|intros _; keeps_frame].
    apply preserves_modify. intros s H. apply wf_set_sockets; [|exact H].
    apply Forall_app. split; [apply (wf_sockets s H)|].
    constructor; [exact He|constructor].
Qed.

Lemma wf_subscribe symbols : preserves well_formed (subscribe host symbols).
Proof.
  unfold subscribe. rewrite sorted_exchanges. apply preserves_forEach.
  intros e He. apply wf_connectToExchange. exact He.
Qed.

Lemma wf_unsubscribe sym callback :
  preserves well_formed (unsubscribe sym callback).
Proof. unfold unsubscribe. keeps_frame. Qed.

Lemma wf_call sym callback p :
  deliverable (sym, callback, p) ->
  preserves well_formed (call_price_callback host sym callback p).
Proof.
  intros Hd. unfold call_price_callback. apply preserves_bind.
  - apply preserves_modify. intros s []. split; try assumption.
    simpl. apply Forall_app. split; [assumption|].
    constructor; [exact Hd|constructor].
  - intros _. apply preserves_forEach. intros u _. apply wf_unsubscribe.
Qed.

Lemma wf_deliver len k sym p :
  (forall callback, deliverable (sym, callback, p)) ->
  preserves well_formed (deliver host len k sym p).
Proof.
  intros Hd. revert k. induction len as [|len IH]; intros k;
    [apply preserves_ret|].
  simpl deliver. apply preserves_bind; [apply preserves_gets|]. intros callbacks.
  apply preserves_bind; [|intros _; apply IH].
  destruct (nth_error _ k); [apply wf_call, Hd|apply preserves_ret].
Qed.

Lemma wf_handlePriceUpdate update :
  exchange_tick update -> preserves well_formed (handlePriceUpdate host update).
Proof.
  intros Htick s H. unfold handlePriceUpdate.
  rewrite exec_bind, exec_modify. fold (ingested update s).
  assert (H1 : well_formed (ingested update s)).
  { destruct H. split; simpl; try assumption.
    - apply set_Forall; [split; [reflexivity|exact Htick]|assumption].
    - now apply set_NoDup. }
  rewrite exec_bind, exec_gets, eval_gets, exec_bind, aggregatePriceData_exec.
  destruct (eval (aggregatePriceData (symbol update)) (ingested update s))
    as [best|] eqn:E; [|exact H1].
  destruct (JsMap.get _ _); [|exact H1].
  apply wf_deliver; [|exact H1].
  apply (aggregate_deliverable _ _ (ingested update s));
    [apply (wf_cache _ H1)| |exact E].
  destruct Htick as [e [He [_ [Hsup _]]]]. eauto.
Qed.

Lemma wf_onmessage e data lat :
  In e exchanges -> preserves well_formed (onmessage host e data lat).
Proof.
  intros He. unfold onmessage. destruct data as [data|]; [|apply preserves_ret].
  apply preserves_bind; [apply preserves_gets|]. intros now.
  destruct (messageParser _ _ _ _) as [[priceUpdate|]|] eqn:E;
    try apply preserves_ret.
  apply preserves_bind; [|intros _; apply wf_updateConnectionStatus].
  apply wf_handlePriceUpdate. exists e. cbn [source symbol latency confidence].
  destruct (messageParser_canonical _ _ _ _ _ He E) as [_ Hsup]. auto.
Qed.

Lemma wf_onopen ws e symbols : preserves well_formed (onopen host ws e symbols).
Proof.
  unfold onopen. apply preserves_bind; [apply wf_updateConnectionStatus|].
  intros _. destruct (Nat.ltb 0 _); [|apply preserves_ret].
  apply preserves_bind; [apply preserves_gets|]. intros now.
  unfold ws_send. apply wf_update_socket. intros w. reflexivity.
Qed.

Lemma wf_onclose e symbols code :
  In e exchanges -> preserves well_formed (onclose host e symbols code).
Proof.
  intros He. unfold onclose.
  apply preserves_bind; [apply wf_updateConnectionStatus|]. intros _.
  destruct (negb _); [now apply wf_scheduleReconnection|apply preserves_ret].
Qed.

Lemma wf_reconnect e symbols attempts :
  In e exchanges -> preserves well_formed (reconnect host e symbols attempts).
Proof.
  intros He. unfold reconnect.
  apply preserves_bind; [apply wf_updateConnectionStatus|]. intros _.
  now apply wf_connectToExchange.
Qed.

Lemma wf_disconnect : preserves well_formed disconnect.
Proof.
  unfold disconnect.
  apply preserves_bind; [apply preserves_gets|]. intros conns.
  apply preserves_bind.
  { apply preserves_forEach. intros ws _.
    apply preserves_bind; [apply preserves_gets|]. intros open.
    destruct open; [|apply preserves_ret].
    unfold ws_close. apply wf_update_socket. intros w. reflexivity. }
  intros _. apply preserves_bind; [apply preserves_gets|]. intros tms.
  apply preserves_bind.
  { apply preserves_forEach. intros timer _.
    unfold clearTimeout. apply wf_update_timer. intros t. reflexivity. }
  intros _. apply preserves_modify. intros s []. split; simpl;
    try assumption; constructor.
Qed.

Lemma socket_configured s ws w :
  well_formed s -> nth_error (sockets s) ws = Some w -> In (ws_exchange w) exchanges.
Proof.
  intros H E. apply nth_error_In in E.
  pose proof (wf_sockets s H) as Hs. rewrite Forall_forall in Hs. now apply Hs.
Qed.

Lemma wf_step a : preserves well_formed (step host a).
Proof.
  destruct a as [symbols|sym cb|sym cb|cb|cb| |now|ws|ws data lat|ws description|ws code|timer];
    simpl step.
  - apply wf_subscribe.
  - unfold onPriceUpdate. apply preserves_bind; [keeps_frame|intros _; keeps_frame].
  - apply wf_unsubscribe.
  - intros s H.
    destruct (onStatusUpdate_outside host cb s) as [_ _ _ _ Hc Hs Ht _ Hp].
    now apply (wf_frame s).
  - unfold unsubscribeStatus. keeps_frame.
  - apply wf_disconnect.
  - keeps_frame.
  - intros s H. rewrite exec_bind, exec_gets, eval_gets.
    destruct (nth_error (sockets s) ws) as [w|] eqn:E; [|exact H].
    destruct (readyState w); try exact H.
    revert s H E. intros s H _. revert s H.
    apply preserves_bind; [|intros _; apply wf_onopen].
    apply wf_update_socket. intros w0. reflexivity.
  - intros s H. rewrite exec_bind, exec_gets, eval_gets.
    destruct (nth_error (sockets s) ws) as [w|] eqn:E; [|exact H].
    pose proof (socket_configured s ws w H E) as He.
    destruct (readyState w); try exact H; now apply wf_onmessage.
  - intros s H. rewrite exec_bind, exec_gets, eval_gets.
    destruct (nth_error (sockets s) ws) as [w|] eqn:E; [|exact H].
    unfold onerror.
    destruct (readyState w); try exact H; now apply wf_updateConnectionStatus.
  - intros s H. rewrite exec_bind, exec_gets, eval_gets.
    destruct (nth_error (sockets s) ws) as [w|] eqn:E; [|exact H].
    pose proof (socket_configured s ws w H E) as He.
    assert (Hgo : preserves well_formed
                    (modify (fun s => set_sockets
                               (update_nth ws (with_readyState WS_CLOSED) (sockets s)) s) ;;
                     onclose host (ws_exchange w) (ws_symbols w) code)).
    { apply preserves_bind; [|intros _; now apply wf_onclose].
      apply wf_update_socket. intros w0. reflexivity. }
    destruct (readyState w); try exact H; now apply Hgo.
  - intros s H. rewrite exec_bind, exec_gets, eval_gets.
    destruct (nth_error (timers s) timer) as [t|] eqn:E; [|exact H].
    assert (He : In (t_exchange t) exchanges).
    { apply nth_error_In in E. pose proof (wf_timers s H) as Ht.
      rewrite Forall_forall in Ht. now apply Ht. }
    destruct (t_state t); try exact H.
    revert s H E. intros s H _. revert s H.
    apply preserves_bind; [|intros _; now apply wf_reconnect].
    apply wf_update_timer. intros t0. reflexivity.
Qed.

Lemma wf_run history : well_formed (exec (run host history) initial).
Proof.
  apply (preserves_forEach well_formed history (step host));
    [|apply wf_initial].
  intros a _. apply wf_step.
Qed.

(** X11: on every history of calls and events, for every host, a price
    callback registered for a symbol is handed ticks of that symbol
    only; the source of the tick is the name of a configured exchange or
    [aggregated], and its confidence lies between 70 and 100. *)
Theorem delivered_ticks_are_well_formed history sym callback p :
  In (sym, callback, p) (priceCalls (exec (run host history) initial)) ->
  symbol p = sym
  /\ (source p = "aggregated" \/ exists e, In e exchanges /\ source p = name e)
  /\ 70 <= confidence p <= 100.
Proof.
  intros Hin. pose proof (wf_calls _ (wf_run history)) as H.
  rewrite Forall_forall in H. exact (H _ Hin).
Qed.

(** X12: on every history of calls and events, for every host, the cache
    holds one entry at most for every symbol of every exchange, under the
    key made of the symbol, an underscore and the name of the exchange:
    it never holds more than 39 ticks. *)
Theorem cache_is_bounded history :
  let cache := priceCache (exec (run host history) initial) in
  NoDup (map fst cache)
  /\ (forall key p, In (key, p) cache ->
        key = (symbol p ++ "_" ++ source p)%string
        /\ exists e, In e exchanges /\ source p = name e
                     /\ supports e (symbol p) = true)
  /\ (List.length cache <= 39)%nat.
Proof.
  intros cache. pose proof (wf_run history) as H.
  pose proof (wf_keys _ H) as Hkeys. pose proof (wf_cache _ H) as Hcache.
  fold cache in Hkeys, Hcache. rewrite Forall_forall in Hcache.
  split; [exact Hkeys|]. split.
  - intros key p Hin. destruct (Hcache _ Hin) as [Hk [e [He [Hsrc [Hsup _]]]]].
    split; [exact Hk|eauto].
  - rewrite <- (length_map fst cache).
    change 39%nat with (List.length cache_keys).
    apply NoDup_incl_length; [exact Hkeys|].
    intros key Hin. apply in_map_iff in Hin.
    destruct Hin as [entry [<- Hin]]. apply cached_key, Hcache, Hin.
Qed.

End WellFormed.

Lemma delivered_ticks_are_well_formed_witness :
  symbol delivered_binance_tick = "BTC"
  /\ (source delivered_binance_tick = "aggregated"
      \/ exists e, In e exchanges /\ source delivered_binance_tick = name e)
  /\ 70 <= confidence delivered_binance_tick <= 100.
Proof.
  apply (delivered_ticks_are_well_formed plain_host priced_session "BTC" 7%nat).
  vm_compute. left. reflexivity.
Defined.

(** ** Confidence and latency *)

Lemma SFcompare_trans_lt a b c c1 c2 :
  SFcompare a b = Some c1 -> SFcompare b c = Some c2 ->
  c1 <> Gt -> c2 <> Gt -> (c1 = Lt \/ c2 = Lt) ->
  SFcompare a c = Some Lt.
Proof.
  destruct a as [sa|sa| |sa ma ea], b as [sb|sb| |sb mb eb],
           c as [sc|sc| |sc mc ec]; simpl;
    intros H1 H2 N1 N2 D; try discriminate;
    repeat match goal with s : bool |- _ => destruct s end; simpl in *;
    inversion H1 as [E1]; inversion H2 as [E2];
    try (subst; congruence); try (subst; destruct D; congruence).
  all: change (Pos.compare_cont Eq ?x ?y) with (Pos.compare x y) in *.
  all: destruct (Z.compare_spec ea eb), (Z.compare_spec eb ec),
                (Z.compare_spec ea ec);
    try lia; subst; simpl in *; try congruence;
    try (destruct D; congruence).
  all: destruct (Pos.compare_spec ma mb), (Pos.compare_spec mb mc),
                (Pos.compare_spec ma mc);
    try lia; subst; simpl in *; try congruence;
    try (destruct D; congruence).
Qed.

Lemma leb_ltb_trans (x y z : float) :
  (x <=? y)%float = true -> (y <? z)%float = true -> (x <? z)%float = true.
Proof.
  rewrite leb_spec, !ltb_spec. unfold SFleb, SFltb.
  destruct (SFcompare (Prim2SF x) (Prim2SF y)) as [c1|] eqn:E1; [|discriminate].
  destruct (SFcompare (Prim2SF y) (Prim2SF z)) as [c2|] eqn:E2; [|discriminate].
  intros H1 H2.
  rewrite (SFcompare_trans_lt _ _ _ c1 c2 E1 E2); [reflexivity| | |];
    destruct c1, c2; try discriminate; auto.
Qed.

Lemma ltb_leb_trans (x y z : float) :
  (x <? y)%float = true -> (y <=? z)%float = true -> (x <? z)%float = true.
Proof.
  rewrite leb_spec, !ltb_spec. unfold SFleb, SFltb.
  destruct (SFcompare (Prim2SF x) (Prim2SF y)) as [c1|] eqn:E1; [|discriminate].
  destruct (SFcompare (Prim2SF y) (Prim2SF z)) as [c2|] eqn:E2; [|discriminate].
  intros H1 H2.
  rewrite (SFcompare_trans_lt _ _ _ c1 c2 E1 E2); [reflexivity| | |];
    destruct c1, c2; try discriminate; auto.
Qed.

(** X13: for one exchange, a tick that took longer to decode never scores
    higher: the confidence does not grow with the latency. *)
Theorem confidence_falls_with_latency exchange (faster slower : number) :
  (faster <=? slower)%float = true ->
  calculateConfidence exchange slower <= calculateConfidence exchange faster.
Proof.
  intros Hle. unfold calculateConfidence. cbv zeta.
  set (base := if String.eqb exchange "binance" then 95
               else if String.eqb exchange "coinbase" then 90
               else if String.eqb exchange "kraken" then 80 else 70).
  pose proof (leb_ltb_trans faster slower 100 Hle) as H100.
  pose proof (fun H => ltb_leb_trans 1000 faster slower H Hle) as H1000.
  pose proof (fun H => ltb_leb_trans 500 faster slower H Hle) as H500.
  destruct (slower <? 100)%float.
  - rewrite H100 by reflexivity. lia.
  - clear H100.
    destruct (1000 <? faster)%float.
    { rewrite H1000 by reflexivity. destruct (faster <? 100)%float; lia. }
    clear H1000.
    destruct (500 <? faster)%float.
    { rewrite H500 by reflexivity.
      destruct (faster <? 100)%float, (1000 <? slower)%float; lia. }
    destruct (faster <? 100)%float, (1000 <? slower)%float,
             (500 <? slower)%float; lia.
Qed.

Lemma confidence_falls_with_latency_witness :
  calculateConfidence "kraken" 1200%float <= calculateConfidence "kraken" 50%float.
Proof.
  apply (confidence_falls_with_latency "kraken" 50%float 1200%float).
  vm_compute. reflexivity.
Defined.

(** ** Failed connections and reconnection *)

Section Reconnection.
Variable host : Host.

(** X14: when the constructor of the socket throws, [connectToExchange]
    returns normally: no socket is created and the connection table is
    left alone, the exchange gets the status ERROR with the message
    [Connection failed: ] followed by what was thrown, and one
    reconnection timer is set, for the first attempt after 1000 ms. *)
Theorem failed_connection_schedules_retry e symbols thrown s :
  WebSocket_throws host (url e) = Some thrown ->
  let s' := exec (connectToExchange host e symbols) s in
  sockets s' = sockets s
  /\ connections s' = connections s
  /\ JsMap.get (name e) (connectionStatus s') = Some (failed_status e (clock s) thrown)
  /\ timers s' = timers s ++ [first_retry e symbols]
  /\ reconnectTimers s'
     = JsMap.set (name e) (List.length (timers s)) (reconnectTimers s).
Proof.
  intros Hthrow s'. subst s'. unfold connectToExchange.
  rewrite exec_bind, Hthrow, exec_bind.
  destruct (updateConnectionStatus_frame host (name e) CONNECTING zero None 0 s)
    as (_ & Hs1 & Hn1 & Hm1 & Hr1 & Hk1 & _).
  set (s1 := exec (updateConnectionStatus host (name e) CONNECTING zero None 0) s) in *.
  destruct (updateConnectionStatus_frame host (name e) ERROR zero
              (Some ("Connection failed: " ++ thrown)%string) 0 s1)
    as (Ht2 & Hs2 & Hn2 & Hm2 & Hr2 & Hk2 & _).
  set (s2 := exec (updateConnectionStatus host (name e) ERROR zero
                     (Some ("Connection failed: " ++ thrown)%string) 0) s1) in *.
  assert (Hstatus : JsMap.get (name e) (connectionStatus s2)
                    = Some (failed_status e (clock s) thrown))
    by (rewrite Ht2, Hk1; apply get_set_same).
  rewrite scheduleReconnection_exec by (rewrite Hstatus; reflexivity). simpl.
  rewrite Hs2, Hs1, Hn2, Hn1, Hm2, Hm1, Hr2, Hr1. auto.
Qed.

(** X15: when a pending reconnection timer fires and the constructor does
    not throw, a new connecting socket is created for the exchange and
    the symbols of the timer and takes the place of the old socket in
    the connection table; the old socket is not closed.  The exchange
    ends with the status CONNECTING and the attempt counter 0, and no
    further timer is set. *)
Theorem fired_timer_reconnects timer t s :
  nth_error (timers s) timer = Some t ->
  t_state t = Pending ->
  WebSocket_throws host (url (t_exchange t)) = None ->
  let e := t_exchange t in
  let s' := exec (step host (TimerFires timer)) s in
  sockets s' = sockets s ++ [connecting (t_symbols t) e]
  /\ connections s' = JsMap.set (name e) (List.length (sockets s)) (connections s)
  /\ JsMap.get (name e) (connectionStatus s')
     = Some (status_of (name e) CONNECTING (clock s) zero None 0)
  /\ List.length (timers s') = List.length (timers s)
  /\ option_map t_state (nth_error (timers s') timer) = Some Fired.
Proof.
  intros Ht Hp Hc e s'. subst s'. unfold step.
  rewrite exec_bind, exec_gets, eval_gets, Ht, Hp, exec_bind, exec_modify.
  unfold reconnect. rewrite exec_bind.
  match goal with
  | |- context [exec (updateConnectionStatus host ?n RECONNECTING ?l ?err ?a) ?s0] =>
      destruct (updateConnectionStatus_frame host n RECONNECTING l err a s0)
        as (_ & Hs1 & Hn1 & Hm1 & _ & Hk1 & _);
      set (s1 := exec (updateConnectionStatus host n RECONNECTING l err a) s0) in *
  end.
  destruct (connectToExchange_fields host (t_exchange t) (t_symbols t) s1 Hc)
    as (Hs2 & Hn2 & Ht2 & Hm2 & _).
  fold e in Hs2, Hn2, Ht2, Hm2 |- *.
  rewrite Hs2, Hn2, Ht2, Hm2, Hs1, Hn1, Hm1, Hk1. simpl.
  split; [reflexivity|]. split; [reflexivity|].
  split; [apply get_set_same|]. split.
  - clear. generalize (timers s). intros l. revert timer.
    induction l as [|x r IH]; intros [|i]; simpl; auto.
  - rewrite nth_error_update_nth, Nat.eqb_refl, Ht. reflexivity.
Qed.

End Reconnection.

Lemma failed_connection_schedules_retry_witness :
  timers (exec (connectToExchange offline_host binance ["BTC"]) initial)
  = [first_retry binance ["BTC"]]
  /\ sockets (exec (connectToExchange offline_host binance ["BTC"]) initial) = [].
Proof.
  destruct (failed_connection_schedules_retry offline_host binance ["BTC"]
              "SecurityError" initial eq_refl) as (H1 & _ & _ & H2 & _).
  split; [exact H2|exact H1].
Defined.

Lemma fired_timer_reconnects_witness :
  connections (exec (step plain_host (TimerFires 0))
                 (exec (step plain_host (WsClose 0 1006)) subscribed_to_BTC))
  = [("binance", 3%nat); ("coinbase", 1%nat); ("kraken", 2%nat)].
Proof.
  assert (Ht : nth_error
                 (timers (exec (step plain_host (WsClose 0 1006)) subscribed_to_BTC)) 0
               = Some (first_retry binance ["BTC"]))
    by (vm_compute; reflexivity).
  destruct (fired_timer_reconnects plain_host 0 (first_retry binance ["BTC"])
              (exec (step plain_host (WsClose 0 1006)) subscribed_to_BTC)
              Ht eq_refl eq_refl) as (_ & H & _).
  rewrite H. vm_compute. reflexivity.
Defined.

(** ** Registration and removal *)

Lemma onPriceUpdate_get sym callback s :
  JsMap.get sym (priceCallbacks (exec (onPriceUpdate sym callback) s))
  = Some (callbacks_of sym s ++ [callback]).
Proof.
  unfold onPriceUpdate. rewrite exec_bind, !exec_modify.
  unfold JsMap.has, callbacks_of.
  destruct (JsMap.get sym (priceCallbacks s)) as [callbacks|] eqn:E.
  - rewrite E. simpl. apply get_set_same.
  - simpl. rewrite get_set_same. simpl. apply get_set_same.
Qed.

Lemma remove_first_last x l : ~ In x l -> remove_first x (l ++ [x]) = l.
Proof.
  induction l as [|y r IH]; simpl; intros H.
  - now rewrite Nat.eqb_refl.
  - destruct (Nat.eqb_spec y x); [subst; tauto|]. f_equal. apply IH. tauto.
Qed.

(** X16: registering a callback that is not in the list of the symbol and
    calling the function [onPriceUpdate] returned gives back the
    callback lists as they were, for every symbol; the registry keeps
    an entry for the symbol, with the empty list when the symbol had no
    callback. *)
Theorem registration_round_trip sym callback s :
  ~ In callback (callbacks_of sym s) ->
  let s' := exec (unsubscribe sym callback) (exec (onPriceUpdate sym callback) s) in
  (forall other, callbacks_of other s' = callbacks_of other s)
  /\ JsMap.get sym (priceCallbacks s') = Some (callbacks_of sym s).
Proof.
  intros Hnew s'. split.
  - intros other. subst s'.
    rewrite unsubscribe_callbacks, !onPriceUpdate_callbacks, String.eqb_refl.
    destruct (String.eqb_spec other sym) as [->|]; [|reflexivity].
    now apply remove_first_last.
  - subst s'. unfold unsubscribe. rewrite exec_modify, onPriceUpdate_get.
    pose proof (splice1_indexOf callback (callbacks_of sym s ++ [callback])) as Hs.
    rewrite remove_first_last in Hs by exact Hnew.
    destruct (indexOf callback (callbacks_of sym s ++ [callback])) as [index|] eqn:E.
    + simpl. rewrite get_set_same. now rewrite Hs.
    + apply indexOf_None in E. exfalso. apply E, in_or_app. right. now left.
Qed.

Lemma registration_round_trip_witness :
  JsMap.get "BTC"
    (priceCallbacks (exec (unsubscribe "BTC" 1) (exec (onPriceUpdate "BTC" 1) initial)))
  = Some [].
Proof.
  destruct (registration_round_trip "BTC" 1 initial (fun H : False => H)) as [_ H].
  exact H.
Defined.

(** ** The consumers *)

Lemma slice_last_short {A} n (l : list A) :
  (List.length l <= n)%nat -> Hook.slice_last n l = l.
Proof.
  intros H. unfold Hook.slice_last.
  replace (List.length l - n)%nat with 0%nat by lia. reflexivity.
Qed.

Lemma slice_last_app {A} n (a b : list A) :
  Hook.slice_last n (Hook.slice_last n a ++ b) = Hook.slice_last n (a ++ b).
Proof.
  unfold Hook.slice_last.
  set (k := (List.length a - n)%nat).
  set (c := skipn k a ++ b).
  replace (a ++ b) with (firstn k a ++ c)
    by (unfold c; now rewrite app_assoc, firstn_skipn).
  assert (Hk : List.length (firstn k a) = k)
    by (rewrite length_firstn; unfold k; lia).
  assert (Hc : k = 0%nat \/ (n <= List.length c)%nat).
  { unfold c. rewrite length_app, length_skipn. unfold k. lia. }
  rewrite length_app, Hk.
  replace (k + List.length c - n)%nat with (k + (List.length c - n))%nat by lia.
  rewrite skipn_app, Hk.
  replace (k + (List.length c - n) - k)%nat with (List.length c - n)%nat by lia.
  rewrite (skipn_all2 (firstn k a)) by lia. reflexivity.
Qed.

Lemma push_latency_slice buffer latency :
  (List.length buffer <= 10)%nat ->
  Hook.push_latency buffer latency = Hook.slice_last 10 (buffer ++ [latency]).
Proof.
  intros H. unfold Hook.push_latency. cbv zeta.
  destruct (Nat.ltb_spec 10 (List.length (buffer ++ [latency]))); [reflexivity|].
  now rewrite slice_last_short.
Qed.

Lemma slice_last_length {A} n (l : list A) :
  (List.length (Hook.slice_last n l) <= n)%nat.
Proof. unfold Hook.slice_last. rewrite length_skipn. lia. Qed.

Lemma push_latencies buffer latencies :
  (List.length buffer <= 10)%nat ->
  fold_left Hook.push_latency latencies buffer
  = Hook.slice_last 10 (buffer ++ latencies).
Proof.
  revert buffer. induction latencies as [|x r IH]; intros buffer H; simpl.
  - rewrite app_nil_r. now rewrite slice_last_short.
  - rewrite push_latency_slice by exact H.
    rewrite IH by apply slice_last_length.
    rewrite slice_last_app, <- app_assoc. reflexivity.
Qed.

(** X17: the latency buffer of the hook, empty at first, holds after any
    number of price updates the latencies of the last ten of them, in
    the order of arrival, and of all of them while there were fewer;
    it is never empty when the average is taken. *)
Theorem latency_buffer_keeps_last_ten latencies :
  let buffer := fold_left Hook.push_latency latencies [] in
  buffer = Hook.slice_last 10 latencies
  /\ List.length buffer = Nat.min 10 (List.length latencies)
  /\ forall latency, Hook.push_latency buffer latency <> [].
Proof.
  intros buffer. subst buffer. rewrite push_latencies by (simpl; lia).
  simpl app. split; [reflexivity|]. split.
  - unfold Hook.slice_last. rewrite length_skipn. lia.
  - intros latency. rewrite push_latency_slice by apply slice_last_length.
    intros H. apply (f_equal (@List.length _)) in H.
    unfold Hook.slice_last in H at 1.
    rewrite length_skipn, length_app in H. simpl in H. lia.
Qed.

Lemma filter_all_forallb {A} (f : A -> bool) l :
  Nat.eqb (List.length (filter f l)) (List.length l) = forallb f l.
Proof.
  induction l as [|x r IH]; [reflexivity|]. simpl. destruct (f x); simpl.
  - exact IH.
  - pose proof (filter_length_le f r). apply Nat.eqb_neq. lia.
Qed.

Lemma forallb_existsb {A} (f : A -> bool) x r :
  forallb f (x :: r) = true -> existsb f (x :: r) = true.
Proof. simpl. destruct (f x); [reflexivity|discriminate]. Qed.

(** X18: the health that [useWebSocketHealth] reports is [connected]
    when there is a status and every status is CONNECTED, [partial]
    when some but not every status is CONNECTED, [error] when none is
    CONNECTED and one is ERROR, and [disconnected] otherwise: one
    connected exchange hides the errors of the others.  The hook's
    [isWebSocketActive] is true exactly in the first two cases, and the
    monitor shows the same health, with [healthy] for [connected]. *)
Theorem health_classification now statuses :
  let health := Hook.updateHealth now statuses in
  let status := Hook.overallStatus health in
  let some_connected := existsb Hook.is_connected statuses in
  let all_connected := forallb Hook.is_connected statuses in
  let some_error := existsb Hook.is_error statuses in
  (status = "connected" <-> statuses <> [] /\ all_connected = true)
  /\ (status = "partial" <-> some_connected = true /\ all_connected = false)
  /\ (status = "error" <-> some_connected = false /\ some_error = true)
  /\ (status = "disconnected" <->
      (statuses = [] \/ all_connected = false) /\ some_connected = false
      /\ some_error = false)
  /\ (Hook.hasActiveConnection statuses = true <->
      status = "connected" \/ status = "partial")
  /\ Monitor.overallHealth statuses
     = (if String.eqb status "connected" then "healthy" else status)
  /\ (Hook.activeConnections health <= Hook.totalConnections health)%nat.
Proof.
  intros health status some_connected all_connected some_error.
  assert (Hlen : (Hook.activeConnections health <= Hook.totalConnections health)%nat)
    by apply filter_length_le.
  subst health status. unfold Monitor.overallHealth, Hook.hasActiveConnection.
  unfold Hook.updateHealth in *. cbn [Hook.overallStatus] in *. cbv zeta.
  rewrite filter_all_forallb, filter_some_existsb.
  fold some_connected all_connected some_error.
  destruct statuses as [|x r].
  - subst some_connected all_connected some_error. simpl.
    repeat split; intros; try discriminate; try tauto;
      try (intuition congruence).
  - assert (Himp : all_connected = true -> some_connected = true)
      by apply forallb_existsb.
    cbn [List.length Nat.ltb Nat.leb]. rewrite andb_true_r.
    destruct all_connected, some_connected, some_error;
      try (specialize (Himp eq_refl); discriminate); cbn;
      repeat split; intros; try discriminate; try tauto;
      try (intuition congruence); try (intuition discriminate).
Qed.

(** ** Incoming messages *)

Section Messages.
Variable host : Host.

(** X19: a message that is not JSON, one whose decoding throws and one
    that the decoder of the exchange returns [null] for leave the
    service exactly as it was: nothing is stored, no callback is called
    and the status of the exchange is not refreshed. *)
Theorem undecodable_message_changes_nothing ws data lat s :
  (forall w frame p,
     nth_error (sockets s) ws = Some w -> data = Some frame ->
     messageParser (Date_getTime host) (ws_exchange w) (clock s) frame
     <> Normal (Some p)) ->
  exec (step host (WsMessage ws data lat)) s = s.
Proof.
  intros H. unfold step. rewrite exec_bind, exec_gets, eval_gets.
  destruct (nth_error (sockets s) ws) as [w|]; [|reflexivity].
  assert (Hon : exec (onmessage host (ws_exchange w) data lat) s = s).
  { unfold onmessage. destruct data as [frame|]; [|reflexivity].
    rewrite exec_bind, exec_gets, eval_gets.
    specialize (H w frame).
    destruct (messageParser _ _ _ frame) as [[p|]|]; try reflexivity.
    exfalso. now apply (H p). }
  destruct (readyState w); try reflexivity; exact Hon.
Qed.


End Messages.

Lemma undecodable_message_changes_nothing_witness :
  exec (step plain_host (WsMessage 0 (Some VNull) 5)) open_for_BTC = open_for_BTC.
Proof.
  apply (undecodable_message_changes_nothing plain_host 0 (Some VNull) 5%float
           open_for_BTC).
  intros w frame p Hw Hf. inversion Hf; subst frame.
  vm_compute in Hw. inversion Hw; subst w. vm_compute. discriminate.
Defined.


(** ** Staleness *)

Lemma SFcompare_refl x : x <> S754_nan -> SFcompare x x = Some Eq.
Proof.
  destruct x as [s|s| |s m e]; simpl; intros H; try congruence.
  - destruct s; reflexivity.
  - destruct s; rewrite Z.compare_refl;
      change (Pos.compare_cont Eq m m) with (Pos.compare m m);
      now rewrite Pos.compare_refl.
Qed.

Lemma is_nan_spec (a : float) : is_nan a = true <-> Prim2SF a = S754_nan.
Proof.
  unfold is_nan. rewrite eqb_spec. unfold SFeqb. split.
  - intros H. destruct (Prim2SF a) eqn:E; try reflexivity;
      rewrite SFcompare_refl in H by discriminate; discriminate.
  - intros ->. reflexivity.
Qed.

Lemma ltb_nan_r (m a : float) : is_nan a = true -> (m <? a)%float = false.
Proof.
  intros H. apply is_nan_spec in H. rewrite ltb_spec, H. unfold SFltb.
  destruct (Prim2SF m); reflexivity.
Qed.

Lemma ltb_ltb_trans (x y z : float) :
  (x <? y)%float = true -> (y <? z)%float = true -> (x <? z)%float = true.
Proof.
  rewrite !ltb_spec. unfold SFltb.
  destruct (SFcompare (Prim2SF x) (Prim2SF y)) as [c1|] eqn:E1; [|discriminate].
  destruct (SFcompare (Prim2SF y) (Prim2SF z)) as [c2|] eqn:E2; [|discriminate].
  intros H1 H2.
  rewrite (SFcompare_trans_lt _ _ _ c1 c2 E1 E2); [reflexivity| | |];
    destruct c1, c2; try discriminate; auto.
Qed.

(** Two numbers neither of which is below the other, and neither NaN,
    are above the same numbers. *)
Lemma ltb_equal_r (m a b : float) :
  is_nan a = false -> is_nan b = false ->
  (a <? b)%float = false -> (b <? a)%float = false ->
  (m <? a)%float = true -> (m <? b)%float = true.
Proof.
  intros Ha Hb. rewrite !ltb_spec. unfold SFltb.
  assert (Na : Prim2SF a <> S754_nan)
    by (intros H; apply is_nan_spec in H; congruence).
  assert (Nb : Prim2SF b <> S754_nan)
    by (intros H; apply is_nan_spec in H; congruence).
  rewrite (SFcompare_antisym (Prim2SF a) (Prim2SF b)).
  destruct (SFcompare (Prim2SF a) (Prim2SF b)) as [c|] eqn:E.
  - destruct c; simpl; try discriminate. intros _ _.
    destruct (SFcompare (Prim2SF m) (Prim2SF a)) as [c1|] eqn:E1; [|discriminate].
    intros H1.
    rewrite (SFcompare_trans_lt _ _ _ c1 Eq E1 E); [reflexivity| | |];
      destruct c1; try discriminate; auto.
  - apply SFcompare_none in E. tauto.
Qed.

Lemma Math_min_above (m a b : float) :
  (m <? Math_min a b)%float = true
  <-> (m <? a)%float = true /\ (m <? b)%float = true.
Proof.
  unfold Math_min.
  destruct (is_nan a) eqn:Ha; simpl.
  { pose proof (ltb_nan_r m a Ha). pose proof (ltb_nan_r m nan eq_refl).
    split; [congruence|intros [? _]; congruence]. }
  destruct (is_nan b) eqn:Hb; simpl.
  { pose proof (ltb_nan_r m b Hb). pose proof (ltb_nan_r m nan eq_refl).
    split; [congruence|intros [_ ?]; congruence]. }
  destruct (a <? b)%float eqn:Hab.
  { split; [|tauto]. intros H. split; [exact H|]. exact (ltb_ltb_trans m a b H Hab). }
  destruct (b <? a)%float eqn:Hba.
  { split; [|tauto]. intros H. split; [|exact H]. exact (ltb_ltb_trans m b a H Hba). }
  destruct (classify a); (split; [|tauto]); intros H; split; try exact H;
    first [exact (ltb_equal_r m a b Ha Hb Hab Hba H)
          |exact (ltb_equal_r m b a Hb Ha Hba Hab H)].
Qed.

Lemma Math_min_fold_above m values start :
  (m <? fold_left Math_min values start)%float = true
  <-> (m <? start)%float = true
      /\ Forall (fun value => (m <? value)%float = true) values.
Proof.
  revert start. induction values as [|x r IH]; intros start; simpl.
  - split; [intros H; split; [exact H|constructor]|tauto].
  - rewrite IH, Math_min_above. split.
    + intros [[H1 H2] H3]. split; [exact H1|]. constructor; assumption.
    + intros [H1 H2]. inversion H2; subst. tauto.
Qed.

(** X21: the hook reports stale data exactly when the staleness bound is
    below [Infinity] and every price it holds is older than the bound,
    each age taken with its own reading of the clock: one price that is
    not older, or whose age is NaN, is enough for no staleness to be
    reported, and with no price at all every finite bound reports
    staleness. *)
Theorem stale_when_every_price_is_old Date_now prices maxStaleness :
  Freshness.isStale Date_now prices maxStaleness = true
  <-> (maxStaleness <? infinity)%float = true
      /\ Forall (fun age => (maxStaleness <? age)%float = true)
                (Freshness.ages Date_now prices).
Proof.
  unfold Freshness.isStale, Freshness.dataFreshness, Freshness.Math_min_of.
  apply Math_min_fold_above.
Qed.

(** ** The life cycle of a consumer *)

Lemma exec_unsubscribes_tables symbols callback s :
  let s' := exec (forEach symbols (fun symbol => unsubscribe symbol callback)) s in
  priceCalls s' = priceCalls s /\ statusCalls s' = statusCalls s.
Proof.
  revert s. induction symbols as [|symbol r IH]; intros s; simpl; [auto|].
  rewrite exec_bind. destruct (IH (exec (unsubscribe symbol callback) s)) as [H1 H2].
  simpl in H1, H2. rewrite H1, H2. unfold unsubscribe. rewrite exec_modify.
  destruct (JsMap.get symbol (priceCallbacks s)) as [callbacks|];
    [destruct (indexOf callback callbacks)|]; auto.
Qed.

(** X22: the cleanup of one consumer of the shared service ends with
    [disconnect]: it empties the registry and the list of status
    callbacks, those of the other consumers included, and the
    connection table.  Whatever the host does afterwards, no price
    callback and no status callback of any consumer is called until one
    registers again. *)
Theorem cleanup_silences_every_consumer host symbols handlePriceUpdate
    handleStatusUpdate events s :
  forallb (fun a => negb (registers a)) events = true ->
  let s1 := exec (Lifecycle.cleanup symbols handlePriceUpdate handleStatusUpdate) s in
  let s2 := exec (run host events) s1 in
  priceCallbacks s1 = [] /\ statusCallbacks s1 = [] /\ connections s1 = []
  /\ priceCalls s1 = priceCalls s /\ statusCalls s1 = statusCalls s
  /\ priceCalls s2 = priceCalls s /\ statusCalls s2 = statusCalls s.
Proof.
  intros Hev s1 s2.
  assert (H1 : priceCallbacks s1 = [] /\ statusCallbacks s1 = [] /\ connections s1 = []
               /\ priceCalls s1 = priceCalls s /\ statusCalls s1 = statusCalls s).
  { subst s1. unfold Lifecycle.cleanup.
    rewrite exec_bind, exec_bind, disconnect_exec. simpl.
    unfold unsubscribeStatus. rewrite exec_modify.
    destruct (exec_unsubscribes_tables symbols handlePriceUpdate s) as [Hp Hs].
    simpl in Hp, Hs.
    repeat split; try reflexivity.
    - destruct (indexOf _ _); simpl; exact Hp.
    - destruct (indexOf _ _); simpl; exact Hs. }
  destruct H1 as (Hp & Hs & Hc & Hpc & Hsc).
  repeat split; try assumption.
  - destruct (quiet_run host events Hev s1) as [_ _ [new [E F]] _].
    fold s2 in E. rewrite E, <- Hpc.
    destruct new as [|c new]; [apply app_nil_r|].
    inversion F as [|? ? Hsub _]; subst. unfold subscribed, callbacks_of in Hsub.
    rewrite Hp in Hsub. destruct Hsub.
  - destruct (quiet_run host events Hev s1) as [_ _ _ [new [E F]]].
    fold s2 in E. rewrite E, <- Hsc.
    destruct new as [|c new]; [apply app_nil_r|].
    inversion F as [|? ? Hsub _]; subst. rewrite Hs in Hsub. destruct Hsub.
Qed.

Lemma cleanup_silences_every_consumer_witness :
  callbacks_of "ETH" two_consumers = [3%nat]
  /\ priceCalls (exec (run plain_host later_events)
                   (exec (Lifecycle.cleanup ["BTC"] 1 2) two_consumers))
     = priceCalls two_consumers
  /\ priceCalls (exec (run plain_host later_events) two_consumers)
     <> priceCalls two_consumers.
Proof.
  split; [vm_compute; reflexivity|]. split.
  - destruct (cleanup_silences_every_consumer plain_host ["BTC"] 1 2 later_events
                two_consumers eq_refl) as (_ & _ & _ & _ & _ & H & _).
    exact H.
  - vm_compute. discriminate.
Defined.
